(** * flv-parser.c: a shallow embedding of the FLV tag parser

    The development follows [src/flv-parser.c] function by function.

    - Bytes are [Byte.byte]; C integers are [Z], with the conversion to a
      narrower unsigned type written out as [mod].
    - [g_infile] is the list of bytes not yet read together with the
      end-of-file indicator; [fread] is the only operation on it.
    - The script-data functions work on a pair (pointer, remaining length);
      the pointer is modelled by the bytes it points at.
    - [assert] stops the process ([AssertFailed]); [die] leaves it through
      [exit(-1)] ([Exited]).
    - A step to which C gives no meaning ends the run as [Undefined]: a
      name taken from a table at an index the table does not have, and an
      [fread] into the null pointer of a [malloc] that was asked for a size
      that has wrapped around.
    - [output] keeps the lines printed for the content of a payload: those of
      the script-data decoder and the two AAC lines.  The lines that
      [flv_read_tag] and the tag readers print from the numeric fields of a
      tag (previous tag size, tag type, data size, ...) are not kept; those
      fields are in the returned records.
    - A [malloc] of a size that has not wrapped around is taken to succeed,
      and the NULL-pointer guards at the head of the script-data functions
      are not modelled: every call in the program passes addresses of live
      objects. *)

From Stdlib Require Import List ZArith Lia Bool.
From Stdlib Require Import Strings.Byte.
Import ListNotations.
Open Scope Z_scope.

(** ** Bytes and fixed-width integers *)

Definition u8 (b : byte) : Z := Z.of_N (Byte.to_N b).

(** [bytes[i]] of a C array held as a list; the lists below always have the
    size of the array. *)
Definition byte_at (l : list byte) (i : nat) : Z := u8 (nth i l x00).

Definition to_uint8 (z : Z) : Z := z mod 2 ^ 8.
Definition to_uint16 (z : Z) : Z := z mod 2 ^ 16.
Definition to_uint32 (z : Z) : Z := z mod 2 ^ 32.
Definition to_size_t (z : Z) : Z := z mod 2 ^ 64.

(** [flv_get_bits]: [count] bits of [value] starting at [start_bit], counted
    from the low side. *)
Definition flv_get_bits (value start_bit count : Z) : Z :=
  let mask := to_uint8 (Z.shiftl (Z.shiftl 1 count - 1) start_bit) in
  Z.shiftr (Z.land mask value) start_bit.

(** ** The input stream *)

Record FILE := mkFILE {
  unread : list byte;   (* bytes from the file position to the end *)
  at_eof : bool         (* the end-of-file indicator tested by feof *)
}.

(** [fread(ptr, size, nmemb, g_infile)]: the bytes stored at [ptr], the number
    of complete items, and the stream afterwards.  A request that cannot be
    met delivers the bytes that are left, also those of an item that stays
    incomplete, and sets the indicator.  Read errors are not modelled. *)
Definition fread (size nmemb : Z) (f : FILE) : list byte * Z * FILE :=
  let want := size * nmemb in
  let have := Z.of_nat (length (unread f)) in
  if want <=? have then
    (firstn (Z.to_nat want) (unread f), nmemb,
     mkFILE (skipn (Z.to_nat want) (unread f)) (at_eof f))
  else
    (unread f, have / size, mkFILE [] true).

(** The bytes of a local array after [fread] stored [got] at its start. *)
Definition stored (got init : list byte) : list byte :=
  got ++ skipn (length got) init.

(** [fread_1(ptr)]: [old] is the byte at [*ptr] before the call; it stays
    there when nothing is read. *)
Definition fread_1 (old : byte) (f : FILE) : Z * byte * FILE :=
  let '(got, count, f') := fread 1 1 f in
  (count, nth 0 (stored got [old]) old, f').

Definition fread_3 (f : FILE) : Z * Z * FILE :=
  let '(got, count, f') := fread 3 1 f in
  let bytes := stored got [x00; x00; x00] in
  let v := Z.lor (Z.lor (Z.shiftl (byte_at bytes 0) 16)
                        (Z.shiftl (byte_at bytes 1) 8))
                 (byte_at bytes 2) in
  (count * 3, to_uint32 v, f').

Definition fread_4 (f : FILE) : Z * Z * FILE :=
  let '(got, count, f') := fread 4 1 f in
  let bytes := stored got [x00; x00; x00; x00] in
  let v := Z.lor (Z.lor (Z.lor (Z.shiftl (byte_at bytes 0) 24)
                               (Z.shiftl (byte_at bytes 1) 16))
                        (Z.shiftl (byte_at bytes 2) 8))
                 (byte_at bytes 3) in
  (count * 4, to_uint32 v, f').

(** ** Outcomes of a call *)

Inductive outcome (A : Type) : Type :=
| Ret (a : A)            (* the function returns *)
| AssertFailed           (* an assert does not hold: abort *)
| Exited (status : Z)    (* exit(status) *)
| OutOfFuel              (* the model ran out of steps; see [object_fuel] *)
| Undefined.             (* a step without meaning in C; what the process
                            does from there on is not described *)

Arguments Ret {A} a.
Arguments AssertFailed {A}.
Arguments Exited {A} status.
Arguments OutOfFuel {A}.
Arguments Undefined {A}.

Definition bind {A B : Type} (m : outcome A) (k : A -> outcome B) : outcome B :=
  match m with
  | Ret a => k a
  | AssertFailed => AssertFailed
  | Exited s => Exited s
  | OutOfFuel => OutOfFuel
  | Undefined => Undefined
  end.

Notation "x <- m ;; k" := (bind m (fun x => k))
  (at level 61, m at next level, right associativity).

Definition assert (b : bool) : outcome unit :=
  if b then Ret tt else AssertFailed.

(** ** The tables of names

    The report names a field by indexing a table of strings with it, as in
    [printf("%s", frame_types[tag->frame_type])].  Of a table the model keeps
    the number of its entries.  The four tables of [read_audio_tag] have 16,
    4, 2 and 2 entries, one for every value of the 4, 2, 1 and 1 bits that
    index them (see [sound_fields_in_tables]); the others are shorter than
    the range of their index. *)
Definition scriptdata_value_type_names : Z := 13.
Definition sound_formats : Z := 16.
Definition sound_rates : Z := 4.
Definition sound_sizes : Z := 2.
Definition sound_types : Z := 2.
Definition frame_types : Z := 6.
Definition codec_ids : Z := 8.
Definition avc_packet_types : Z := 3.

(** [table[i]] as an argument of [printf]: outside the table the read is
    undefined. *)
Definition name_at (table i : Z) : outcome unit :=
  if (0 <=? i) && (i <? table) then Ret tt else Undefined.

(** ** Buffers for the data of a payload *)

Definition PTRDIFF_MAX : Z := 2 ^ 63 - 1.

(** [p = malloc(n); count = fread(p, 1, n, g_infile);] where [n] is a
    difference [(size_t) data_size - count].  When more bytes have been read
    than the tag declares, the difference wraps around to a size above
    [PTRDIFF_MAX]; no [malloc] serves it, [p] is NULL and [fread] is handed
    the null pointer. *)
Definition malloc_fread (n : Z) (f : FILE) : outcome (list byte * Z * FILE) :=
  let n := to_size_t n in
  if n >? PTRDIFF_MAX then Undefined else Ret (fread 1 n f).

(** ** Script data: values in a buffer *)

Definition SCRIPTDATA_NUMBER : Z := 0.
Definition SCRIPTDATA_BOOLEAN : Z := 1.
Definition SCRIPTDATA_STRING : Z := 2.
Definition SCRIPTDATA_OBJECT : Z := 3.
Definition SCRIPTDATA_MOVIE_CLIP : Z := 4.
Definition SCRIPTDATA_NULL : Z := 5.
Definition SCRIPTDATA_UNDEFINED : Z := 6.
Definition SCRIPTDATA_REFERENCE : Z := 7.
Definition SCRIPTDATA_ECMA_ARRAY : Z := 8.
Definition SCRIPTDATA_OBJECT_END_MARKER : Z := 9.
Definition SCRIPTDATA_STRICT_ARRAY : Z := 10.
Definition SCRIPTDATA_DATE : Z := 11.
Definition SCRIPTDATA_LONG_STRING : Z := 12.

(** The pair [( *data, *len )] of the script-data functions: the bytes at and
    after the pointer, and the remaining length. *)
Record cursor := mkCursor {
  data : list byte;
  len : Z
}.

(** [d += n; l -= n;] (every use is guarded by [l >= n], so [l] does not
    wrap). *)
Definition advance (n : Z) (c : cursor) : cursor :=
  mkCursor (skipn (Z.to_nat n) (data c)) (len c - n).

(** [d[i]] *)
Definition peek (c : cursor) (i : nat) : Z := byte_at (data c) i.

(** [hex2double]: the 64 bits of the double.  The reinterpretation as a
    floating-point number is not modelled; a returned [0] is the pattern of
    [0.0]. *)
Definition hex2double (hex : list byte) : Z :=
  let bin_h := to_uint32 (Z.lor (Z.lor (Z.lor (Z.shiftl (byte_at hex 0) 24)
                                              (Z.shiftl (byte_at hex 1) 16))
                                       (Z.shiftl (byte_at hex 2) 8))
                                (byte_at hex 3)) in
  let bin_l := to_uint32 (Z.lor (Z.lor (Z.lor (Z.shiftl (byte_at hex 4) 24)
                                              (Z.shiftl (byte_at hex 5) 16))
                                       (Z.shiftl (byte_at hex 6) 8))
                                (byte_at hex 7)) in
  Z.lor (Z.shiftl bin_h 32) bin_l.

Definition parse_scriptdata_number (c : cursor) : outcome (Z * cursor) :=
  if len c <? 1 then Ret (0, c) else
  let type := peek c 0 in
  _ <- assert (SCRIPTDATA_NUMBER =? type) ;;
  let c1 := advance 1 c in
  if len c1 <? 8 then Ret (0, c) else
  let num := hex2double (data c1) in
  Ret (num, advance 8 c1).

Definition parse_scriptdata_boolean (c : cursor) : outcome (Z * cursor) :=
  if len c <? 1 then Ret (0, c) else
  let type := peek c 0 in
  _ <- assert (SCRIPTDATA_BOOLEAN =? type) ;;
  let c1 := advance 1 c in
  if len c1 <? 1 then Ret (0, c) else
  let b := peek c1 0 in
  Ret (b, advance 1 c1).

(** The string is moved one byte down in the buffer and closed with a NUL
    ([memmove(dst, src, length); dst[length] = 0] with [dst = src - 1]); the
    bytes written all lie before the new [*data].  [Some s] is the returned
    pointer, with [s] the [length] bytes at [dst]; [None] is NULL. *)
Definition parse_scriptdata_string_without_type (c : cursor)
  : option (list byte) * cursor :=
  if len c <? 2 then (None, c) else
  let length := to_uint16 (Z.shiftl (peek c 0) 8 + peek c 1) in
  let c1 := advance 2 c in
  if len c1 <? length then (None, c) else
  (Some (firstn (Z.to_nat length) (data c1)), advance length c1).

Definition parse_scriptdata_string (c : cursor)
  : outcome (option (list byte) * cursor) :=
  if len c <? 1 then Ret (None, c) else
  let type := peek c 0 in
  _ <- assert (SCRIPTDATA_STRING =? type) ;;
  Ret (parse_scriptdata_string_without_type (advance 1 c)).

(** Returns the pointer behind the count ([None] is NULL) together with
    [*type] and [*length]. *)
Definition parse_scriptdata_ECMA_array_raw (c : cursor)
  : outcome (option (Z * Z) * cursor) :=
  if len c <? 1 then Ret (None, c) else
  let type := peek c 0 in
  _ <- assert (SCRIPTDATA_ECMA_ARRAY =? type) ;;
  let c1 := advance 1 c in
  if len c1 <? 4 then Ret (None, c) else
  let length := to_uint32 (Z.shiftl (peek c1 0) 24 + Z.shiftl (peek c1 1) 16
                           + Z.shiftl (peek c1 2) 8 + peek c1 3) in
  Ret (Some (type, length), advance 4 c1).

(** The item loop of [parse_scriptdata_strict_array]: the value returned by
    [parse_scriptdata_number] is dropped. *)
Fixpoint strict_array_items (n : nat) (c : cursor) : outcome cursor :=
  match n with
  | O => Ret c
  | S n' =>
      r <- parse_scriptdata_number c ;;
      strict_array_items n' (snd r)
  end.

Definition parse_scriptdata_strict_array (c : cursor) : outcome (Z * cursor) :=
  if len c <? 1 then Ret (0, c) else
  let type := peek c 0 in
  _ <- assert (SCRIPTDATA_STRICT_ARRAY =? type) ;;
  let c1 := advance 1 c in
  if len c1 <? 4 then Ret (0, c) else
  let length := to_uint32 (Z.shiftl (peek c1 0) 24 + Z.shiftl (peek c1 1) 16
                           + Z.shiftl (peek c1 2) 8 + peek c1 3) in
  c2 <- strict_array_items (Z.to_nat length) (advance 4 c1) ;;
  Ret (length, c2).

Definition parse_scriptdata_date (c : cursor) : outcome (Z * cursor) :=
  if len c <? 1 then Ret (0, c) else
  let type := peek c 0 in
  _ <- assert (SCRIPTDATA_DATE =? type) ;;
  let c1 := advance 1 c in
  if len c1 <? 8 then Ret (0, c) else
  let date_time_ms := hex2double (data c1) in
  let c2 := advance 8 c1 in
  if len c2 <? 2 then Ret (0, c) else
  Ret (date_time_ms, advance 2 c2).

(** ** Script data: the object body *)

(** The lines of the report that are printed for the content of a payload:
    those of the script-data decoder and the two of an AAC payload. *)
Inductive line : Type :=
| Property_end_marker
| Property_number (name : list byte) (num : Z)
| Property_boolean (name : list byte) (b : Z)
| Property_string (name : list byte) (s : option (list byte))
| Property_object (name : list byte)
| Begin_object
| End_object
| Property_strict_array (name : list byte) (items : Z)
| Property_date (name : list byte) (date_time_ms : Z)
| Unknown_property (name : list byte) (type : Z)
| Scriptdata_tag (name : list byte) (value_type num_of_items value_length : Z)
| AAC_packet_type (b : Z) (sequence_header : bool)
| AAC_AudioSpecificConfig (config : list byte).

(** [property_name[0] == '\0'] for the string left in the buffer by
    [parse_scriptdata_string_without_type]: its first byte is the first byte
    of the name, or the closing NUL when the name has no bytes. *)
Definition name_is_empty (property_name : list byte) : bool :=
  match property_name with
  | [] => true
  | b :: _ => u8 b =? 0
  end.

Definition is_terminator (property_name : list byte) (property_type : Z) : bool :=
  name_is_empty property_name && (property_type =? SCRIPTDATA_OBJECT_END_MARKER).

(** The [switch] of [print_scriptdata_object]; [self] is the function
    itself, for a nested object.  The boolean tells how the switch is left:
    [true] by [break] (the loop goes on), [false] by [return].  The default
    case prints [scriptdata_value_type_names[property_type]] before it
    returns. *)
Definition property_switch
    (self : cursor -> outcome (list line * cursor))
    (property_name : list byte) (property_type : Z) (c : cursor)
  : outcome (list line * cursor * bool) :=
  match property_type with
  | 0 (* SCRIPTDATA_NUMBER *) =>
      r <- parse_scriptdata_number c ;;
      Ret ([Property_number property_name (fst r)], snd r, true)
  | 1 (* SCRIPTDATA_BOOLEAN *) =>
      r <- parse_scriptdata_boolean c ;;
      Ret ([Property_boolean property_name (fst r)], snd r, true)
  | 2 (* SCRIPTDATA_STRING *) =>
      r <- parse_scriptdata_string c ;;
      Ret ([Property_string property_name (fst r)], snd r, true)
  | 3 (* SCRIPTDATA_OBJECT *) =>
      r <- self (advance 1 c) ;;
      Ret (Property_object property_name :: Begin_object :: fst r ++ [End_object],
           snd r, true)
  | 10 (* SCRIPTDATA_STRICT_ARRAY *) =>
      r <- parse_scriptdata_strict_array c ;;
      Ret ([Property_strict_array property_name (fst r)], snd r, true)
  | 11 (* SCRIPTDATA_DATE *) =>
      r <- parse_scriptdata_date c ;;
      Ret ([Property_date property_name (fst r)], snd r, true)
  | _ =>
      _ <- name_at scriptdata_value_type_names property_type ;;
      Ret ([Unknown_property property_name property_type], c, false)
  end.

(** [print_scriptdata_object]: the lines printed and the cursor left in
    [*ppvalue_data], [*pvalue_length].  [fuel] bounds the number of loop
    rounds and nested calls together. *)
Fixpoint print_scriptdata_object (fuel : nat) (c : cursor)
  : outcome (list line * cursor) :=
  match fuel with
  | O => OutOfFuel
  | S fuel' =>
      if len c >? 0 then
        match parse_scriptdata_string_without_type c with
        | (None, c1) => Ret ([], c1)
        | (Some property_name, c1) =>
            if len c1 <? 1 then Ret ([], c1) else
            let property_type := peek c1 0 in
            if is_terminator property_name property_type then
              Ret ([Property_end_marker], advance 1 c1)
            else
              r <- property_switch (print_scriptdata_object fuel')
                     property_name property_type c1 ;;
              let '(lines, c2, again) := r in
              if again then
                r' <- print_scriptdata_object fuel' c2 ;;
                Ret (lines ++ fst r', snd r')
              else Ret (lines, c2)
        end
      else Ret ([], c)
  end.

(** Fuel that is enough for a buffer of [l] bytes (see
    [print_scriptdata_object_fuel]). *)
Definition object_fuel (l : Z) : nat := S (Z.to_nat l).

(** ** Tags *)

(** Modelled from the spec: the header [flv-parser.h] is not among the
    sources.  The tag types are 8 (audio), 9 (video) and 18 (script data),
    the codec id of AVC is 7. *)
Definition TAGTYPE_AUDIODATA : Z := 8.
Definition TAGTYPE_VIDEODATA : Z := 9.
Definition TAGTYPE_SCRIPTDATAOBJECT : Z := 18.
Definition FLV_CODEC_ID_AVC : Z := 7.

(** Modelled from the spec: the structs of [flv-parser.h], with the fields
    that [flv-parser.c] reads and writes.  The [data] pointer of an audio or
    a video payload is the list of the bytes read into its buffer.  Of the
    buffer of a script-data payload only the size is kept: the string
    decoders rewrite its bytes in place while the payload is parsed, and
    nothing reads them afterwards ([flv_free_tag] frees the buffer). *)
Record audio_tag_t := mkAudio {
  sound_format : Z;
  sound_rate : Z;
  sound_size : Z;
  sound_type : Z;
  audio_data : list byte
}.

Record avc_video_tag_t := mkAvc {
  avc_packet_type : Z;
  composition_time : Z;
  nalu_len : Z;
  avc_data : list byte
}.

Inductive video_data_t : Type :=
| Video_raw (bytes : list byte)
| Video_avc (avc : avc_video_tag_t).

Record video_tag_t := mkVideo {
  frame_type : Z;
  codec_id : Z;
  video_data : video_data_t
}.

Record scriptdata_tag_t := mkScript {
  script_data_size : Z
}.

Inductive tag_data_t : Type :=
| Audio_data (a : audio_tag_t)
| Video_data (v : video_tag_t)
| Script_data (s : scriptdata_tag_t).

Record flv_tag_t := mkTag {
  tag_type : Z;
  data_size : Z;
  timestamp : Z;
  timestamp_ext : Z;
  stream_id : Z;
  tag_data : option tag_data_t   (* [None] is the NULL pointer *)
}.

(** The state the tag readers share: the input stream and the lines
    reported so far for the payloads. *)
Record world := mkWorld {
  g_infile : FILE;
  output : list line
}.

Definition print (l : line) (w : world) : world :=
  mkWorld (g_infile w) (output w ++ [l]).

Definition print_all (ls : list line) (w : world) : world :=
  mkWorld (g_infile w) (output w ++ ls).

Definition with_file (f : FILE) (w : world) : world :=
  mkWorld f (output w).

(** [die]: prints the error line, then [exit(-1)]. *)
Definition die {A : Type} : outcome A := Exited (-1).

(** The four tables of names are indexed inside their bounds by every byte,
    see [sound_fields_in_tables]. *)
Definition read_audio_tag (flv_tag : flv_tag_t) (w : world)
  : outcome (option audio_tag_t * world) :=
  if data_size flv_tag =? 0 then Ret (None, w) else
  let '(count, byte, f1) := fread_1 x00 (g_infile w) in
  let format := flv_get_bits (u8 byte) 4 4 in
  let rate := flv_get_bits (u8 byte) 2 2 in
  let size := flv_get_bits (u8 byte) 1 1 in
  let type := flv_get_bits (u8 byte) 0 1 in
  let '(count, aac_packet_type, w1) :=
    if format =? 10 then
      (* AACPacketType *)
      let '(n, byte, f2) := fread_1 byte f1 in
      (count + n, u8 byte,
       print (AAC_packet_type (u8 byte) (u8 byte =? 0)) (with_file f2 w))
    else (count, 255 (* dummy *), with_file f1 w) in
  r <- malloc_fread (data_size flv_tag - count) (g_infile w1) ;;
  let '(buf, count, f3) := r in
  let w3 := with_file f3 w1 in
  let w4 := if (aac_packet_type =? 0) && (count >? 0)
            then print (AAC_AudioSpecificConfig buf) w3 else w3 in
  Ret (Some (mkAudio format rate size type buf), w4).

Section Readers.

(** What a byte of memory obtained from [malloc] holds before it is
    written. *)
Variable uninitialised : byte.

(** [read_avc_video_tag]: of [video_tag] only the frame type is read, and
    [flv_tag] is not used. *)
Definition read_avc_video_tag (video_frame_type : Z) (data_size : Z) (w : world)
  : outcome (avc_video_tag_t * world) :=
  let '(count, b, f1) := fread_1 uninitialised (g_infile w) in
  let packet_type := u8 b in
  let '(count, ct, f2) :=
    if packet_type =? 1 then
      let '(n, v, f) := fread_3 f1 in (count + n, v, f)
    else (count, 0, f1) in
  _ <- assert (negb (video_frame_type =? 5)) ;; (* not implemented! *)
  (* AVCVIDEOPACKET *)
  let '(count, nalu, f3) :=
    if packet_type =? 0 then
      (* AVCDecoderConfigurationRecord *)
      (count, 0, f2)
    else if packet_type =? 1 then
      (* One or more NALUs *)
      let '(n, v, f) := fread_4 f2 in (count + n, v, f)
    else (count, 0, f2) in
  _ <- name_at avc_packet_types packet_type ;;
  r <- malloc_fread (data_size - count) f3 ;;
  let '(buf, _, f4) := r in
  Ret (mkAvc packet_type ct nalu buf, with_file f4 w).

Definition read_video_tag (flv_tag : flv_tag_t) (w : world)
  : outcome (option video_tag_t * world) :=
  if data_size flv_tag =? 0 then Ret (None, w) else
  let '(count, byte, f1) := fread_1 x00 (g_infile w) in
  let frame := flv_get_bits (u8 byte) 4 4 in
  let codec := flv_get_bits (u8 byte) 0 4 in
  _ <- name_at frame_types frame ;;
  _ <- name_at codec_ids codec ;;
  (* AVC-specific stuff *)
  if codec =? FLV_CODEC_ID_AVC then
    r <- read_avc_video_tag frame (to_uint32 (data_size flv_tag - count))
           (with_file f1 w) ;;
    Ret (Some (mkVideo frame codec (Video_avc (fst r))), snd r)
  else
    r <- malloc_fread (data_size flv_tag - count) f1 ;;
    let '(buf, _, f2) := r in
    Ret (Some (mkVideo frame codec (Video_raw buf)), with_file f2 w).

(** [tag->data] is a buffer of [data_size] bytes, filled by [fread] from its
    start; where the stream ends before, the rest of the buffer holds what
    [malloc] left there.  The pointer [data] that is parsed starts at the
    buffer. *)
Definition read_scriptdata_tag (flv_tag : flv_tag_t) (w : world)
  : outcome (option scriptdata_tag_t * world) :=
  if data_size flv_tag <=? 0 then Ret (None, w) else
  let '(got, _, f1) := fread 1 (data_size flv_tag) (g_infile w) in
  let buf := stored got (repeat uninitialised (Z.to_nat (data_size flv_tag))) in
  let tag := mkScript (data_size flv_tag) in
  let w1 := with_file f1 w in
  let c := mkCursor buf (data_size flv_tag) in
  (* Name *)
  r <- parse_scriptdata_string c ;;
  match fst r with
  | None => Ret (Some tag, w1)
  | Some name_str =>
      (* Value *)
      r' <- parse_scriptdata_ECMA_array_raw (snd r) ;;
      match fst r' with
      | None => Ret (Some tag, w1)
      | Some (value_type, value_num_of_items) =>
          let value := snd r' in
          let w2 := print (Scriptdata_tag name_str value_type value_num_of_items
                             (len value)) w1 in
          o <- print_scriptdata_object (object_fuel (len value)) value ;;
          let w3 := print_all (fst o) w2 in
          _ <- assert (len (snd o) =? 0) ;;
          Ret (Some tag, w3)
      end
  end.

(** The [switch] of [flv_read_tag] on the type of the tag whose header has
    been read. *)
Definition tag_switch (tag : flv_tag_t) (w : world)
  : outcome (option flv_tag_t * world) :=
  let finish (d : option tag_data_t) (w' : world) :=
    Ret (Some (mkTag (tag_type tag) (data_size tag) (timestamp tag)
                 (timestamp_ext tag) (stream_id tag) d), w') in
  match tag_type tag with
  | 8 (* TAGTYPE_AUDIODATA *) =>
      r <- read_audio_tag tag w ;;
      finish (option_map Audio_data (fst r)) (snd r)
  | 9 (* TAGTYPE_VIDEODATA *) =>
      r <- read_video_tag tag w ;;
      finish (option_map Video_data (fst r)) (snd r)
  | 18 (* TAGTYPE_SCRIPTDATAOBJECT *) =>
      r <- read_scriptdata_tag tag w ;;
      finish (option_map Script_data (fst r)) (snd r)
  | _ =>
      (* Unknown tag type! *)
      die
  end.

(** [flv_read_tag]: [None] is the NULL returned at the end of the stream. *)
Definition flv_read_tag (w : world) : outcome (option flv_tag_t * world) :=
  let '(_, prev_tag_size, f1) := fread_4 (g_infile w) in
  (* Start reading next tag *)
  let '(_, type, f2) := fread_1 uninitialised f1 in
  if at_eof f2 then Ret (None, with_file f2 w) else
  let '(_, size, f3) := fread_3 f2 in
  let '(_, ts, f4) := fread_3 f3 in
  let '(_, ext, f5) := fread_1 uninitialised f4 in
  let '(_, sid, f6) := fread_3 f5 in
  tag_switch (mkTag (u8 type) size ts (u8 ext) sid None) (with_file f6 w).

End Readers.

(** ** Vocabulary of the statements *)

(** The value three and four bytes make, most significant first, as the C
    expressions of [fread_3] and [fread_4] build it. *)
Definition be24 (b0 b1 b2 : byte) : Z :=
  Z.lor (Z.lor (Z.shiftl (u8 b0) 16) (Z.shiftl (u8 b1) 8)) (u8 b2).

Definition be32 (b0 b1 b2 b3 : byte) : Z :=
  Z.lor (Z.lor (Z.lor (Z.shiftl (u8 b0) 24) (Z.shiftl (u8 b1) 16))
               (Z.shiftl (u8 b2) 8)) (u8 b3).

(** Bits [hi] down to [lo] of [v]. *)
Definition bits (v hi lo : Z) : Z := (v / 2 ^ lo) mod 2 ^ (hi - lo + 1).

(** A 24-bit pattern read as a two's-complement number. *)
Definition sign_extend_24 (v : Z) : Z :=
  if v <? 2 ^ 23 then v else v - 2 ^ 24.

(** An array item that is a Number: the type byte 0 and eight bytes. *)
Definition is_number_item (item : list byte) : bool :=
  match item with
  | b :: rest => (u8 b =? SCRIPTDATA_NUMBER) && (length rest =? 8)%nat
  | [] => false
  end.

(** The three decoders of fixed-size values, with their type byte and the
    number of bytes of a whole value. *)
Inductive primitive : Type := Number | Boolean | Date.

Definition primitive_type (p : primitive) : Z :=
  match p with
  | Number => SCRIPTDATA_NUMBER
  | Boolean => SCRIPTDATA_BOOLEAN
  | Date => SCRIPTDATA_DATE
  end.

Definition primitive_size (p : primitive) : Z :=
  match p with
  | Number => 1 + 8
  | Boolean => 1 + 1
  | Date => 1 + 8 + 2
  end.

Definition parse_primitive (p : primitive) : cursor -> outcome (Z * cursor) :=
  match p with
  | Number => parse_scriptdata_number
  | Boolean => parse_scriptdata_boolean
  | Date => parse_scriptdata_date
  end.

(** A stream at its start. *)
Definition stream (bytes : list byte) : world :=
  mkWorld (mkFILE bytes false) [].


(** The count a strict array declares in the four bytes after its type. *)
Definition declared_count (n0 n1 n2 n3 : byte) : Z :=
  u8 n0 * 2 ^ 24 + u8 n1 * 2 ^ 16 + u8 n2 * 2 ^ 8 + u8 n3.

(** The first line a call prints, when it returns. *)
Definition first_line (r : outcome (list line * cursor)) : option line :=
  match r with
  | Ret (l :: _, _) => Some l
  | _ => None
  end.

(** The types that have a case of their own in the switch of
    [print_scriptdata_object]. *)
Definition has_case (property_type : Z) : bool :=
  existsb (Z.eqb property_type)
    [SCRIPTDATA_NUMBER; SCRIPTDATA_BOOLEAN; SCRIPTDATA_STRING;
     SCRIPTDATA_OBJECT; SCRIPTDATA_STRICT_ARRAY; SCRIPTDATA_DATE].


(** ** Ways a call can end *)

(** The decoders of values return or stop on an assertion; they have no
    other way to end. *)
Definition returns_or_asserts {A : Type} (r : outcome A) : Prop :=
  match r with
  | Ret _ | AssertFailed => True
  | Exited _ | OutOfFuel | Undefined => False
  end.

(** The call ends within the steps it was given: it returns with a
    remaining length of at most [l], an assertion fails, or it reaches a
    step that is undefined. *)
Definition ends_within (l : Z) (r : outcome (list line * cursor)) : Prop :=
  match r with
  | Ret (_, c') => len c' <= l
  | AssertFailed | Undefined => True
  | Exited _ | OutOfFuel => False
  end.

Definition switch_ends_within (l : Z) (r : outcome (list line * cursor * bool))
  : Prop :=
  match r with
  | Ret (_, c', _) => len c' <= l
  | AssertFailed | Undefined => True
  | Exited _ | OutOfFuel => False
  end.



(** ** A body of Number properties *)

(** A property of type Number as it lies in the buffer: the two bytes of
    the length of its name, the name, the type byte 0 and eight bytes. *)
Record number_property := mkNumberProperty {
  name_hi : byte;
  name_lo : byte;
  prop_name : list byte;
  prop_num : list byte
}.

Definition property_bytes (p : number_property) : list byte :=
  name_hi p :: name_lo p :: prop_name p ++ x00 :: prop_num p.

Definition well_formed (p : number_property) : Prop :=
  Z.of_nat (length (prop_name p)) = u8 (name_hi p) * 256 + u8 (name_lo p)
  /\ length (prop_num p) = 8%nat.

Definition property_line (p : number_property) : line :=
  Property_number (prop_name p) (hex2double (prop_num p)).

(** ** The file header and the run over the tags *)

(** [flv_signature] *)
Definition flv_signature : list byte := [x46; x4c; x56] (* "FLV" *).

(** Modelled from the spec: [flv_header_t] of [flv-parser.h], nine bytes
    without padding: the signature, the version, the flags and the data
    offset. *)
Record flv_header_t := mkHeader {
  signature : list byte;
  version : Z;
  type_flags : Z;
  data_offset : Z
}.

Definition sizeof_flv_header_t : Z := 9.

(** [ntohl] of the [uint32_t] that lies in memory as the four bytes given:
    the number they make in network order, whatever the order of the host. *)
Definition ntohl (b0 b1 b2 b3 : byte) : Z :=
  to_uint32 (Z.lor (Z.lor (Z.lor (Z.shiftl (u8 b0) 24) (Z.shiftl (u8 b1) 16))
                          (Z.shiftl (u8 b2) 8)) (u8 b3)).

(** The run of asserts of [flv_read_header] over the signature. *)
Fixpoint signature_asserts (sig expected : list byte) : outcome unit :=
  match expected with
  | [] => Ret tt
  | e :: expected' =>
      _ <- assert (u8 (nth 0 sig x00) =? u8 e) ;;
      signature_asserts (tl sig) expected'
  end.

Section Run.

Variable uninitialised : byte.

(** [flv_read_header]: the header as it is handed to [flv_print_header]
    (the function itself returns 0, and the report of the header is not part
    of [output]).  The struct comes from [malloc]; bytes that [fread] could
    not deliver stay as they were. *)
Definition flv_read_header (w : world) : outcome (flv_header_t * world) :=
  let '(got, _, f1) := fread 1 sizeof_flv_header_t (g_infile w) in
  let mem := stored got (repeat uninitialised (Z.to_nat sizeof_flv_header_t)) in
  _ <- signature_asserts (firstn 3 mem) flv_signature ;;
  let offset := ntohl (nth 5 mem x00) (nth 6 mem x00) (nth 7 mem x00)
                      (nth 8 mem x00) in
  Ret (mkHeader (firstn 3 mem) (u8 (nth 3 mem x00)) (u8 (nth 4 mem x00)) offset,
       with_file f1 w).

(** The loop of [flv_parser_run]: the tags it reads, in order (each is
    freed before the next is read), up to the NULL of [flv_read_tag].
    [fuel] bounds the number of rounds. *)
Fixpoint read_tags (fuel : nat) (w : world) : outcome (list flv_tag_t * world) :=
  match fuel with
  | O => OutOfFuel
  | S fuel' =>
      r <- flv_read_tag uninitialised w ;;
      match fst r with
      | None => Ret ([], snd r)
      | Some tag =>
          r' <- read_tags fuel' (snd r) ;;
          Ret (tag :: fst r', snd r')
      end
  end.

(** [flv_parser_run]: the value returned and the tags read on the way. *)
Definition flv_parser_run (fuel : nat) (w : world)
  : outcome (Z * list flv_tag_t * world) :=
  h <- flv_read_header w ;;
  r <- read_tags fuel (snd h) ;;
  Ret (0, fst r, snd r).

End Run.

(** Rounds that are enough for a stream of [n] bytes: a tag takes at least
    five. *)
Definition run_fuel (n : nat) : nat := S n.

(** ** Vocabulary: numbers and their bytes *)

(** The number a list of bytes makes, most significant byte first. *)
Definition be_value (l : list byte) : Z :=
  fold_left (fun acc b => acc * 256 + u8 b) l 0.

Definition byte_of (z : Z) : byte :=
  match Byte.of_N (Z.to_N z) with
  | Some b => b
  | None => x00
  end.

(** The [n] low bytes of [v], most significant first. *)
Fixpoint encode_be (n : nat) (v : Z) : list byte :=
  match n with
  | O => []
  | S n' => encode_be n' (v / 256) ++ [byte_of (v mod 256)]
  end.

(** A string as the script data hold it: the length in two bytes, then the
    bytes. *)
Definition encode_string (s : list byte) : list byte :=
  encode_be 2 (Z.of_nat (length s)) ++ s.

(** A Number as the script data hold it: the type byte and eight bytes. *)
Definition encode_number (bits64 : Z) : list byte :=
  x00 :: encode_be 8 bits64.

(** The end of an object: the empty name and the end marker. *)
Definition object_end : list byte := [x00; x00; x09].

(** Values of the kinds [print_scriptdata_object] decodes and that nest: a
    Number (its 64 bits), a Boolean (its byte), a String, and an Object with
    its properties in order. *)
Inductive amf_value : Type :=
| ANumber (bits64 : Z)
| ABoolean (b : byte)
| AString (s : list byte)
| AObject (props : amf_props)
with amf_props : Type :=
| PNil
| PCons (name : list byte) (v : amf_value) (rest : amf_props).

Scheme amf_value_mut := Induction for amf_value Sort Prop
  with amf_props_mut := Induction for amf_props Sort Prop.

Combined Scheme amf_mutual_ind from amf_value_mut, amf_props_mut.

(** The bytes of a value, its type byte first, and of the properties of an
    object, each a name without type byte and a value. *)
Fixpoint encode_value (v : amf_value) : list byte :=
  match v with
  | ANumber n => encode_number n
  | ABoolean b => [x01; b]
  | AString s => x02 :: encode_string s
  | AObject ps => x03 :: encode_props ps ++ object_end
  end
with encode_props (ps : amf_props) : list byte :=
  match ps with
  | PNil => []
  | PCons name v rest => encode_string name ++ encode_value v ++ encode_props rest
  end.

(** The lines that report a property, and the properties of an object. *)
Fixpoint value_lines (name : list byte) (v : amf_value) : list line :=
  match v with
  | ANumber n => [Property_number name n]
  | ABoolean b => [Property_boolean name (u8 b)]
  | AString s => [Property_string name (Some s)]
  | AObject ps =>
      Property_object name :: Begin_object
      :: (props_lines ps ++ [Property_end_marker]) ++ [End_object]
  end
with props_lines (ps : amf_props) : list line :=
  match ps with
  | PNil => []
  | PCons name v rest => value_lines name v ++ props_lines rest
  end.

(** What the encoding can hold: 64 bits in a Number, fewer than 65536 bytes
    in a name or a String. *)
Fixpoint representable (v : amf_value) : Prop :=
  match v with
  | ANumber n => 0 <= n < 2 ^ 64
  | ABoolean _ => True
  | AString s => Z.of_nat (length s) < 65536
  | AObject ps => representable_props ps
  end
with representable_props (ps : amf_props) : Prop :=
  match ps with
  | PNil => True
  | PCons name v rest =>
      Z.of_nat (length name) < 65536 /\ representable v
      /\ representable_props rest
  end.

(** Steps of [print_scriptdata_object] for the properties of an object and
    the terminator behind them. *)
Fixpoint value_fuel (v : amf_value) : nat :=
  match v with
  | AObject ps => props_fuel ps
  | _ => O
  end
with props_fuel (ps : amf_props) : nat :=
  match ps with
  | PNil => 1
  | PCons _ v rest => S (Nat.max (value_fuel v) (props_fuel rest))
  end.

(** A script-data payload: the name as a String, then an ECMA array that
    declares [count] items and holds the properties and the end. *)
Definition encode_metadata (name : list byte) (count : Z) (props : amf_props)
  : list byte :=
  x02 :: encode_string name
  ++ x08 :: encode_be 4 count
  ++ encode_props props ++ object_end.

(** [moved_forward c c']: [c'] is [c] after some of its bytes, not more than
    its length counts. *)
Definition moved_forward (c c' : cursor) : Prop :=
  exists n : Z, 0 <= n <= len c /\ c' = advance n c.

(** The eleven bytes of a tag header and the four of the size before it. *)
Definition encode_tag_header (prev : Z) (type size ts ext sid : Z) : list byte :=
  encode_be 4 prev ++ byte_of type :: encode_be 3 size ++ encode_be 3 ts
  ++ byte_of ext :: encode_be 3 sid.

(** [suffix_of l l']: [l'] is what is left of [l] after some bytes. *)
Definition suffix_of (l l' : list byte) : Prop :=
  exists n : nat, l' = skipn n l.

(** A reader went forward in the stream and added to the report. *)
Definition went_on (w w' : world) : Prop :=
  suffix_of (unread (g_infile w)) (unread (g_infile w'))
  /\ exists more, output w' = output w ++ more.

(** ** Vocabulary: a file of audio tags *)

(** An audio tag of a format that has no packet type (any but AAC): the
    fields of its header, the first byte of the payload and the data. *)
Record audio_frame := mkFrame {
  frame_prev : Z;
  frame_ts : Z;
  frame_ext : Z;
  frame_sid : Z;
  frame_first : byte;
  frame_data : list byte
}.

Definition frame_bytes (fr : audio_frame) : list byte :=
  encode_tag_header (frame_prev fr) TAGTYPE_AUDIODATA
    (1 + Z.of_nat (length (frame_data fr)))
    (frame_ts fr) (frame_ext fr) (frame_sid fr)
  ++ frame_first fr :: frame_data fr.

Definition frame_tag (fr : audio_frame) : flv_tag_t :=
  mkTag TAGTYPE_AUDIODATA (1 + Z.of_nat (length (frame_data fr)))
    (frame_ts fr) (frame_ext fr) (frame_sid fr)
    (Some (Audio_data
       (mkAudio (bits (u8 (frame_first fr)) 7 4) (bits (u8 (frame_first fr)) 3 2)
                (bits (u8 (frame_first fr)) 1 1) (bits (u8 (frame_first fr)) 0 0)
                (frame_data fr)))).

Definition frame_fits (fr : audio_frame) : Prop :=
  0 <= frame_prev fr < 2 ^ 32 /\ 0 <= frame_ts fr < 2 ^ 24
  /\ 0 <= frame_ext fr < 256 /\ 0 <= frame_sid fr < 2 ^ 24
  /\ 1 + Z.of_nat (length (frame_data fr)) < 2 ^ 24
  /\ bits (u8 (frame_first fr)) 7 4 <> 10.

(** * Proofs *)

(** ** Bytes and fixed-width integers *)

Lemma u8_range (b : byte) : 0 <= u8 b < 256.
Proof.
  unfold u8. pose proof (Byte.to_N_bounded b). lia.
Qed.

Lemma log2_below (n a : Z) : 0 < n -> 0 <= a < 2 ^ n -> Z.log2 a < n.
Proof.
  intros Hn [Ha0 Ha].
  destruct (Z.eq_dec a 0) as [->|Na].
  - exact Hn.
  - apply Z.log2_lt_pow2; lia.
Qed.

Lemma lor_below (n a b : Z) :
  0 < n -> 0 <= a < 2 ^ n -> 0 <= b < 2 ^ n -> 0 <= Z.lor a b < 2 ^ n.
Proof.
  intros Hn Ha Hb.
  assert (H0 : 0 <= Z.lor a b) by (apply Z.lor_nonneg; split; lia).
  split; [exact H0|].
  destruct (Z.eq_dec (Z.lor a b) 0) as [E|E].
  - rewrite E. apply Z.pow_pos_nonneg; lia.
  - apply Z.log2_lt_pow2; [lia|].
    rewrite Z.log2_lor by lia.
    apply Z.max_lub_lt; apply log2_below; assumption.
Qed.

Lemma shiftl_u8_below (b : byte) (k : Z) :
  0 <= k -> 0 <= Z.shiftl (u8 b) k < 2 ^ (k + 8).
Proof.
  intros Hk. pose proof (u8_range b) as Hb.
  rewrite Z.shiftl_mul_pow2 by lia.
  rewrite Z.pow_add_r by lia.
  assert (0 < 2 ^ k) by (apply Z.pow_pos_nonneg; lia).
  change (2 ^ 8) with 256. nia.
Qed.


Lemma be24_range b0 b1 b2 : 0 <= be24 b0 b1 b2 < 2 ^ 24.
Proof.
  unfold be24.
  pose proof (shiftl_u8_below b0 16 ltac:(lia)) as H0.
  pose proof (shiftl_u8_below b1 8 ltac:(lia)) as H1.
  pose proof (u8_range b2) as H2.
  change (16 + 8) with 24 in H0. change (8 + 8) with 16 in H1.
  apply lor_below; try lia.
  apply lor_below; lia.
Qed.

Lemma be32_range b0 b1 b2 b3 : 0 <= be32 b0 b1 b2 b3 < 2 ^ 32.
Proof.
  unfold be32.
  pose proof (shiftl_u8_below b0 24 ltac:(lia)) as H0.
  pose proof (shiftl_u8_below b1 16 ltac:(lia)) as H1.
  pose proof (shiftl_u8_below b2 8 ltac:(lia)) as H2.
  pose proof (u8_range b3) as H3.
  change (24 + 8) with 32 in H0. change (16 + 8) with 24 in H1.
  change (8 + 8) with 16 in H2.
  repeat (apply lor_below; try lia).
Qed.

Lemma to_uint32_be24 b0 b1 b2 : to_uint32 (be24 b0 b1 b2) = be24 b0 b1 b2.
Proof.
  unfold to_uint32. pose proof (be24_range b0 b1 b2).
  apply Z.mod_small. lia.
Qed.

Lemma to_uint32_be32 b0 b1 b2 b3 : to_uint32 (be32 b0 b1 b2 b3) = be32 b0 b1 b2 b3.
Proof.
  unfold to_uint32. pose proof (be32_range b0 b1 b2 b3).
  apply Z.mod_small. lia.
Qed.

(** ** The stream *)

Lemma fread_prefix (size nmemb : Z) (xs rest : list byte) (e : bool) :
  Z.of_nat (length xs) = size * nmemb ->
  fread size nmemb (mkFILE (xs ++ rest) e) = (xs, nmemb, mkFILE rest e).
Proof.
  intros H. unfold fread. cbn [unread at_eof].
  rewrite length_app, Nat2Z.inj_add.
  destruct (Z.leb_spec (size * nmemb) (Z.of_nat (length xs) + Z.of_nat (length rest))); [|lia].
  rewrite <- H, Nat2Z.id.
  rewrite firstn_app, Nat.sub_diag, firstn_all, firstn_O, app_nil_r.
  rewrite skipn_app, Nat.sub_diag, skipn_all, skipn_O. reflexivity.
Qed.

Lemma fread_short (size nmemb : Z) (f : FILE) :
  Z.of_nat (length (unread f)) < size * nmemb ->
  fread size nmemb f =
  (unread f, Z.of_nat (length (unread f)) / size, mkFILE [] true).
Proof.
  intros H. unfold fread.
  destruct (Z.leb_spec (size * nmemb) (Z.of_nat (length (unread f)))); [lia|reflexivity].
Qed.

Lemma fread_1_cons (old b : byte) (rest : list byte) (e : bool) :
  fread_1 old (mkFILE (b :: rest) e) = (1, b, mkFILE rest e).
Proof.
  unfold fread_1. change (b :: rest) with ([b] ++ rest).
  rewrite (fread_prefix 1 1 [b] rest e) by reflexivity. reflexivity.
Qed.

Lemma fread_1_nil (old : byte) (e : bool) :
  fread_1 old (mkFILE [] e) = (0, old, mkFILE [] true).
Proof. reflexivity. Qed.

Lemma fread_3_cons (b0 b1 b2 : byte) (rest : list byte) (e : bool) :
  fread_3 (mkFILE (b0 :: b1 :: b2 :: rest) e) = (3, be24 b0 b1 b2, mkFILE rest e).
Proof.
  unfold fread_3. change (b0 :: b1 :: b2 :: rest) with ([b0; b1; b2] ++ rest).
  rewrite (fread_prefix 3 1 [b0; b1; b2] rest e) by reflexivity.
  rewrite <- to_uint32_be24. reflexivity.
Qed.

Lemma fread_4_cons (b0 b1 b2 b3 : byte) (rest : list byte) (e : bool) :
  fread_4 (mkFILE (b0 :: b1 :: b2 :: b3 :: rest) e)
  = (4, be32 b0 b1 b2 b3, mkFILE rest e).
Proof.
  unfold fread_4.
  change (b0 :: b1 :: b2 :: b3 :: rest) with ([b0; b1; b2; b3] ++ rest).
  rewrite (fread_prefix 4 1 [b0; b1; b2; b3] rest e) by reflexivity.
  rewrite <- to_uint32_be32. reflexivity.
Qed.


Lemma fread_3_short (f : FILE) :
  (length (unread f) < 3)%nat ->
  fread_3 f =
  (0, be24 (nth 0 (unread f) x00) (nth 1 (unread f) x00) (nth 2 (unread f) x00),
   mkFILE [] true).
Proof.
  intros H. unfold fread_3. rewrite fread_short by lia.
  rewrite <- to_uint32_be24.
  destruct f as [[|b0 [|b1 [|b2 r]]] e]; cbn [unread length] in *; try lia;
    reflexivity.
Qed.

Lemma fread_4_short (f : FILE) :
  (length (unread f) < 4)%nat ->
  fread_4 f =
  (0, be32 (nth 0 (unread f) x00) (nth 1 (unread f) x00) (nth 2 (unread f) x00)
           (nth 3 (unread f) x00),
   mkFILE [] true).
Proof.
  intros H. unfold fread_4. rewrite fread_short by lia.
  rewrite <- to_uint32_be32.
  destruct f as [[|b0 [|b1 [|b2 [|b3 r]]]] e]; cbn [unread length] in *; try lia;
    reflexivity.
Qed.

Lemma fread_1_count (old : byte) (f : FILE) :
  0 <= fst (fst (fread_1 old f)) <= 1.
Proof.
  destruct f as [[|b rest] e].
  - rewrite fread_1_nil. cbn. lia.
  - rewrite fread_1_cons. cbn. lia.
Qed.

(** ** Tables and buffers *)

Lemma name_at_inside (table i : Z) :
  0 <= i < table -> name_at table i = Ret tt.
Proof.
  intros H. unfold name_at.
  destruct (Z.leb_spec 0 i); [|lia]. destruct (Z.ltb_spec i table); [|lia].
  reflexivity.
Qed.

Lemma name_at_outside (table i : Z) :
  table <= i -> name_at table i = Undefined.
Proof.
  intros H. unfold name_at.
  destruct (Z.ltb_spec i table); [lia|]. rewrite andb_false_r. reflexivity.
Qed.

Lemma malloc_fread_fits (n : Z) (f : FILE) :
  0 <= n < 2 ^ 32 -> malloc_fread n f = Ret (fread 1 n f).
Proof.
  intros H. unfold malloc_fread, to_size_t, PTRDIFF_MAX.
  rewrite Z.mod_small by lia.
  destruct (Z.gtb_spec n (2 ^ 63 - 1)); [lia|reflexivity].
Qed.


Lemma bits_range (v hi lo : Z) :
  lo <= hi -> 0 <= bits v hi lo < 2 ^ (hi - lo + 1).
Proof.
  intros H. unfold bits. apply Z.mod_pos_bound. apply Z.pow_pos_nonneg; lia.
Qed.

(** ** Fixed-size values *)

Lemma advance_cons (b : byte) (d : list byte) (l : Z) :
  advance 1 (mkCursor (b :: d) l) = mkCursor d (l - 1).
Proof. reflexivity. Qed.

Lemma advance_app (n : Z) (xs d : list byte) (l : Z) :
  Z.of_nat (length xs) = n ->
  advance n (mkCursor (xs ++ d) l) = mkCursor d (l - n).
Proof.
  intros <-. unfold advance. cbn [data len].
  rewrite Nat2Z.id, skipn_app, Nat.sub_diag, skipn_all, skipn_O. reflexivity.
Qed.

Lemma parse_number_item (b : byte) (rest tail : list byte) (l : Z) :
  u8 b = SCRIPTDATA_NUMBER -> length rest = 8%nat -> 9 <= l ->
  parse_scriptdata_number (mkCursor (b :: rest ++ tail) l)
  = Ret (hex2double (rest ++ tail), mkCursor tail (l - 9)).
Proof.
  intros Hb Hr Hl. unfold parse_scriptdata_number.
  cbn [len]. destruct (Z.ltb_spec l 1); [lia|].
  unfold peek, byte_at. cbn [data nth]. rewrite Hb. cbn [assert Z.eqb SCRIPTDATA_NUMBER bind].
  rewrite advance_cons. cbn [len data].
  destruct (Z.ltb_spec (l - 1) 8); [lia|].
  rewrite advance_app by (rewrite Hr; reflexivity).
  do 2 f_equal. f_equal. lia.
Qed.

Lemma parse_number_wrong_type (t : byte) (d : list byte) (l : Z) :
  u8 t <> SCRIPTDATA_NUMBER -> 1 <= l ->
  parse_scriptdata_number (mkCursor (t :: d) l) = AssertFailed.
Proof.
  intros Ht Hl. unfold parse_scriptdata_number.
  cbn [len]. destruct (Z.ltb_spec l 1); [lia|].
  unfold peek, byte_at. cbn [data nth].
  destruct (Z.eqb_spec SCRIPTDATA_NUMBER (u8 t)) as [E|E]; [congruence|reflexivity].
Qed.

Lemma strict_array_items_numbers (items : list (list byte)) (tail : list byte) (l : Z) :
  forallb is_number_item items = true ->
  9 * Z.of_nat (length items) <= l ->
  strict_array_items (length items) (mkCursor (concat items ++ tail) l)
  = Ret (mkCursor tail (l - 9 * Z.of_nat (length items))).
Proof.
  revert l. induction items as [|item items IH]; intros l Hall Hl.
  - cbn. do 2 f_equal. lia.
  - cbn [forallb] in Hall. apply andb_prop in Hall as [Hitem Hall].
    destruct item as [|b rest]; [discriminate|].
    cbn [is_number_item] in Hitem. apply andb_prop in Hitem as [Hb Hr].
    apply Z.eqb_eq in Hb. apply Nat.eqb_eq in Hr.
    cbn [length] in Hl. rewrite Nat2Z.inj_succ in Hl.
    cbn [length concat strict_array_items].
    rewrite <- app_assoc, <- app_comm_cons.
    rewrite parse_number_item by (assumption || lia).
    cbn [bind snd]. rewrite IH by (assumption || lia).
    do 2 f_equal. lia.
Qed.

Lemma strict_array_items_not_number
    (items : list (list byte)) (t : byte) (tl : list byte) (l : Z) (more : nat) :
  forallb is_number_item items = true ->
  9 * Z.of_nat (length items) < l ->
  u8 t <> SCRIPTDATA_NUMBER ->
  strict_array_items (length items + S more) (mkCursor (concat items ++ t :: tl) l)
  = AssertFailed.
Proof.
  revert l. induction items as [|item items IH]; intros l Hall Hl Ht.
  - cbn [length Nat.add concat app strict_array_items].
    rewrite parse_number_wrong_type by (assumption || (cbn in Hl; lia)). reflexivity.
  - cbn [forallb] in Hall. apply andb_prop in Hall as [Hitem Hall].
    destruct item as [|b rest]; [discriminate|].
    cbn [is_number_item] in Hitem. apply andb_prop in Hitem as [Hb Hr].
    apply Z.eqb_eq in Hb. apply Nat.eqb_eq in Hr.
    cbn [length] in Hl. rewrite Nat2Z.inj_succ in Hl.
    cbn [length concat Nat.add strict_array_items].
    rewrite <- app_assoc, <- app_comm_cons.
    rewrite parse_number_item by (assumption || lia).
    cbn [bind snd]. apply IH; (assumption || lia).
Qed.

Lemma uint32_count (n0 n1 n2 n3 : byte) :
  to_uint32 (Z.shiftl (u8 n0) 24 + Z.shiftl (u8 n1) 16 + Z.shiftl (u8 n2) 8 + u8 n3)
  = declared_count n0 n1 n2 n3.
Proof.
  unfold to_uint32, declared_count.
  rewrite !Z.shiftl_mul_pow2 by lia.
  pose proof (u8_range n0). pose proof (u8_range n1).
  pose proof (u8_range n2). pose proof (u8_range n3).
  apply Z.mod_small. lia.
Qed.

Lemma declared_count_range (n0 n1 n2 n3 : byte) :
  0 <= declared_count n0 n1 n2 n3 < 2 ^ 32.
Proof.
  unfold declared_count.
  pose proof (u8_range n0). pose proof (u8_range n1).
  pose proof (u8_range n2). pose proof (u8_range n3). lia.
Qed.

Lemma strict_array_header (n0 n1 n2 n3 : byte) (d : list byte) (l : Z) :
  5 <= l ->
  parse_scriptdata_strict_array (mkCursor (x0a :: n0 :: n1 :: n2 :: n3 :: d) l)
  = (c2 <- strict_array_items (Z.to_nat (declared_count n0 n1 n2 n3))
             (mkCursor d (l - 5)) ;;
     Ret (declared_count n0 n1 n2 n3, c2)).
Proof.
  intros Hl. unfold parse_scriptdata_strict_array.
  cbn [len]. destruct (Z.ltb_spec l 1); [lia|].
  change (peek (mkCursor (x0a :: n0 :: n1 :: n2 :: n3 :: d) l) 0) with 10.
  cbn [assert Z.eqb SCRIPTDATA_STRICT_ARRAY bind Pos.eqb].
  rewrite advance_cons. cbn [len].
  destruct (Z.ltb_spec (l - 1) 4); [lia|].
  change (peek (mkCursor (n0 :: n1 :: n2 :: n3 :: d) (l - 1)) 0) with (u8 n0).
  change (peek (mkCursor (n0 :: n1 :: n2 :: n3 :: d) (l - 1)) 1) with (u8 n1).
  change (peek (mkCursor (n0 :: n1 :: n2 :: n3 :: d) (l - 1)) 2) with (u8 n2).
  change (peek (mkCursor (n0 :: n1 :: n2 :: n3 :: d) (l - 1)) 3) with (u8 n3).
  rewrite uint32_count.
  change (n0 :: n1 :: n2 :: n3 :: d) with ([n0; n1; n2; n3] ++ d).
  rewrite advance_app by reflexivity.
  replace (l - 1 - 4) with (l - 5) by lia. reflexivity.
Qed.

(** C3 (amended).  A strict array that declares N items and holds N Numbers
    is decoded in 1+4+9*N bytes: the type byte, the count, and for every item
    its own type byte and eight bytes.  When an item that is not a Number
    comes before the count is reached, the assertion of
    [parse_scriptdata_number] fails. *)
Theorem strict_array_consumes
    (n0 n1 n2 n3 : byte) (items : list (list byte)) (tail : list byte) (l : Z) :
  forallb is_number_item items = true ->
  1 + 4 + 9 * Z.of_nat (length items) <= l ->
  let N := declared_count n0 n1 n2 n3 in
  let c := mkCursor (x0a :: n0 :: n1 :: n2 :: n3 :: concat items ++ tail) l in
  (Z.of_nat (length items) = N ->
   parse_scriptdata_strict_array c
   = Ret (N, mkCursor tail (l - (1 + 4 + 9 * N))))
  /\
  (Z.of_nat (length items) < N ->
   1 + 4 + 9 * Z.of_nat (length items) < l ->
   forall t tl, tail = t :: tl -> u8 t <> SCRIPTDATA_NUMBER ->
   parse_scriptdata_strict_array c = AssertFailed).
Proof.
  intros Hall Hl N c. subst c. split.
  - intros HN. rewrite strict_array_header by lia. fold N.
    rewrite <- HN, Nat2Z.id.
    rewrite strict_array_items_numbers by (assumption || lia).
    cbn [bind]. do 2 f_equal. f_equal. lia.
  - intros HN Hl' t tl -> Ht. rewrite strict_array_header by lia. fold N.
    replace (Z.to_nat N)
      with (length items + S (Z.to_nat N - length items - 1))%nat by lia.
    rewrite strict_array_items_not_number by (assumption || lia).
    reflexivity.
Qed.

Lemma strict_array_consumes_witness :
  parse_scriptdata_strict_array
    (mkCursor [x0a; x00; x00; x00; x01;
               x00; x40; x29; x00; x00; x00; x00; x00; x00; x2a] 15)
  = Ret (1, mkCursor [x2a] (15 - (1 + 4 + 9 * 1))).
Proof.
  apply (strict_array_consumes x00 x00 x00 x01
           [[x00; x40; x29; x00; x00; x00; x00; x00; x00]] [x2a] 15).
  - reflexivity.
  - cbn. lia.
  - reflexivity.
Defined.

(** C3, as claimed: 1+4+8*N bytes.  One Number item takes the array to 14
    bytes, not 13. *)
Lemma strict_array_not_8_bytes_per_item :
  exists c',
    parse_scriptdata_strict_array
      (mkCursor [x0a; x00; x00; x00; x01;
                 x00; x40; x29; x00; x00; x00; x00; x00; x00; x2a] 15)
    = Ret (1, c')
    /\ 15 - len c' = 1 + 4 + 9 * 1
    /\ 15 - len c' <> 1 + 4 + 8 * 1.
Proof.
  eexists. split; [reflexivity|]. cbn. lia.
Qed.




(** C2 (amended).  When fewer bytes are left than [fread_3] or [fread_4]
    asks for, the function returns 0 as the number of bytes read, takes what
    is left and sets the end-of-file indicator; the value it stores is made
    of the bytes that were left followed by the zero bytes of its array. *)
Theorem fread_short_read (f3 f4 : FILE) :
  (length (unread f3) < 3)%nat ->
  (length (unread f4) < 4)%nat ->
  fread_3 f3 =
    (0, be24 (nth 0 (unread f3) x00) (nth 1 (unread f3) x00)
             (nth 2 (unread f3) x00),
     mkFILE [] true)
  /\
  fread_4 f4 =
    (0, be32 (nth 0 (unread f4) x00) (nth 1 (unread f4) x00)
             (nth 2 (unread f4) x00) (nth 3 (unread f4) x00),
     mkFILE [] true).
Proof.
  intros H3 H4. split.
  - apply fread_3_short, H3.
  - apply fread_4_short, H4.
Qed.

Lemma fread_short_read_witness :
  fread_3 (mkFILE [x01; x02] false) = (0, be24 x01 x02 x00, mkFILE [] true)
  /\ fread_4 (mkFILE [x01; x02; x03] false)
     = (0, be32 x01 x02 x03 x00, mkFILE [] true).
Proof.
  apply (fread_short_read (mkFILE [x01; x02] false) (mkFILE [x01; x02; x03] false));
    cbn; lia.
Defined.

(** ** The object body: the remaining length never grows, and the loop ends *)

Lemma number_len (c : cursor) (r : Z * cursor) :
  parse_scriptdata_number c = Ret r -> len (snd r) <= len c.
Proof.
  unfold parse_scriptdata_number.
  destruct (len c <? 1); [intros [= <-]; cbn; lia|].
  destruct (SCRIPTDATA_NUMBER =? peek c 0); [|discriminate].
  cbn [assert bind advance len].
  destruct (len c - 1 <? 8); intros [= <-]; cbn; lia.
Qed.

Lemma boolean_len (c : cursor) (r : Z * cursor) :
  parse_scriptdata_boolean c = Ret r -> len (snd r) <= len c.
Proof.
  unfold parse_scriptdata_boolean.
  destruct (len c <? 1); [intros [= <-]; cbn; lia|].
  destruct (SCRIPTDATA_BOOLEAN =? peek c 0); [|discriminate].
  cbn [assert bind advance len].
  destruct (len c - 1 <? 1); intros [= <-]; cbn; lia.
Qed.

Lemma date_len (c : cursor) (r : Z * cursor) :
  parse_scriptdata_date c = Ret r -> len (snd r) <= len c.
Proof.
  unfold parse_scriptdata_date.
  destruct (len c <? 1); [intros [= <-]; cbn; lia|].
  destruct (SCRIPTDATA_DATE =? peek c 0); [|discriminate].
  cbn [assert bind advance len].
  destruct (len c - 1 <? 8); [intros [= <-]; cbn; lia|].
  destruct (len c - 1 - 8 <? 2); intros [= <-]; cbn; lia.
Qed.

Lemma to_uint16_nonneg (z : Z) : 0 <= to_uint16 z.
Proof. unfold to_uint16. apply Z.mod_pos_bound. reflexivity. Qed.

Lemma string_without_type_len (c : cursor) :
  len (snd (parse_scriptdata_string_without_type c)) <= len c.
Proof.
  unfold parse_scriptdata_string_without_type.
  destruct (len c <? 2); [cbn; lia|].
  set (n := to_uint16 _). pose proof (to_uint16_nonneg (Z.shiftl (peek c 0) 8 + peek c 1)).
  fold n in H.
  destruct (len (advance 2 c) <? n); cbn; lia.
Qed.

Lemma string_without_type_some (c c1 : cursor) (name : list byte) :
  parse_scriptdata_string_without_type c = (Some name, c1) ->
  len c1 <= len c - 2.
Proof.
  unfold parse_scriptdata_string_without_type.
  destruct (len c <? 2); [discriminate|].
  set (n := to_uint16 _). pose proof (to_uint16_nonneg (Z.shiftl (peek c 0) 8 + peek c 1)).
  fold n in H.
  destruct (len (advance 2 c) <? n); [discriminate|].
  intros [= _ <-]. cbn. lia.
Qed.

Lemma string_len (c : cursor) (r : option (list byte) * cursor) :
  parse_scriptdata_string c = Ret r -> len (snd r) <= len c.
Proof.
  unfold parse_scriptdata_string.
  destruct (len c <? 1); [intros [= <-]; cbn; lia|].
  destruct (SCRIPTDATA_STRING =? peek c 0); [|discriminate].
  cbn [assert bind]. intros [= <-].
  pose proof (string_without_type_len (advance 1 c)). cbn [advance len] in *. lia.
Qed.

Lemma strict_array_items_len (n : nat) (c c' : cursor) :
  strict_array_items n c = Ret c' -> len c' <= len c.
Proof.
  revert c. induction n as [|n IH]; intros c; cbn [strict_array_items].
  - intros [= <-]. lia.
  - destruct (parse_scriptdata_number c) as [r| | | |] eqn:E; try discriminate.
    cbn [bind]. intros H. apply IH in H. apply number_len in E. lia.
Qed.

Lemma strict_array_len (c : cursor) (r : Z * cursor) :
  parse_scriptdata_strict_array c = Ret r -> len (snd r) <= len c.
Proof.
  unfold parse_scriptdata_strict_array.
  destruct (len c <? 1); [intros [= <-]; cbn; lia|].
  destruct (SCRIPTDATA_STRICT_ARRAY =? peek c 0); [|discriminate].
  cbn [assert bind].
  destruct (len (advance 1 c) <? 4); [intros [= <-]; cbn; lia|].
  destruct (strict_array_items _ _) as [c2| | | |] eqn:E; try discriminate.
  cbn [bind]. intros [= <-]. apply strict_array_items_len in E.
  cbn [advance len snd] in *. lia.
Qed.

Lemma number_total (c : cursor) : returns_or_asserts (parse_scriptdata_number c).
Proof.
  unfold parse_scriptdata_number.
  destruct (len c <? 1); [exact I|].
  destruct (SCRIPTDATA_NUMBER =? peek c 0); [|exact I].
  cbn [assert bind]. destruct (len (advance 1 c) <? 8); exact I.
Qed.

Lemma boolean_total (c : cursor) : returns_or_asserts (parse_scriptdata_boolean c).
Proof.
  unfold parse_scriptdata_boolean.
  destruct (len c <? 1); [exact I|].
  destruct (SCRIPTDATA_BOOLEAN =? peek c 0); [|exact I].
  cbn [assert bind]. destruct (len (advance 1 c) <? 1); exact I.
Qed.

Lemma date_total (c : cursor) : returns_or_asserts (parse_scriptdata_date c).
Proof.
  unfold parse_scriptdata_date.
  destruct (len c <? 1); [exact I|].
  destruct (SCRIPTDATA_DATE =? peek c 0); [|exact I].
  cbn [assert bind]. destruct (len (advance 1 c) <? 8); [exact I|].
  destruct (len (advance 8 (advance 1 c)) <? 2); exact I.
Qed.

Lemma string_total (c : cursor) : returns_or_asserts (parse_scriptdata_string c).
Proof.
  unfold parse_scriptdata_string.
  destruct (len c <? 1); [exact I|].
  destruct (SCRIPTDATA_STRING =? peek c 0); exact I.
Qed.

Lemma strict_array_items_total (n : nat) (c : cursor) :
  returns_or_asserts (strict_array_items n c).
Proof.
  revert c. induction n as [|n IH]; intros c; cbn [strict_array_items]; [exact I|].
  pose proof (number_total c) as H.
  destruct (parse_scriptdata_number c); cbn [bind]; try exact H. apply IH.
Qed.

Lemma strict_array_total (c : cursor) :
  returns_or_asserts (parse_scriptdata_strict_array c).
Proof.
  unfold parse_scriptdata_strict_array.
  destruct (len c <? 1); [exact I|].
  destruct (SCRIPTDATA_STRICT_ARRAY =? peek c 0); [|exact I].
  cbn [assert bind]. destruct (len (advance 1 c) <? 4); [exact I|].
  match goal with |- context [strict_array_items ?n ?c] =>
    pose proof (strict_array_items_total n c) as H;
    destruct (strict_array_items n c) end; cbn [bind]; exact H.
Qed.

(** The switch read with tests in place of the cases. *)
Lemma property_switch_cases self property_name property_type c :
  property_switch self property_name property_type c =
  if property_type =? SCRIPTDATA_NUMBER then
    r <- parse_scriptdata_number c ;;
    Ret ([Property_number property_name (fst r)], snd r, true)
  else if property_type =? SCRIPTDATA_BOOLEAN then
    r <- parse_scriptdata_boolean c ;;
    Ret ([Property_boolean property_name (fst r)], snd r, true)
  else if property_type =? SCRIPTDATA_STRING then
    r <- parse_scriptdata_string c ;;
    Ret ([Property_string property_name (fst r)], snd r, true)
  else if property_type =? SCRIPTDATA_OBJECT then
    r <- self (advance 1 c) ;;
    Ret (Property_object property_name :: Begin_object :: fst r ++ [End_object],
         snd r, true)
  else if property_type =? SCRIPTDATA_STRICT_ARRAY then
    r <- parse_scriptdata_strict_array c ;;
    Ret ([Property_strict_array property_name (fst r)], snd r, true)
  else if property_type =? SCRIPTDATA_DATE then
    r <- parse_scriptdata_date c ;;
    Ret ([Property_date property_name (fst r)], snd r, true)
  else
    _ <- name_at scriptdata_value_type_names property_type ;;
    Ret ([Unknown_property property_name property_type], c, false).
Proof.
  destruct property_type as [|p|p]; try reflexivity.
  do 4 (try destruct p as [p|p|]; try reflexivity).
Qed.

Lemma property_switch_ends self property_name property_type c (k : Z) :
  (forall c', Z.max 0 (len c') < k -> ends_within (len c') (self c')) ->
  0 < k -> len c <= k ->
  switch_ends_within (len c) (property_switch self property_name property_type c).
Proof.
  intros Hself Hk0 Hk. rewrite property_switch_cases.
  destruct (property_type =? SCRIPTDATA_NUMBER).
  { pose proof (number_total c) as T. pose proof (number_len c) as L.
    destruct (parse_scriptdata_number c); cbn in *; auto. }
  destruct (property_type =? SCRIPTDATA_BOOLEAN).
  { pose proof (boolean_total c) as T. pose proof (boolean_len c) as L.
    destruct (parse_scriptdata_boolean c); cbn in *; auto. }
  destruct (property_type =? SCRIPTDATA_STRING).
  { pose proof (string_total c) as T. pose proof (string_len c) as L.
    destruct (parse_scriptdata_string c); cbn in *; auto. }
  destruct (property_type =? SCRIPTDATA_OBJECT).
  { specialize (Hself (advance 1 c)). cbn [advance len] in Hself.
    specialize (Hself ltac:(lia)).
    destruct (self (advance 1 c)) as [[ls c']| | | |]; cbn in *; auto. lia. }
  destruct (property_type =? SCRIPTDATA_STRICT_ARRAY).
  { pose proof (strict_array_total c) as T. pose proof (strict_array_len c) as L.
    destruct (parse_scriptdata_strict_array c); cbn in *; auto. }
  destruct (property_type =? SCRIPTDATA_DATE).
  { pose proof (date_total c) as T. pose proof (date_len c) as L.
    destruct (parse_scriptdata_date c); cbn in *; auto. }
  unfold name_at. destruct (_ && _); cbn; [lia|exact I].
Qed.

Lemma print_scriptdata_object_step (fuel : nat) (c : cursor) :
  print_scriptdata_object (S fuel) c =
  if len c >? 0 then
    match parse_scriptdata_string_without_type c with
    | (None, c1) => Ret ([], c1)
    | (Some property_name, c1) =>
        if len c1 <? 1 then Ret ([], c1) else
        if is_terminator property_name (peek c1 0) then
          Ret ([Property_end_marker], advance 1 c1)
        else
          r <- property_switch (print_scriptdata_object fuel)
                 property_name (peek c1 0) c1 ;;
          let '(lines, c2, again) := r in
          if again then
            r' <- print_scriptdata_object fuel c2 ;;
            Ret (lines ++ fst r', snd r')
          else Ret (lines, c2)
    end
  else Ret ([], c).
Proof. reflexivity. Qed.

(** With more steps than bytes the loop comes to its end: it returns, the
    remaining length not larger than before, an assertion fails, or the
    default case prints a name that the table does not have. *)
Lemma print_scriptdata_object_ends (fuel : nat) (c : cursor) :
  Z.max 0 (len c) < Z.of_nat fuel ->
  ends_within (len c) (print_scriptdata_object fuel c).
Proof.
  revert c. induction fuel as [|fuel IH]; intros c Hfuel; [lia|].
  rewrite print_scriptdata_object_step.
  destruct (Z.gtb_spec (len c) 0) as [Hpos|Hpos]; [|cbn; lia].
  pose proof (string_without_type_len c) as Hle.
  destruct (parse_scriptdata_string_without_type c) as [[property_name|] c1] eqn:E;
    cbn [snd] in Hle; [|cbn; lia].
  apply string_without_type_some in E.
  destruct (Z.ltb_spec (len c1) 1) as [H1|H1]; [cbn; lia|].
  destruct (is_terminator property_name (peek c1 0)); [cbn; lia|].
  pose proof (property_switch_ends (print_scriptdata_object fuel)
                property_name (peek c1 0) c1 (Z.of_nat fuel) IH
                ltac:(lia) ltac:(lia)) as Hs.
  destruct (property_switch _ _ _ _) as [[[lines c2] again]| | | |];
    cbn [bind switch_ends_within] in *; try exact Hs.
  destruct again; [|cbn; lia].
  specialize (IH c2 ltac:(lia)).
  destruct (print_scriptdata_object fuel c2) as [[ls c3]| | | |];
    cbn [bind ends_within fst snd] in *; try exact IH. lia.
Qed.

Lemma print_scriptdata_object_fuel (c : cursor) :
  ends_within (len c) (print_scriptdata_object (object_fuel (len c)) c).
Proof.
  apply print_scriptdata_object_ends. unfold object_fuel. lia.
Qed.

(** A result reached with some number of steps is the result with any larger
    number: the outcome does not depend on the fuel once there is enough. *)
Lemma property_switch_more (f g : cursor -> outcome (list line * cursor))
    property_name property_type c :
  (forall c', f c' <> OutOfFuel -> g c' = f c') ->
  property_switch f property_name property_type c <> OutOfFuel ->
  property_switch g property_name property_type c
  = property_switch f property_name property_type c.
Proof.
  intros Hfg. rewrite !property_switch_cases.
  repeat match goal with
  | |- context [if ?b then _ else _] => destruct b; try reflexivity
  end.
  intros H. rewrite Hfg; [reflexivity|].
  intros E. apply H. rewrite E. reflexivity.
Qed.

Lemma print_scriptdata_object_more_step (fuel : nat) (c : cursor) :
  print_scriptdata_object fuel c <> OutOfFuel ->
  print_scriptdata_object (S fuel) c = print_scriptdata_object fuel c.
Proof.
  revert c. induction fuel as [|fuel IH]; intros c H.
  - exfalso. apply H. reflexivity.
  - rewrite print_scriptdata_object_step in H.
    rewrite (print_scriptdata_object_step (S fuel)), (print_scriptdata_object_step fuel).
    destruct (len c >? 0); [|reflexivity].
    destruct (parse_scriptdata_string_without_type c) as [[property_name|] c1];
      [|reflexivity].
    destruct (len c1 <? 1); [reflexivity|].
    destruct (is_terminator property_name (peek c1 0)); [reflexivity|].
    assert (Hs : property_switch (print_scriptdata_object fuel)
                   property_name (peek c1 0) c1 <> OutOfFuel).
    { intros E. apply H. rewrite E. reflexivity. }
    rewrite (property_switch_more (print_scriptdata_object fuel)
               (print_scriptdata_object (S fuel))) by (exact IH || exact Hs).
    destruct (property_switch _ _ _ _) as [[[lines c2] again]| | | |];
      try reflexivity.
    cbn [bind] in *. destruct again; [|reflexivity].
    rewrite IH; [reflexivity|].
    intros E. apply H. rewrite E. reflexivity.
Qed.

Lemma print_scriptdata_object_more (fuel extra : nat) (c : cursor) :
  print_scriptdata_object fuel c <> OutOfFuel ->
  print_scriptdata_object (extra + fuel) c = print_scriptdata_object fuel c.
Proof.
  intros H. induction extra as [|extra IH]; [reflexivity|].
  cbn [Nat.add]. rewrite print_scriptdata_object_more_step; rewrite IH; auto.
Qed.

(** ** The object body: how the loop is left *)

Lemma property_switch_lines self property_name property_type c ls c2 again :
  property_switch self property_name property_type c = Ret (ls, c2, again) ->
  exists l rest, ls = l :: rest /\ l <> Property_end_marker.
Proof.
  rewrite property_switch_cases.
  repeat match goal with
  | |- context [if ?b then _ else _] => destruct b
  | |- context [bind ?m _] => destruct m; cbn [bind]; try discriminate
  end;
  intros [= <- _ _]; eexists; eexists; (split; [reflexivity|discriminate]).
Qed.

(** C1 (amended).  A round of the loop of [print_scriptdata_object] that can
    read a name and a type byte leaves through the terminator (the end-marker
    line is printed, the marker byte is consumed, the function returns)
    exactly when the name is empty and the type byte is 9; with an empty name
    and another type byte the property goes to the switch on the type.  The
    loop also ends with no terminator: when no byte is left, when the name
    cannot be read, when no type byte follows the name, and at a type byte
    without a case in the switch.  There a type byte up to 12 is reported as
    an unknown property and the function returns with the type byte not
    consumed; a type byte above 12 indexes the table of the names of the
    types outside its 13 entries, which is undefined behaviour. *)
Theorem object_loop_exits (fuel : nat) (c : cursor) :
  let r := print_scriptdata_object (S fuel) c in
  if len c >? 0 then
    match parse_scriptdata_string_without_type c with
    | (None, _) => r = Ret ([], c)
    | (Some property_name, c1) =>
        if len c1 <? 1 then r = Ret ([], c1) else
        let property_type := peek c1 0 in
        if name_is_empty property_name
           && (property_type =? SCRIPTDATA_OBJECT_END_MARKER)
        then r = Ret ([Property_end_marker], advance 1 c1)
        else
          first_line r <> Some Property_end_marker /\
          r = (s <- property_switch (print_scriptdata_object fuel)
                      property_name property_type c1 ;;
               if snd s
               then r' <- print_scriptdata_object fuel (snd (fst s)) ;;
                    Ret (fst (fst s) ++ fst r', snd r')
               else Ret (fst s)) /\
          (has_case property_type = false ->
           if property_type <? scriptdata_value_type_names
           then r = Ret ([Unknown_property property_name property_type], c1)
           else r = Undefined)
    end
  else r = Ret ([], c).
Proof.
  intros r. subst r. rewrite print_scriptdata_object_step.
  destruct (len c >? 0); [|reflexivity].
  unfold parse_scriptdata_string_without_type.
  destruct (len c <? 2); [reflexivity|].
  destruct (len (advance 2 c) <? _); [reflexivity|].
  match goal with |- context [if len ?cc <? 1 then _ else _] =>
    set (c1 := cc) end.
  destruct (len c1 <? 1); [reflexivity|].
  unfold is_terminator. cbv zeta.
  destruct (name_is_empty _ && _); [reflexivity|].
  rewrite <- and_assoc. split.
  - match goal with |- context [property_switch ?f ?n ?t ?c] =>
      destruct (property_switch f n t c) as [[[ls c2] again]| | | |] eqn:E end;
      cbn [bind fst snd first_line]; try (split; [discriminate|reflexivity]).
    apply property_switch_lines in E as (l & rest & -> & Hl).
    destruct again.
    + destruct (print_scriptdata_object fuel c2) as [[ls' c3]| | | |];
        cbn [bind fst snd first_line app]; (split; [|reflexivity]);
        try discriminate.
      intros [= H]. exact (Hl H).
    + cbn [first_line]. split; [|reflexivity]. intros [= H]. exact (Hl H).
  - intros Hcase. rewrite property_switch_cases.
    unfold has_case in Hcase. cbn [existsb] in Hcase.
    repeat (apply orb_false_elim in Hcase as [-> Hcase]).
    unfold name_at.
    assert (H0 : (0 <=? peek c1 0) = true).
    { apply Z.leb_le. unfold peek, byte_at. apply u8_range. }
    rewrite H0. cbn [andb].
    destruct (peek c1 0 <? scriptdata_value_type_names); reflexivity.
Qed.

(** C1, as claimed: the loop ends only at the terminator.  A body whose
    bytes run out after a property, and a body with a Null property, end the
    loop with no terminator read. *)
Lemma object_ends_without_terminator :
  print_scriptdata_object (object_fuel 5)
    (mkCursor [x00; x01; x61; x01; x01] 5)
  = Ret ([Property_boolean [x61] 1], mkCursor [] 0)
  /\
  print_scriptdata_object (object_fuel 4)
    (mkCursor [x00; x01; x61; x05] 4)
  = Ret ([Unknown_property [x61] 5], mkCursor [x05] 1).
Proof. split; reflexivity. Qed.

(** A Number whose name is empty is a property like any other; the
    terminator after it ends the loop. *)
Example empty_name_number_then_terminator :
  print_scriptdata_object (object_fuel 14)
    (mkCursor [x00; x00; x00; x40; x29; x00; x00; x00; x00; x00; x00;
               x00; x00; x09] 14)
  = Ret ([Property_number [] (hex2double [x40; x29; x00; x00; x00; x00; x00; x00]);
          Property_end_marker], mkCursor [] 0).
Proof. reflexivity. Qed.

(** A name of one NUL byte is empty as a C string: with the type byte 9 it
    ends the loop as the name of no bytes does. *)
Example nul_name_is_terminator :
  print_scriptdata_object (object_fuel 5)
    (mkCursor [x00; x01; x00; x09; x07] 5)
  = Ret ([Property_end_marker], mkCursor [x07] 1).
Proof. reflexivity. Qed.

(** A type byte above 12 has no name in the table the default case prints
    from. *)
Example type_without_name_is_undefined :
  print_scriptdata_object (object_fuel 6)
    (mkCursor [x00; x01; x61; x44; x00; x00] 6)
  = Undefined.
Proof. reflexivity. Qed.

(** ** A whole body: Number properties and the terminator *)

Lemma string_without_type_name (hi lo : byte) (name rest : list byte) (l : Z) :
  Z.of_nat (length name) = u8 hi * 256 + u8 lo ->
  2 + Z.of_nat (length name) <= l ->
  parse_scriptdata_string_without_type (mkCursor (hi :: lo :: name ++ rest) l)
  = (Some name, mkCursor rest (l - 2 - Z.of_nat (length name))).
Proof.
  intros Hname Hl. unfold parse_scriptdata_string_without_type.
  cbn [len]. destruct (Z.ltb_spec l 2); [lia|].
  change (peek (mkCursor (hi :: lo :: name ++ rest) l) 0) with (u8 hi).
  change (peek (mkCursor (hi :: lo :: name ++ rest) l) 1) with (u8 lo).
  assert (Hlen : to_uint16 (Z.shiftl (u8 hi) 8 + u8 lo) = Z.of_nat (length name)).
  { unfold to_uint16. rewrite Z.shiftl_mul_pow2 by lia.
    pose proof (u8_range hi). pose proof (u8_range lo).
    rewrite Z.mod_small; lia. }
  rewrite Hlen.
  change (hi :: lo :: name ++ rest) with ([hi; lo] ++ name ++ rest).
  rewrite advance_app by reflexivity.
  cbn [len data]. destruct (Z.ltb_spec (l - 2) (Z.of_nat (length name))); [lia|].
  rewrite Nat2Z.id, firstn_app, Nat.sub_diag, firstn_all, firstn_O, app_nil_r.
  rewrite advance_app by reflexivity. reflexivity.
Qed.

Lemma hex2double_app (num rest : list byte) :
  length num = 8%nat -> hex2double (num ++ rest) = hex2double num.
Proof.
  intros H.
  do 8 (destruct num as [|? num]; [discriminate|]).
  destruct num; [reflexivity|discriminate].
Qed.

Lemma length_property_bytes (p : number_property) :
  well_formed p ->
  Z.of_nat (length (property_bytes p)) = 2 + Z.of_nat (length (prop_name p)) + 9.
Proof.
  intros [_ Hnum]. unfold property_bytes.
  cbn [length]. rewrite length_app. cbn [length]. rewrite Hnum. lia.
Qed.

(** A body of well-formed Number properties, whatever their names, followed
    by the terminator is decoded property by property up to the terminator
    and not beyond: the lines are those of the properties and the end-marker
    line, and the cursor is left behind the marker byte. *)
Lemma number_properties_then_terminator
    (props : list number_property) (tail : list byte) (l : Z) (fuel : nat) :
  Forall well_formed props ->
  Z.of_nat (length (flat_map property_bytes props)) + 3 <= l ->
  (length props < fuel)%nat ->
  print_scriptdata_object fuel
    (mkCursor (flat_map property_bytes props ++ x00 :: x00 :: x09 :: tail) l)
  = Ret (map property_line props ++ [Property_end_marker],
         mkCursor tail
           (l - (Z.of_nat (length (flat_map property_bytes props)) + 3))).
Proof.
  revert l fuel. induction props as [|p props IH]; intros l fuel Hwf Hl Hfuel.
  - destruct fuel as [|fuel]; [cbn in Hfuel; lia|].
    cbn [flat_map app length map] in *.
    rewrite print_scriptdata_object_step. cbn [len].
    destruct (Z.gtb_spec l 0); [|lia].
    change (x00 :: x00 :: x09 :: tail) with (x00 :: x00 :: [] ++ x09 :: tail).
    rewrite string_without_type_name by (cbn; lia).
    cbn [length len]. destruct (Z.ltb_spec (l - 2 - Z.of_nat 0) 1); [lia|].
    change (is_terminator [] (peek (mkCursor (x09 :: tail) (l - 2 - Z.of_nat 0)) 0))
      with true.
    cbv iota. rewrite advance_cons. do 2 f_equal. f_equal. lia.
  - destruct fuel as [|fuel]; [cbn in Hfuel; lia|].
    inversion Hwf as [|? ? Hp Hps]; subst.
    pose proof (length_property_bytes p Hp) as Hlp.
    destruct Hp as [Hname Hnum].
    cbn [flat_map map length] in *. rewrite length_app in Hl.
    rewrite Nat2Z.inj_add in Hl.
    rewrite print_scriptdata_object_step. cbn [len].
    destruct (Z.gtb_spec l 0); [|lia].
    rewrite <- app_assoc. unfold property_bytes at 1.
    rewrite <- !app_comm_cons, <- app_assoc.
    rewrite string_without_type_name by lia.
    set (l1 := l - 2 - Z.of_nat (length (prop_name p))).
    cbn [len]. destruct (Z.ltb_spec l1 1); [lia|].
    rewrite <- app_comm_cons.
    change (peek (mkCursor (x00 :: _) l1) 0) with 0.
    unfold is_terminator. rewrite andb_false_r.
    cbn [property_switch].
    rewrite parse_number_item by (try reflexivity; try assumption; lia).
    cbn [bind fst snd].
    rewrite hex2double_app by assumption.
    rewrite IH by (try assumption; lia).
    cbn [bind fst snd app]. unfold property_line at 2.
    do 2 f_equal. f_equal. rewrite length_app, Nat2Z.inj_add. lia.
Qed.

(** ** The tag header *)

Lemma flv_read_tag_header (u p0 p1 p2 p3 ty s0 s1 s2 t0 t1 t2 ext i0 i1 i2 : byte)
    (payload : list byte) (out : list line) :
  flv_read_tag u
    (mkWorld (mkFILE (p0 :: p1 :: p2 :: p3 :: ty :: s0 :: s1 :: s2 ::
                      t0 :: t1 :: t2 :: ext :: i0 :: i1 :: i2 :: payload) false)
             out)
  = tag_switch u
      (mkTag (u8 ty) (be24 s0 s1 s2) (be24 t0 t1 t2) (u8 ext) (be24 i0 i1 i2) None)
      (mkWorld (mkFILE payload false) out).
Proof.
  unfold flv_read_tag. cbn [g_infile].
  rewrite fread_4_cons, fread_1_cons. cbn [at_eof].
  rewrite !fread_3_cons, fread_1_cons, fread_3_cons. reflexivity.
Qed.

Lemma tag_switch_unknown (u : byte) (tag : flv_tag_t) (w : world) :
  tag_type tag <> TAGTYPE_AUDIODATA ->
  tag_type tag <> TAGTYPE_VIDEODATA ->
  tag_type tag <> TAGTYPE_SCRIPTDATAOBJECT ->
  tag_switch u tag w = Exited (-1).
Proof.
  unfold tag_switch, TAGTYPE_AUDIODATA, TAGTYPE_VIDEODATA, TAGTYPE_SCRIPTDATAOBJECT.
  intros H8 H9 H18.
  destruct (tag_type tag) as [|p|p]; try reflexivity.
  do 5 (try destruct p as [p|p|]; try reflexivity; try congruence).
Qed.

(** C4 (amended).  When the byte read as the tag type is not 8, 9 or 18,
    [flv_read_tag] does not return: it ends the process through [die], with
    [exit(-1)]. *)
Theorem unknown_tag_type_exits (u p0 p1 p2 p3 ty : byte)
    (rest : list byte) (out : list line) :
  u8 ty <> TAGTYPE_AUDIODATA ->
  u8 ty <> TAGTYPE_VIDEODATA ->
  u8 ty <> TAGTYPE_SCRIPTDATAOBJECT ->
  flv_read_tag u
    (mkWorld (mkFILE (p0 :: p1 :: p2 :: p3 :: ty :: rest) false) out)
  = Exited (-1).
Proof.
  intros H8 H9 H18. unfold flv_read_tag. cbn [g_infile].
  rewrite fread_4_cons, fread_1_cons. cbn [at_eof].
  destruct (fread_3 (mkFILE rest false)) as [[n1 size] f3].
  destruct (fread_3 f3) as [[n2 ts] f4].
  destruct (fread_1 u f4) as [[n3 ext] f5].
  destruct (fread_3 f5) as [[n4 sid] f6].
  apply tag_switch_unknown; assumption.
Qed.

Lemma unknown_tag_type_exits_witness :
  flv_read_tag x00
    (mkWorld (mkFILE [x00; x00; x00; x00; x07; x00; x00; x01; x00; x00; x00;
                      x00; x00; x00; x00; x2a] false) [])
  = Exited (-1).
Proof.
  apply unknown_tag_type_exits; vm_compute; discriminate.
Defined.

(** C4, as claimed: an error value is returned.  A tag of type 7 ends the
    process. *)
Lemma unknown_tag_type_is_not_returned :
  flv_read_tag x00
    (stream [x00; x00; x00; x00; x07; x00; x00; x01; x00; x00; x00;
             x00; x00; x00; x00; x2a])
  = Exited (-1)
  /\ forall r, flv_read_tag x00
      (stream [x00; x00; x00; x00; x07; x00; x00; x01; x00; x00; x00;
               x00; x00; x00; x00; x2a]) <> Ret r.
Proof.
  split; [reflexivity|]. intros r. vm_compute. discriminate.
Qed.

Lemma tag_switch_header (u : byte) (tag tag' : flv_tag_t) (w w' : world) :
  tag_switch u tag w = Ret (Some tag', w') ->
  tag_type tag' = tag_type tag /\ data_size tag' = data_size tag /\
  timestamp tag' = timestamp tag /\ timestamp_ext tag' = timestamp_ext tag /\
  stream_id tag' = stream_id tag.
Proof.
  unfold tag_switch.
  destruct (tag_type tag) as [|p|p]; try discriminate.
  do 5 (try destruct p as [p|p|]; try discriminate).
  all: cbv beta iota zeta;
    try match goal with
    | |- context [bind ?m _] =>
        destruct m as [[? ?]| | | |]; cbn [bind fst snd]; try discriminate
    end;
    intros H; injection H as <- _; cbn; auto.
Qed.

(** An audio payload is read whatever the stream holds, unless it declares
    the one byte that an AAC packet type follows. *)
Lemma read_audio_tag_returns (tag : flv_tag_t) (w : world) :
  0 <= data_size tag < 2 ^ 32 -> data_size tag <> 1 ->
  exists a w', read_audio_tag tag w = Ret (a, w').
Proof.
  intros Hrange H1. unfold read_audio_tag.
  destruct (Z.eqb_spec (data_size tag) 0) as [_|H0]; [eexists; eexists; reflexivity|].
  pose proof (fread_1_count x00 (g_infile w)) as Hc.
  destruct (fread_1 x00 (g_infile w)) as [[count byte] f1]. cbn [fst] in Hc.
  destruct (flv_get_bits (u8 byte) 4 4 =? 10).
  - pose proof (fread_1_count byte f1) as Hn.
    destruct (fread_1 byte f1) as [[n byte'] f2]. cbn [fst] in Hn.
    rewrite malloc_fread_fits by lia. cbn [bind].
    destruct (fread 1 _ _) as [[buf k] f3]. eexists. eexists. reflexivity.
  - rewrite malloc_fread_fits by lia. cbn [bind].
    destruct (fread 1 _ _) as [[buf k] f3]. eexists. eexists. reflexivity.
Qed.

Lemma tag_switch_audio (u : byte) (tag : flv_tag_t) (w : world) :
  tag_type tag = TAGTYPE_AUDIODATA ->
  0 <= data_size tag < 2 ^ 32 -> data_size tag <> 1 ->
  exists tag' w', tag_switch u tag w = Ret (Some tag', w').
Proof.
  intros H Hrange H1. unfold tag_switch. rewrite H.
  change (match TAGTYPE_AUDIODATA with 8 => ?a | _ => _ end) with a.
  cbv beta zeta.
  destruct (read_audio_tag_returns tag w Hrange H1) as (a & w1 & ->).
  eexists. eexists. reflexivity.
Qed.

(** C6 (amended).  The tag keeps the 24-bit timestamp and the extension byte
    in two fields, [timestamp] (below 2^24) and [timestamp_ext], as they are
    in the header; they are not combined.  An audio tag that does not
    declare a payload of exactly one byte is returned whatever follows its
    header. *)
Theorem timestamp_fields (u p0 p1 p2 p3 ty s0 s1 s2 t0 t1 t2 ext i0 i1 i2 : byte)
    (payload : list byte) (out : list line) :
  let r := flv_read_tag u
    (mkWorld (mkFILE (p0 :: p1 :: p2 :: p3 :: ty :: s0 :: s1 :: s2 ::
                      t0 :: t1 :: t2 :: ext :: i0 :: i1 :: i2 :: payload) false)
             out) in
  (forall tag w', r = Ret (Some tag, w') ->
     timestamp tag = be24 t0 t1 t2 /\ 0 <= timestamp tag < 2 ^ 24 /\
     timestamp_ext tag = u8 ext)
  /\
  (u8 ty = TAGTYPE_AUDIODATA -> be24 s0 s1 s2 <> 1 ->
   exists tag w', r = Ret (Some tag, w')).
Proof.
  intros r. subst r. rewrite flv_read_tag_header. split.
  - intros tag w' H. apply tag_switch_header in H as (_ & _ & Hts & Hext & _).
    cbn [timestamp timestamp_ext] in *. rewrite Hts, Hext.
    pose proof (be24_range t0 t1 t2). auto.
  - intros H H1. pose proof (be24_range s0 s1 s2).
    apply tag_switch_audio; cbn [tag_type data_size]; auto. lia.
Qed.

(** C6, as claimed: one timestamp [(ext << 24) | timestamp].  With the
    extension byte 1 the field [timestamp] holds the 24 bits alone. *)
Lemma timestamp_not_combined :
  exists tag w',
    flv_read_tag x00
      (stream [x00; x00; x00; x00; x08; x00; x00; x00; x00; x00; x05;
               x01; x00; x00; x00])
    = Ret (Some tag, w')
    /\ timestamp tag = 5 /\ timestamp_ext tag = 1
    /\ Z.lor (Z.shiftl (timestamp_ext tag) 24) (timestamp tag) = 16777221
    /\ timestamp tag <> Z.lor (Z.shiftl (timestamp_ext tag) 24) (timestamp tag).
Proof.
  eexists. eexists. split; [reflexivity|]. cbn. repeat split. discriminate.
Qed.

(** C2, as claimed: a short read fails and stores no value made of zero
    bytes.  At the end of the stream [fread_3] and [fread_4] store 0, and a
    header that ends before the stream id gives a tag whose stream id is the
    0 of the array that was not filled. *)
Lemma short_read_is_zero_filled :
  fread_3 (mkFILE [] false) = (0, 0, mkFILE [] true)
  /\ fread_4 (mkFILE [] false) = (0, 0, mkFILE [] true)
  /\ flv_read_tag x00
       (stream [x00; x00; x00; x00; x08; x00; x00; x00; x00; x00; x00; x00])
     = Ret (Some (mkTag 8 0 0 0 0 None), mkWorld (mkFILE [] true) []).
Proof. repeat split. Qed.

(** ** Audio and video payloads *)

Lemma flv_get_bits_7_4 (b : byte) : flv_get_bits (u8 b) 4 4 = bits (u8 b) 7 4.
Proof. destruct b; reflexivity. Qed.

Lemma flv_get_bits_3_2 (b : byte) : flv_get_bits (u8 b) 2 2 = bits (u8 b) 3 2.
Proof. destruct b; reflexivity. Qed.

Lemma flv_get_bits_1_1 (b : byte) : flv_get_bits (u8 b) 1 1 = bits (u8 b) 1 1.
Proof. destruct b; reflexivity. Qed.

Lemma flv_get_bits_0_0 (b : byte) : flv_get_bits (u8 b) 0 1 = bits (u8 b) 0 0.
Proof. destruct b; reflexivity. Qed.

Lemma flv_get_bits_3_0 (b : byte) : flv_get_bits (u8 b) 0 4 = bits (u8 b) 3 0.
Proof. destruct b; reflexivity. Qed.

(** The four fields of the first byte of an audio payload have a name in
    their tables. *)
Lemma sound_fields_in_tables (b : byte) :
  name_at sound_formats (flv_get_bits (u8 b) 4 4) = Ret tt
  /\ name_at sound_rates (flv_get_bits (u8 b) 2 2) = Ret tt
  /\ name_at sound_sizes (flv_get_bits (u8 b) 1 1) = Ret tt
  /\ name_at sound_types (flv_get_bits (u8 b) 0 1) = Ret tt.
Proof.
  rewrite flv_get_bits_7_4, flv_get_bits_3_2, flv_get_bits_1_1, flv_get_bits_0_0.
  repeat split; apply name_at_inside; apply bits_range; lia.
Qed.




(** The AVC packet: what is read before the data. *)
Lemma avc_frame_type_5 (u : byte) (size : Z) (w : world) :
  read_avc_video_tag u 5 size w = AssertFailed.
Proof.
  unfold read_avc_video_tag.
  destruct (fread_1 u (g_infile w)) as [[count b] f1].
  destruct (u8 b =? 1).
  - destruct (fread_3 f1) as [[n v] f]. reflexivity.
  - reflexivity.
Qed.

(** C7 (amended).  In an AVC packet of a frame type other than 5 whose
    declared size counts the bytes read before the data, the packet type 1
    is followed by a 24-bit composition time, kept as the unsigned number
    its three bytes make (from 0 to 2^24 - 1, no sign extension), and by the
    32-bit length of the first NALU; with the packet type 0 or 2 the
    composition time and the length are 0 and the data start right after
    the packet type.  A packet type above 2 has no name in the table
    [avc_packet_types]: printing it is undefined behaviour. *)
Theorem avc_packet (u : byte) (video_frame_type size : Z) (p : byte)
    (rest : list byte) (out : list line) :
  video_frame_type <> 5 ->
  0 <= size < 2 ^ 32 ->
  let w := mkWorld (mkFILE (p :: rest) false) out in
  (u8 p = 1 -> forall (c0 c1 c2 n0 n1 n2 n3 : byte) (body : list byte),
   rest = c0 :: c1 :: c2 :: n0 :: n1 :: n2 :: n3 :: body ->
   8 <= size ->
   0 <= be24 c0 c1 c2 < 2 ^ 24 /\
   read_avc_video_tag u video_frame_type size w =
   let '(buf, _, f') := fread 1 (size - 8) (mkFILE body false) in
   Ret (mkAvc 1 (be24 c0 c1 c2) (be32 n0 n1 n2 n3) buf, mkWorld f' out))
  /\
  (u8 p = 0 \/ u8 p = 2 -> 1 <= size ->
   read_avc_video_tag u video_frame_type size w =
   let '(buf, _, f') := fread 1 (size - 1) (mkFILE rest false) in
   Ret (mkAvc (u8 p) 0 0 buf, mkWorld f' out))
  /\
  (avc_packet_types <= u8 p ->
   read_avc_video_tag u video_frame_type size w = Undefined).
Proof.
  intros Hframe Hsize w. subst w. unfold read_avc_video_tag. cbn [g_infile].
  rewrite fread_1_cons.
  destruct (Z.eqb_spec video_frame_type 5) as [E|_]; [contradiction|].
  split; [|split].
  - intros Hp c0 c1 c2 n0 n1 n2 n3 body -> H8. split; [apply be24_range|].
    rewrite Hp. cbn [Z.eqb Pos.eqb].
    rewrite fread_3_cons. cbn [negb assert bind].
    rewrite fread_4_cons. change (1 + 3 + 4) with 8.
    rewrite name_at_inside by (unfold avc_packet_types; lia).
    rewrite malloc_fread_fits by lia. cbn [bind].
    destruct (fread 1 _ _) as [[buf count] f']. reflexivity.
  - intros Hp H1.
    destruct (Z.eqb_spec (u8 p) 1) as [E|_]; [lia|].
    cbn [negb assert bind].
    rewrite name_at_inside by (unfold avc_packet_types; lia).
    destruct (u8 p =? 0); rewrite malloc_fread_fits by lia; cbn [bind];
      destruct (fread 1 _ _) as [[buf count] f']; reflexivity.
  - unfold avc_packet_types. intros Hp.
    destruct (Z.eqb_spec (u8 p) 1) as [E|_]; [lia|].
    cbn [negb assert bind].
    rewrite name_at_outside by (unfold avc_packet_types; lia).
    destruct (u8 p =? 0); reflexivity.
Qed.

Lemma avc_packet_witness :
  0 <= be24 x00 x00 x28 < 2 ^ 24 /\
  read_avc_video_tag x00 1 10 (mkWorld (mkFILE
    [x01; x00; x00; x28; x00; x00; x00; x02; x65; x88] false) [])
  = Ret (mkAvc 1 40 2 [x65; x88], mkWorld (mkFILE [] false) []).
Proof.
  pose proof (avc_packet x00 1 10 x01
                [x00; x00; x28; x00; x00; x00; x02; x65; x88] []
                ltac:(discriminate) ltac:(lia)) as H.
  cbv zeta in H. destruct H as [H _].
  exact (H eq_refl x00 x00 x28 x00 x00 x00 x02 [x65; x88] eq_refl ltac:(lia)).
Defined.

(** C7, as claimed: the composition time is sign-extended.  The bytes
    FF FF FF, which are -1 as a signed 24-bit number, give 16777215. *)
Lemma composition_time_not_sign_extended :
  exists tag w',
    read_avc_video_tag x00 1 9 (stream
      [x01; xff; xff; xff; x00; x00; x00; x01; x65])
    = Ret (tag, w')
    /\ composition_time tag = 16777215
    /\ sign_extend_24 (be24 xff xff xff) = -1
    /\ composition_time tag <> sign_extend_24 (be24 xff xff xff).
Proof.
  eexists. eexists. split; [reflexivity|]. cbn. repeat split. discriminate.
Qed.

(** C8 (amended).  A video payload of frame type 5 stops on the assertion
    of the AVC reader when its codec id is 7; with a codec id below 7 it is
    read like every other frame, its bytes taken as they are.  A codec id
    above 7 has no name in the table [codec_ids]: printing it is undefined
    behaviour. *)
Theorem frame_type_5 (u : byte) (flv_tag : flv_tag_t) (b : byte)
    (rest : list byte) (out : list line) :
  data_size flv_tag <> 0 ->
  bits (u8 b) 7 4 = 5 ->
  let w := mkWorld (mkFILE (b :: rest) false) out in
  (bits (u8 b) 3 0 = FLV_CODEC_ID_AVC ->
   read_video_tag u flv_tag w = AssertFailed)
  /\
  (bits (u8 b) 3 0 < FLV_CODEC_ID_AVC -> 0 < data_size flv_tag < 2 ^ 32 ->
   read_video_tag u flv_tag w =
   let '(buf, _, f') := fread 1 (data_size flv_tag - 1) (mkFILE rest false) in
   Ret (Some (mkVideo 5 (bits (u8 b) 3 0) (Video_raw buf)), mkWorld f' out))
  /\
  (codec_ids <= bits (u8 b) 3 0 -> read_video_tag u flv_tag w = Undefined).
Proof.
  intros Hsize Hframe w. subst w. unfold read_video_tag.
  destruct (Z.eqb_spec (data_size flv_tag) 0) as [E|_]; [contradiction|].
  cbn [g_infile]. rewrite fread_1_cons.
  rewrite flv_get_bits_7_4, flv_get_bits_3_0, Hframe.
  rewrite (name_at_inside frame_types 5) by (unfold frame_types; lia).
  cbn [bind]. pose proof (bits_range (u8 b) 3 0 ltac:(lia)) as Hc0.
  unfold FLV_CODEC_ID_AVC, codec_ids in *.
  split; [|split].
  - intros Hc. rewrite Hc. cbn [name_at Z.leb Z.ltb Z.compare Pos.compare
      Pos.compare_cont andb bind Z.eqb Pos.eqb].
    rewrite avc_frame_type_5. reflexivity.
  - intros Hc Hs.
    rewrite name_at_inside by lia. cbn [bind].
    destruct (Z.eqb_spec (bits (u8 b) 3 0) 7) as [E|_]; [lia|].
    rewrite malloc_fread_fits by lia. cbn [bind].
    destruct (fread 1 _ _) as [[buf count] f']. reflexivity.
  - intros Hc. rewrite name_at_outside by lia. reflexivity.
Qed.

Lemma frame_type_5_witness :
  read_video_tag x00 (mkTag 9 2 0 0 0 None)
    (mkWorld (mkFILE [x57; x00] false) [])
  = AssertFailed.
Proof.
  pose proof (frame_type_5 x00 (mkTag 9 2 0 0 0 None) x57 [x00] []
                ltac:(discriminate) eq_refl) as H.
  cbv zeta in H. destruct H as [H _].
  exact (H eq_refl).
Defined.

(** C8, as claimed: frame type 5 fails with every codec id.  With the codec
    id 2 the payload is read and the tag returned. *)
Lemma frame_type_5_is_read_when_not_avc :
  flv_read_tag x00
    (stream [x00; x00; x00; x00; x09; x00; x00; x02; x00; x00; x00;
             x00; x00; x00; x00; x52; x01])
  = Ret (Some (mkTag 9 2 0 0 0
                 (Some (Video_data (mkVideo 5 2 (Video_raw [x01]))))),
         mkWorld (mkFILE [] false) []).
Proof. reflexivity. Qed.
(** ** The payload and its declared size *)

Lemma fread_exact (n : Z) (xs rest : list byte) (e : bool) :
  Z.of_nat (length xs) = n ->
  fread 1 n (mkFILE (xs ++ rest) e) = (xs, n, mkFILE rest e).
Proof.
  intros H. apply fread_prefix. lia.
Qed.

(** [malloc] and [fread] of the bytes that a payload still holds. *)
Lemma malloc_fread_exact (n : Z) (xs rest : list byte) (e : bool) :
  Z.of_nat (length xs) = n -> n < 2 ^ 32 ->
  malloc_fread n (mkFILE (xs ++ rest) e) = Ret (xs, n, mkFILE rest e).
Proof.
  intros H Hn. rewrite malloc_fread_fits by lia.
  rewrite fread_exact by exact H. reflexivity.
Qed.





Lemma ecma_array_raw_total (c : cursor) :
  returns_or_asserts (parse_scriptdata_ECMA_array_raw c).
Proof.
  unfold parse_scriptdata_ECMA_array_raw.
  destruct (len c <? 1); [exact I|].
  destruct (SCRIPTDATA_ECMA_ARRAY =? peek c 0); [|exact I].
  cbn [assert bind]. destruct (len (advance 1 c) <? 4); exact I.
Qed.

(** The buffer of a script-data payload that the stream holds whole is the
    payload. *)
Lemma stored_whole (u : byte) (payload : list byte) (n : Z) :
  Z.of_nat (length payload) = n ->
  stored payload (repeat u (Z.to_nat n)) = payload.
Proof.
  intros H. unfold stored. rewrite skipn_all2; [apply app_nil_r|].
  rewrite repeat_length. lia.
Qed.


(** ** Numbers and their bytes *)

Lemma lor_shiftl_add (hi lo k : Z) :
  0 <= k -> 0 <= lo < 2 ^ k ->
  Z.lor (Z.shiftl hi k) lo = hi * 2 ^ k + lo.
Proof.
  intros Hk Hlo.
  assert (Hland : Z.land (Z.shiftl hi k) lo = 0).
  { apply Z.bits_inj'. intros n Hn.
    rewrite Z.land_spec, Z.bits_0.
    destruct (Z.ltb_spec n k) as [Hlt|Hge].
    - rewrite Z.shiftl_spec_low by assumption. reflexivity.
    - rewrite andb_comm.
      destruct (Z.eq_dec lo 0) as [->|Hne]; [rewrite Z.bits_0; reflexivity|].
      rewrite Z.bits_above_log2; [reflexivity|lia|].
      assert (Z.log2 lo < k) by (apply Z.log2_lt_pow2; lia). lia. }
  rewrite <- Z.lxor_lor by exact Hland.
  rewrite <- Z.add_nocarry_lxor by exact Hland.
  rewrite Z.shiftl_mul_pow2 by exact Hk. reflexivity.
Qed.

Lemma be24_value (b0 b1 b2 : byte) : be24 b0 b1 b2 = be_value [b0; b1; b2].
Proof.
  unfold be24, be_value. cbn [fold_left].
  pose proof (u8_range b0). pose proof (u8_range b1). pose proof (u8_range b2).
  rewrite !Z.shiftl_mul_pow2 by lia.
  rewrite <- (Z.shiftl_mul_pow2 (u8 b1) 8) by lia.
  replace (u8 b0 * 2 ^ 16) with (u8 b0 * 2 ^ 8 * 2 ^ 8) by lia.
  rewrite <- (Z.shiftl_mul_pow2 (u8 b0 * 2 ^ 8) 8) by lia.
  rewrite <- Z.shiftl_lor.
  rewrite (lor_shiftl_add _ (u8 b2) 8) by lia.
  rewrite <- (Z.shiftl_mul_pow2 (u8 b0) 8) by lia.
  rewrite (lor_shiftl_add _ (u8 b1) 8) by lia.
  lia.
Qed.

Lemma be32_value (b0 b1 b2 b3 : byte) : be32 b0 b1 b2 b3 = be_value [b0; b1; b2; b3].
Proof.
  assert (E : be32 b0 b1 b2 b3 = Z.lor (Z.shiftl (be24 b0 b1 b2) 8) (u8 b3)).
  { unfold be32, be24. rewrite !Z.shiftl_lor, !Z.shiftl_shiftl by lia.
    reflexivity. }
  rewrite E, be24_value.
  pose proof (u8_range b3).
  rewrite lor_shiftl_add by lia.
  unfold be_value. cbn [fold_left]. lia.
Qed.

Lemma be_value_app (l : list byte) (b : byte) :
  be_value (l ++ [b]) = be_value l * 256 + u8 b.
Proof. unfold be_value. rewrite fold_left_app. reflexivity. Qed.

Lemma be_value_range (l : list byte) :
  0 <= be_value l < 256 ^ Z.of_nat (length l).
Proof.
  induction l as [|b l IH] using rev_ind.
  - cbn. lia.
  - rewrite be_value_app, length_app. cbn [length].
    rewrite Nat2Z.inj_add, Z.pow_add_r by lia.
    pose proof (u8_range b). change (256 ^ Z.of_nat 1) with 256. nia.
Qed.

Lemma hex2double_value (b0 b1 b2 b3 b4 b5 b6 b7 : byte) (rest : list byte) :
  hex2double (b0 :: b1 :: b2 :: b3 :: b4 :: b5 :: b6 :: b7 :: rest)
  = be_value [b0; b1; b2; b3; b4; b5; b6; b7].
Proof.
  unfold hex2double, byte_at. cbn [nth].
  fold (be32 b0 b1 b2 b3). fold (be32 b4 b5 b6 b7).
  rewrite !to_uint32_be32.
  pose proof (be32_range b4 b5 b6 b7).
  rewrite lor_shiftl_add by lia.
  rewrite !be32_value. unfold be_value. cbn [fold_left]. lia.
Qed.

Lemma u8_byte_of (z : Z) : 0 <= z < 256 -> u8 (byte_of z) = z.
Proof.
  intros Hz. unfold u8, byte_of.
  destruct (Byte.of_N (Z.to_N z)) as [b|] eqn:E.
  - apply Byte.to_of_N in E. rewrite E. lia.
  - pose proof (Byte.to_of_N_option_map (Z.to_N z)) as H.
    rewrite E in H. cbn [option_map] in H.
    destruct (N.leb_spec (Z.to_N z) 255); [discriminate|lia].
Qed.

Lemma length_encode_be (n : nat) (v : Z) : length (encode_be n v) = n.
Proof.
  revert v. induction n as [|n IH]; intros v; cbn [encode_be]; [reflexivity|].
  rewrite length_app, IH. cbn. lia.
Qed.

Lemma be_value_encode_be (n : nat) (v : Z) :
  0 <= v < 256 ^ Z.of_nat n -> be_value (encode_be n v) = v.
Proof.
  revert v. induction n as [|n IH]; intros v Hv.
  - cbn in *. lia.
  - cbn [encode_be]. rewrite be_value_app.
    rewrite Nat2Z.inj_succ, Z.pow_succ_r in Hv by lia.
    rewrite IH.
    + rewrite u8_byte_of by (apply Z.mod_pos_bound; lia).
      pose proof (Z.div_mod v 256). lia.
    + split; [apply Z.div_pos; lia|].
      apply Z.div_lt_upper_bound; lia.
Qed.

(** ** Bit fields and big-endian reads *)

(** X1.  [flv_get_bits value start_bit count] is the field of [count] bits
    of [value] that starts at bit [start_bit], for every field that lies
    within the eight bits. *)
Theorem flv_get_bits_field (value start_bit count : Z) :
  0 <= start_bit -> 0 <= count -> start_bit + count <= 8 ->
  flv_get_bits value start_bit count = (value / 2 ^ start_bit) mod 2 ^ count.
Proof.
  intros Hs Hc Hsum. unfold flv_get_bits, to_uint8.
  assert (Hmask : 0 <= Z.shiftl (Z.shiftl 1 count - 1) start_bit < 2 ^ 8).
  { rewrite !Z.shiftl_mul_pow2 by lia.
    assert (0 < 2 ^ count) by (apply Z.pow_pos_nonneg; lia).
    assert (0 < 2 ^ start_bit) by (apply Z.pow_pos_nonneg; lia).
    assert (2 ^ (start_bit + count) <= 2 ^ 8) by (apply Z.pow_le_mono_r; lia).
    rewrite Z.pow_add_r in * by lia. nia. }
  rewrite Z.mod_small by exact Hmask.
  rewrite Z.shiftr_land, Z.shiftr_shiftl_l by lia.
  rewrite Z.sub_diag, Z.shiftl_0_r.
  replace (Z.shiftl 1 count - 1) with (Z.ones count)
    by (rewrite Z.ones_equiv, Z.shiftl_mul_pow2 by lia; lia).
  rewrite Z.land_comm, Z.land_ones by lia.
  rewrite Z.shiftr_div_pow2 by lia. reflexivity.
Qed.

Lemma flv_get_bits_field_witness :
  flv_get_bits 175 2 2 = (175 / 2 ^ 2) mod 2 ^ 2.
Proof. apply flv_get_bits_field; lia. Defined.

(** X2.  With three (four) bytes to read, [fread_3] ([fread_4]) returns 3
    (4), stores the number the bytes make, most significant first, moves the
    stream past them and leaves the end-of-file indicator as it was. *)
Theorem fread_big_endian (b0 b1 b2 b3 : byte) (rest : list byte) (e : bool) :
  fread_3 (mkFILE (b0 :: b1 :: b2 :: rest) e)
  = (3, u8 b0 * 65536 + u8 b1 * 256 + u8 b2, mkFILE rest e)
  /\
  fread_4 (mkFILE (b0 :: b1 :: b2 :: b3 :: rest) e)
  = (4, u8 b0 * 16777216 + u8 b1 * 65536 + u8 b2 * 256 + u8 b3, mkFILE rest e).
Proof.
  rewrite fread_3_cons, fread_4_cons, be24_value, be32_value.
  unfold be_value. cbn [fold_left]. split; do 2 f_equal; f_equal; lia.
Qed.

(** X3.  [hex2double] gives the number that the first eight bytes make, most
    significant first; it is below 2^64 and does not depend on the bytes that
    follow. *)
Theorem hex2double_big_endian (b0 b1 b2 b3 b4 b5 b6 b7 : byte) (rest : list byte) :
  hex2double (b0 :: b1 :: b2 :: b3 :: b4 :: b5 :: b6 :: b7 :: rest)
  = be_value [b0; b1; b2; b3; b4; b5; b6; b7]
  /\ 0 <= hex2double (b0 :: b1 :: b2 :: b3 :: b4 :: b5 :: b6 :: b7 :: rest)
       < 2 ^ 64.
Proof.
  rewrite hex2double_value. split; [reflexivity|].
  pose proof (be_value_range [b0; b1; b2; b3; b4; b5; b6; b7]) as H.
  cbn [length] in H. change (256 ^ Z.of_nat 8) with (2 ^ 64) in H. exact H.
Qed.

(** ** Values and their bytes *)

Lemma advance_advance (a b : Z) (c : cursor) :
  0 <= a -> 0 <= b -> advance b (advance a c) = advance (a + b) c.
Proof.
  intros Ha Hb. unfold advance. cbn [data len].
  rewrite skipn_skipn, Z2Nat.inj_add by lia.
  f_equal; [f_equal|]; lia.
Qed.

Lemma hex2double_encode (v : Z) (rest : list byte) :
  0 <= v < 2 ^ 64 -> hex2double (encode_be 8 v ++ rest) = v.
Proof.
  intros Hv.
  pose proof (length_encode_be 8 v) as Hlen.
  pose proof (be_value_encode_be 8 v Hv) as Hval.
  destruct (encode_be 8 v) as [|b0 [|b1 [|b2 [|b3 [|b4 [|b5 [|b6 [|b7 [|? ?]]]]]]]]];
    try discriminate.
  cbn [app]. rewrite hex2double_value. exact Hval.
Qed.

(** X4.  Round trip of a Number: the type byte 0 and the eight bytes of a
    64-bit pattern, most significant first, are decoded to that pattern, and
    the cursor is moved by the nine bytes. *)
Theorem number_round_trip (v : Z) (rest : list byte) (l : Z) :
  0 <= v < 2 ^ 64 -> 9 <= l ->
  parse_scriptdata_number (mkCursor (encode_number v ++ rest) l)
  = Ret (v, mkCursor rest (l - 9)).
Proof.
  intros Hv Hl. unfold encode_number. rewrite <- app_comm_cons.
  rewrite parse_number_item by (reflexivity || apply length_encode_be || lia).
  rewrite hex2double_encode by exact Hv. reflexivity.
Qed.

Lemma number_round_trip_witness :
  parse_scriptdata_number
    (mkCursor (encode_number 4623226492472524800 ++ [x2a]) 10)
  = Ret (4623226492472524800, mkCursor [x2a] (10 - 9)).
Proof. apply number_round_trip; lia. Defined.

Lemma primitive_result (p : primitive) (c : cursor) (v : Z) (c' : cursor) :
  parse_primitive p c = Ret (v, c') ->
  (v = 0 /\ c' = c)
  \/ (primitive_size p <= len c /\ peek c 0 = primitive_type p
      /\ c' = advance (primitive_size p) c).
Proof.
  destruct p; cbn [parse_primitive primitive_size primitive_type].
  - unfold parse_scriptdata_number.
    destruct (Z.ltb_spec (len c) 1); [intros [= <- <-]; auto|].
    destruct (Z.eqb_spec SCRIPTDATA_NUMBER (peek c 0)) as [E|E]; [|discriminate].
    cbn [assert bind advance len].
    destruct (Z.ltb_spec (len c - 1) 8); intros [= <- <-]; [auto|].
    right. repeat split; [lia|auto|]. apply advance_advance; lia.
  - unfold parse_scriptdata_boolean.
    destruct (Z.ltb_spec (len c) 1); [intros [= <- <-]; auto|].
    destruct (Z.eqb_spec SCRIPTDATA_BOOLEAN (peek c 0)) as [E|E]; [|discriminate].
    cbn [assert bind advance len].
    destruct (Z.ltb_spec (len c - 1) 1); intros [= <- <-]; [auto|].
    right. repeat split; [lia|auto|]. apply advance_advance; lia.
  - unfold parse_scriptdata_date.
    destruct (Z.ltb_spec (len c) 1); [intros [= <- <-]; auto|].
    destruct (Z.eqb_spec SCRIPTDATA_DATE (peek c 0)) as [E|E]; [|discriminate].
    cbn [assert bind advance len].
    destruct (Z.ltb_spec (len c - 1) 8); [intros [= <- <-]; auto|].
    destruct (Z.ltb_spec (len c - 1 - 8) 2); intros [= <- <-]; [auto|].
    right. repeat split; [lia|auto|].
    rewrite !advance_advance by lia. reflexivity.
Qed.

(** X5.  A Number, Boolean or Date decoder takes all of its value or
    nothing: when it returns, either the value is 0 and the cursor is the
    one it was given, or the cursor has moved by the whole size of the value
    (9, 2 or 11 bytes), which the buffer held. *)
Theorem primitive_all_or_nothing (p : primitive) (c : cursor) (v : Z) (c' : cursor) :
  parse_primitive p c = Ret (v, c') ->
  (v = 0 /\ c' = c)
  \/ (primitive_size p <= len c /\ peek c 0 = primitive_type p
      /\ c' = advance (primitive_size p) c).
Proof. exact (primitive_result p c v c'). Qed.

Lemma primitive_all_or_nothing_witness :
  (1 = 0 /\ mkCursor [x00] 0 = mkCursor [x01; x01; x00] 2)
  \/ (primitive_size Boolean <= 2
      /\ peek (mkCursor [x01; x01; x00] 2) 0 = primitive_type Boolean
      /\ mkCursor [x00] 0 = advance (primitive_size Boolean) (mkCursor [x01; x01; x00] 2)).
Proof.
  apply (primitive_all_or_nothing Boolean (mkCursor [x01; x01; x00] 2) 1
           (mkCursor [x00] 0)).
  reflexivity.
Defined.

(** X6.  A Date is decoded to the 64 bits of its time; the two bytes of the
    local offset that follow are taken from the buffer and have no part in
    the result. *)
Theorem date_skips_offset (v : Z) (o1 o2 : byte) (rest : list byte) (l : Z) :
  0 <= v < 2 ^ 64 -> 11 <= l ->
  parse_scriptdata_date
    (mkCursor (x0b :: encode_be 8 v ++ o1 :: o2 :: rest) l)
  = Ret (v, mkCursor rest (l - 11)).
Proof.
  intros Hv Hl. unfold parse_scriptdata_date.
  cbn [len]. destruct (Z.ltb_spec l 1); [lia|].
  change (peek (mkCursor (x0b :: _) l) 0) with 11.
  cbn [assert Z.eqb Pos.eqb SCRIPTDATA_DATE bind].
  rewrite advance_cons. cbn [len data].
  destruct (Z.ltb_spec (l - 1) 8); [lia|].
  rewrite hex2double_encode by exact Hv.
  rewrite advance_app by (rewrite length_encode_be; reflexivity).
  cbn [len]. destruct (Z.ltb_spec (l - 1 - 8) 2); [lia|].
  change (o1 :: o2 :: rest) with ([o1; o2] ++ rest).
  rewrite advance_app by reflexivity.
  do 2 f_equal. f_equal. lia.
Qed.

Lemma date_skips_offset_witness :
  parse_scriptdata_date
    (mkCursor (x0b :: encode_be 8 4780735043288662016 ++ [xff; xc4; x2a]) 12)
  = Ret (4780735043288662016, mkCursor [x2a] (12 - 11)).
Proof. apply (date_skips_offset _ xff xc4 [x2a]); lia. Defined.

(** ** Strings, counts and arrays *)

Lemma encode_be_2 (n : Z) :
  0 <= n < 65536 ->
  exists hi lo, encode_be 2 n = [hi; lo] /\ u8 hi * 256 + u8 lo = n.
Proof.
  intros Hn.
  pose proof (length_encode_be 2 n) as Hlen.
  pose proof (be_value_encode_be 2 n ltac:(cbn; lia)) as Hval.
  destruct (encode_be 2 n) as [|hi [|lo [|? ?]]]; try discriminate.
  exists hi, lo. split; [reflexivity|].
  unfold be_value in Hval. cbn [fold_left] in Hval. lia.
Qed.

Lemma encode_be_4 (n : Z) :
  0 <= n < 2 ^ 32 ->
  exists n0 n1 n2 n3,
    encode_be 4 n = [n0; n1; n2; n3] /\ declared_count n0 n1 n2 n3 = n.
Proof.
  intros Hn.
  pose proof (length_encode_be 4 n) as Hlen.
  pose proof (be_value_encode_be 4 n ltac:(cbn; lia)) as Hval.
  destruct (encode_be 4 n) as [|n0 [|n1 [|n2 [|n3 [|? ?]]]]]; try discriminate.
  exists n0, n1, n2, n3. split; [reflexivity|].
  unfold be_value in Hval. cbn [fold_left] in Hval.
  unfold declared_count. lia.
Qed.

Lemma string_without_type_encode (s rest : list byte) (l : Z) :
  Z.of_nat (length s) < 65536 -> 2 + Z.of_nat (length s) <= l ->
  parse_scriptdata_string_without_type (mkCursor (encode_string s ++ rest) l)
  = (Some s, mkCursor rest (l - 2 - Z.of_nat (length s))).
Proof.
  intros Hs Hl. unfold encode_string.
  destruct (encode_be_2 (Z.of_nat (length s)) ltac:(lia)) as (hi & lo & -> & E).
  rewrite <- app_assoc. cbn [app].
  apply string_without_type_name; lia.
Qed.

Lemma string_decodes (s rest : list byte) (l : Z) :
  Z.of_nat (length s) < 65536 -> 3 + Z.of_nat (length s) <= l ->
  parse_scriptdata_string (mkCursor (x02 :: encode_string s ++ rest) l)
  = Ret (Some s, mkCursor rest (l - 3 - Z.of_nat (length s))).
Proof.
  intros Hs Hl. unfold parse_scriptdata_string.
  cbn [len]. destruct (Z.ltb_spec l 1); [lia|].
  change (peek (mkCursor (x02 :: _) l) 0) with 2.
  cbn [assert Z.eqb Pos.eqb SCRIPTDATA_STRING bind].
  rewrite advance_cons, string_without_type_encode by lia.
  do 3 f_equal. lia.
Qed.

(** X7.  Round trip of a String: the type byte 2, the length in two bytes
    and the bytes of a string shorter than 65536 are decoded to that string,
    and the cursor is left behind its last byte. *)
Theorem string_round_trip (s rest : list byte) (l : Z) :
  Z.of_nat (length s) < 65536 -> 3 + Z.of_nat (length s) <= l ->
  parse_scriptdata_string (mkCursor (x02 :: encode_string s ++ rest) l)
  = Ret (Some s, mkCursor rest (l - 3 - Z.of_nat (length s))).
Proof. exact (string_decodes s rest l). Qed.

Lemma string_round_trip_witness :
  parse_scriptdata_string
    (mkCursor (x02 :: encode_string [x6f; x6e] ++ [x2a]) 6)
  = Ret (Some [x6f; x6e], mkCursor [x2a] (6 - 3 - Z.of_nat 2)).
Proof. apply string_round_trip; cbn; lia. Defined.

(** X8.  A String whose two length bytes are missing, or whose declared
    length is more than the bytes left behind them, gives NULL; the cursor
    has then moved by the type byte and by nothing else. *)
Theorem string_too_long (hi lo : byte) (body : list byte) (l : Z) :
  1 <= l ->
  l < 3 \/ l - 3 < u8 hi * 256 + u8 lo ->
  parse_scriptdata_string (mkCursor (x02 :: hi :: lo :: body) l)
  = Ret (None, mkCursor (hi :: lo :: body) (l - 1)).
Proof.
  intros Hl Hshort. unfold parse_scriptdata_string.
  cbn [len]. destruct (Z.ltb_spec l 1); [lia|].
  change (peek (mkCursor (x02 :: _) l) 0) with 2.
  cbn [assert Z.eqb Pos.eqb SCRIPTDATA_STRING bind].
  rewrite advance_cons. unfold parse_scriptdata_string_without_type.
  cbn [len]. destruct (Z.ltb_spec (l - 1) 2); [reflexivity|].
  change (peek (mkCursor (hi :: lo :: body) (l - 1)) 0) with (u8 hi).
  change (peek (mkCursor (hi :: lo :: body) (l - 1)) 1) with (u8 lo).
  assert (E : to_uint16 (Z.shiftl (u8 hi) 8 + u8 lo) = u8 hi * 256 + u8 lo).
  { unfold to_uint16. rewrite Z.shiftl_mul_pow2 by lia.
    pose proof (u8_range hi). pose proof (u8_range lo).
    rewrite Z.mod_small; lia. }
  rewrite E. cbn [advance len].
  destruct (Z.ltb_spec (l - 1 - 2) (u8 hi * 256 + u8 lo)); [reflexivity|lia].
Qed.

Lemma string_too_long_witness :
  parse_scriptdata_string (mkCursor [x02; x00; x05; x61; x62] 5)
  = Ret (None, mkCursor [x00; x05; x61; x62] (5 - 1)).
Proof. apply string_too_long; [lia|right; cbn; lia]. Defined.

Lemma ecma_array_decodes (n : Z) (rest : list byte) (l : Z) :
  0 <= n < 2 ^ 32 -> 5 <= l ->
  parse_scriptdata_ECMA_array_raw (mkCursor (x08 :: encode_be 4 n ++ rest) l)
  = Ret (Some (SCRIPTDATA_ECMA_ARRAY, n), mkCursor rest (l - 5)).
Proof.
  intros Hn Hl.
  destruct (encode_be_4 n Hn) as (n0 & n1 & n2 & n3 & -> & E).
  unfold parse_scriptdata_ECMA_array_raw.
  cbn [len app]. destruct (Z.ltb_spec l 1); [lia|].
  change (peek (mkCursor (x08 :: _) l) 0) with 8.
  cbn [assert Z.eqb Pos.eqb SCRIPTDATA_ECMA_ARRAY bind].
  rewrite advance_cons. cbn [len].
  destruct (Z.ltb_spec (l - 1) 4); [lia|].
  change (peek (mkCursor (n0 :: n1 :: n2 :: n3 :: rest) (l - 1)) 0) with (u8 n0).
  change (peek (mkCursor (n0 :: n1 :: n2 :: n3 :: rest) (l - 1)) 1) with (u8 n1).
  change (peek (mkCursor (n0 :: n1 :: n2 :: n3 :: rest) (l - 1)) 2) with (u8 n2).
  change (peek (mkCursor (n0 :: n1 :: n2 :: n3 :: rest) (l - 1)) 3) with (u8 n3).
  rewrite uint32_count, E.
  change (n0 :: n1 :: n2 :: n3 :: rest) with ([n0; n1; n2; n3] ++ rest).
  rewrite advance_app by reflexivity.
  do 2 f_equal. f_equal. lia.
Qed.

(** X9.  The head of an ECMA array: the type byte 8 and a count in four
    bytes, most significant first, give the type and the count, and the
    cursor is left on the first property. *)
Theorem ecma_array_round_trip (n : Z) (rest : list byte) (l : Z) :
  0 <= n < 2 ^ 32 -> 5 <= l ->
  parse_scriptdata_ECMA_array_raw (mkCursor (x08 :: encode_be 4 n ++ rest) l)
  = Ret (Some (SCRIPTDATA_ECMA_ARRAY, n), mkCursor rest (l - 5)).
Proof. exact (ecma_array_decodes n rest l). Qed.

Lemma ecma_array_round_trip_witness :
  parse_scriptdata_ECMA_array_raw
    (mkCursor (x08 :: encode_be 4 13 ++ [x00; x00; x09]) 8)
  = Ret (Some (SCRIPTDATA_ECMA_ARRAY, 13), mkCursor [x00; x00; x09] (8 - 5)).
Proof. apply ecma_array_round_trip; lia. Defined.

Lemma number_short (c : cursor) :
  len c < 9 -> (1 <= len c -> peek c 0 = SCRIPTDATA_NUMBER) ->
  parse_scriptdata_number c = Ret (0, c).
Proof.
  intros Hshort Htype. unfold parse_scriptdata_number.
  destruct (Z.ltb_spec (len c) 1); [reflexivity|].
  rewrite Htype by lia. cbn [assert Z.eqb SCRIPTDATA_NUMBER bind advance len].
  destruct (Z.ltb_spec (len c - 1) 8); [reflexivity|lia].
Qed.

Lemma strict_array_items_stuck (n : nat) (c : cursor) :
  len c < 9 -> (1 <= len c -> peek c 0 = SCRIPTDATA_NUMBER) ->
  strict_array_items n c = Ret c.
Proof.
  intros Hshort Htype. induction n as [|n IH]; [reflexivity|].
  cbn [strict_array_items]. rewrite number_short by assumption. exact IH.
Qed.

Lemma strict_array_items_split (n m : nat) (c : cursor) :
  strict_array_items (n + m) c
  = (c' <- strict_array_items n c ;; strict_array_items m c').
Proof.
  revert c. induction n as [|n IH]; intros c; [reflexivity|].
  cbn [Nat.add strict_array_items].
  destruct (parse_scriptdata_number c) as [r| | | |]; cbn [bind]; auto.
Qed.

(** X10.  A strict array that declares more Numbers than the buffer holds is
    not an error: the items that are whole are taken, the cursor stops
    behind the last of them, and the count returned is the declared one. *)
Theorem strict_array_short_of_items
    (n0 n1 n2 n3 : byte) (items : list (list byte)) (tail : list byte) (l : Z) :
  forallb is_number_item items = true ->
  Z.of_nat (length items) <= declared_count n0 n1 n2 n3 ->
  1 + 4 + 9 * Z.of_nat (length items) <= l < 1 + 4 + 9 * Z.of_nat (length items) + 9 ->
  (1 + 4 + 9 * Z.of_nat (length items) < l ->
   byte_at tail 0 = SCRIPTDATA_NUMBER) ->
  parse_scriptdata_strict_array
    (mkCursor (x0a :: n0 :: n1 :: n2 :: n3 :: concat items ++ tail) l)
  = Ret (declared_count n0 n1 n2 n3,
         mkCursor tail (l - (1 + 4 + 9 * Z.of_nat (length items)))).
Proof.
  intros Hall HN Hl Htail.
  rewrite strict_array_header by lia.
  replace (Z.to_nat (declared_count n0 n1 n2 n3))
    with (length items
          + (Z.to_nat (declared_count n0 n1 n2 n3) - length items))%nat by lia.
  rewrite strict_array_items_split.
  rewrite strict_array_items_numbers by (assumption || lia).
  cbn [bind]. rewrite strict_array_items_stuck.
  - cbn [bind]. do 2 f_equal. f_equal. lia.
  - cbn [len]. lia.
  - cbn [len]. intros H. apply Htail. lia.
Qed.

Lemma strict_array_short_of_items_witness :
  parse_scriptdata_strict_array
    (mkCursor ([x0a; x00; x00; x00; x03]
               ++ [x00; x40; x29; x00; x00; x00; x00; x00; x00]
               ++ [x00; x40]) 16)
  = Ret (3, mkCursor [x00; x40] (16 - (1 + 4 + 9 * 1))).
Proof.
  apply (strict_array_short_of_items x00 x00 x00 x03
           [[x00; x40; x29; x00; x00; x00; x00; x00; x00]] [x00; x40] 16).
  - reflexivity.
  - cbn. lia.
  - cbn. lia.
  - intros _. reflexivity.
Defined.

(** ** Objects: nested values and the terminator *)

Lemma boolean_decodes (b : byte) (rest : list byte) (l : Z) :
  2 <= l ->
  parse_scriptdata_boolean (mkCursor (x01 :: b :: rest) l)
  = Ret (u8 b, mkCursor rest (l - 2)).
Proof.
  intros Hl. unfold parse_scriptdata_boolean.
  cbn [len]. destruct (Z.ltb_spec l 1); [lia|].
  change (peek (mkCursor (x01 :: _) l) 0) with 1.
  cbn [assert Z.eqb Pos.eqb SCRIPTDATA_BOOLEAN bind].
  rewrite advance_cons. cbn [len].
  destruct (Z.ltb_spec (l - 1) 1); [lia|].
  change (peek (mkCursor (b :: rest) (l - 1)) 0) with (u8 b).
  rewrite advance_cons. do 2 f_equal. f_equal. lia.
Qed.

Lemma number_decodes (v : Z) (rest : list byte) (l : Z) :
  0 <= v < 2 ^ 64 -> 9 <= l ->
  parse_scriptdata_number (mkCursor (encode_number v ++ rest) l)
  = Ret (v, mkCursor rest (l - 9)).
Proof.
  intros Hv Hl. unfold encode_number. rewrite <- app_comm_cons.
  rewrite parse_number_item by (reflexivity || apply length_encode_be || lia).
  rewrite hex2double_encode by exact Hv. reflexivity.
Qed.

Lemma length_encode_string (s : list byte) :
  Z.of_nat (length (encode_string s)) = 2 + Z.of_nat (length s).
Proof.
  unfold encode_string. rewrite length_app, length_encode_be. lia.
Qed.

Lemma encode_value_head (v : amf_value) :
  exists t body, encode_value v = t :: body
    /\ u8 t <> SCRIPTDATA_OBJECT_END_MARKER.
Proof.
  destruct v; cbn [encode_value encode_number]; eexists; eexists;
    (split; [reflexivity|discriminate]).
Qed.

(** Two results that differ in the way the remaining length is written. *)
Ltac same_result :=
  repeat match goal with
  | |- Ret _ = Ret _ => f_equal
  | |- (_, _) = (_, _) => f_equal
  | |- mkCursor _ _ = mkCursor _ _ => f_equal
  end;
  try reflexivity; try lia.

Lemma object_decodes_mutual :
  (forall v fuel name rest l,
     representable v ->
     Z.of_nat (length (encode_value v)) <= l ->
     (value_fuel v <= fuel)%nat ->
     property_switch (print_scriptdata_object fuel) name
       (peek (mkCursor (encode_value v ++ rest) l) 0)
       (mkCursor (encode_value v ++ rest) l)
     = Ret (value_lines name v,
            mkCursor rest (l - Z.of_nat (length (encode_value v))), true))
  /\
  (forall ps fuel tail l,
     representable_props ps ->
     Z.of_nat (length (encode_props ps)) + 3 <= l ->
     (props_fuel ps <= fuel)%nat ->
     print_scriptdata_object fuel
       (mkCursor (encode_props ps ++ object_end ++ tail) l)
     = Ret (props_lines ps ++ [Property_end_marker],
            mkCursor tail (l - (Z.of_nat (length (encode_props ps)) + 3)))).
Proof.
  apply amf_mutual_ind.
  - (* Number *)
    intros n fuel name rest l Hrep Hl _. cbn [representable] in Hrep.
    cbn [encode_value] in *. unfold encode_number in Hl. cbn [length] in Hl.
    rewrite length_encode_be in Hl.
    change (peek (mkCursor (encode_number n ++ rest) l) 0) with 0.
    cbn [property_switch]. rewrite number_decodes by lia.
    cbn [bind fst snd value_lines]. unfold encode_number. cbn [length].
    rewrite length_encode_be. same_result.
  - (* Boolean *)
    intros b fuel name rest l _ Hl _. cbn [encode_value length] in *.
    change (peek (mkCursor ([x01; b] ++ rest) l) 0) with 1.
    cbn [property_switch app]. rewrite boolean_decodes by lia.
    cbn [bind fst snd value_lines]. same_result.
  - (* String *)
    intros s fuel name rest l Hrep Hl _. cbn [representable] in Hrep.
    cbn [encode_value length] in *. rewrite Nat2Z.inj_succ, length_encode_string in Hl.
    change (peek (mkCursor ((x02 :: encode_string s) ++ rest) l) 0) with 2.
    cbn [property_switch]. rewrite <- app_comm_cons.
    rewrite string_decodes by lia.
    cbn [bind fst snd value_lines]. rewrite Nat2Z.inj_succ, length_encode_string.
    same_result.
  - (* Object *)
    intros ps IH fuel name rest l Hrep Hl Hfuel.
    cbn [representable value_fuel] in *.
    cbn [encode_value length] in *.
    rewrite Nat2Z.inj_succ, length_app in *. cbn [object_end length] in *.
    rewrite Nat2Z.inj_add in *.
    change (peek (mkCursor ((x03 :: encode_props ps ++ object_end) ++ rest) l) 0)
      with 3.
    cbn [property_switch]. rewrite <- app_comm_cons, advance_cons.
    rewrite <- app_assoc.
    rewrite IH by (assumption || lia).
    cbn [bind fst snd value_lines]. same_result.
  - (* no property left: the terminator *)
    intros fuel tail l _ Hl Hfuel. cbn [props_fuel encode_props length app] in *.
    destruct fuel as [|fuel]; [lia|].
    rewrite print_scriptdata_object_step. cbn [len].
    destruct (Z.gtb_spec l 0); [|lia].
    change (object_end ++ tail) with (x00 :: x00 :: [] ++ x09 :: tail).
    rewrite string_without_type_name by (cbn; lia).
    cbn [length len]. destruct (Z.ltb_spec (l - 2 - Z.of_nat 0) 1); [lia|].
    change (is_terminator [] (peek (mkCursor (x09 :: tail) (l - 2 - Z.of_nat 0)) 0))
      with true.
    cbv iota. rewrite advance_cons. cbn [props_lines app].
    same_result.
  - (* a property, then the rest *)
    intros name v IHv rest IHrest fuel tail l Hrep Hl Hfuel.
    cbn [representable_props props_fuel encode_props props_lines] in *.
    destruct Hrep as (Hname & Hv & Hrest).
    destruct fuel as [|fuel]; [lia|].
    rewrite !length_app, !Nat2Z.inj_add, length_encode_string in Hl.
    rewrite !length_app, !Nat2Z.inj_add, length_encode_string.
    rewrite print_scriptdata_object_step. cbn [len].
    destruct (Z.gtb_spec l 0); [|lia].
    rewrite <- !app_assoc.
    rewrite string_without_type_encode by lia.
    set (l1 := l - 2 - Z.of_nat (length name)).
    cbn [len]. destruct (Z.ltb_spec l1 1) as [Hlt|_].
    { destruct (encode_value_head v) as (t & body & E & _).
      rewrite E in Hl. cbn [length] in Hl. lia. }
    assert (Hnt : is_terminator name
              (peek (mkCursor (encode_value v ++ encode_props rest ++ object_end ++ tail) l1) 0)
            = false).
    { destruct (encode_value_head v) as (t & body & E & Ht). rewrite E.
      unfold is_terminator.
      change (peek (mkCursor ((t :: body) ++ _) l1) 0) with (u8 t).
      apply andb_false_intro2. apply Z.eqb_neq. exact Ht. }
    rewrite Hnt.
    rewrite IHv by (assumption || lia).
    cbn [bind fst snd].
    rewrite IHrest by (assumption || lia).
    cbn [bind fst snd]. same_result.
Qed.

(** X11.  Round trip of an object body: the properties of an object
    (Numbers, Booleans, Strings and objects nested to any depth, under any
    names), followed by the terminator, are decoded property by property up
    to the terminator of the outer object and not beyond; the report has
    the lines of the properties in order and the cursor is left behind the
    marker byte. *)
Theorem object_round_trip (ps : amf_props) (fuel : nat) (tail : list byte) (l : Z) :
  representable_props ps ->
  Z.of_nat (length (encode_props ps)) + 3 <= l ->
  (props_fuel ps <= fuel)%nat ->
  print_scriptdata_object fuel
    (mkCursor (encode_props ps ++ object_end ++ tail) l)
  = Ret (props_lines ps ++ [Property_end_marker],
         mkCursor tail (l - (Z.of_nat (length (encode_props ps)) + 3))).
Proof. exact (proj2 object_decodes_mutual ps fuel tail l). Qed.

Lemma object_round_trip_witness :
  print_scriptdata_object 4
    (mkCursor (encode_props
                 (PCons [] (ANumber 5)
                    (PCons [x61] (AObject (PCons [x62] (ABoolean x01) PNil)) PNil))
               ++ object_end ++ [x2a]) 30)
  = Ret ([Property_number [] 5; Property_object [x61]; Begin_object;
          Property_boolean [x62] 1; Property_end_marker; End_object;
          Property_end_marker],
         mkCursor [x2a] (30 - (Z.of_nat 23 + 3))).
Proof.
  apply (object_round_trip
           (PCons [] (ANumber 5)
              (PCons [x61] (AObject (PCons [x62] (ABoolean x01) PNil)) PNil))
           4 [x2a] 30).
  - cbn. lia.
  - cbn. lia.
  - cbn. lia.
Defined.

(** ** The cursor only moves forward, inside the buffer *)

Lemma advance_0 (c : cursor) : advance 0 c = c.
Proof. destruct c as [d l]. unfold advance. cbn. rewrite Z.sub_0_r. reflexivity. Qed.

Lemma moved_refl (c : cursor) : 0 <= len c -> moved_forward c c.
Proof. intros H. exists 0. split; [lia|]. symmetry. apply advance_0. Qed.

Lemma moved_advance (c : cursor) (n : Z) :
  0 <= n <= len c -> moved_forward c (advance n c).
Proof. intros H. exists n. auto. Qed.

Lemma moved_len (c c' : cursor) :
  moved_forward c c' -> 0 <= len c' <= len c.
Proof. intros (n & Hn & ->). cbn [advance len]. lia. Qed.

Lemma moved_trans (c c' c'' : cursor) :
  moved_forward c c' -> moved_forward c' c'' -> moved_forward c c''.
Proof.
  intros (n & Hn & ->) (m & Hm & ->). cbn [advance len] in Hm.
  exists (n + m). split; [lia|]. apply advance_advance; lia.
Qed.

Lemma primitive_moved (p : primitive) (c : cursor) (r : Z * cursor) :
  0 <= len c -> parse_primitive p c = Ret r -> moved_forward c (snd r).
Proof.
  intros Hc H. destruct r as [v c'].
  apply primitive_result in H as [[_ ->]|(Hsize & _ & ->)]; cbn [snd].
  - apply moved_refl, Hc.
  - apply moved_advance. destruct p; cbn [primitive_size] in *; lia.
Qed.

Lemma string_without_type_moved (c : cursor) :
  0 <= len c -> moved_forward c (snd (parse_scriptdata_string_without_type c)).
Proof.
  intros Hc. unfold parse_scriptdata_string_without_type.
  destruct (Z.ltb_spec (len c) 2); [apply moved_refl, Hc|].
  set (n := to_uint16 _).
  assert (0 <= n) by apply to_uint16_nonneg.
  destruct (Z.ltb_spec (len (advance 2 c)) n) as [|Hn]; [apply moved_refl, Hc|].
  cbn [snd]. cbn [advance len] in Hn.
  apply (moved_trans _ (advance 2 c)); apply moved_advance; cbn [advance len]; lia.
Qed.

Lemma string_moved (c : cursor) (r : option (list byte) * cursor) :
  0 <= len c -> parse_scriptdata_string c = Ret r -> moved_forward c (snd r).
Proof.
  intros Hc. unfold parse_scriptdata_string.
  destruct (Z.ltb_spec (len c) 1); [intros [= <-]; apply moved_refl, Hc|].
  destruct (SCRIPTDATA_STRING =? peek c 0); [|discriminate].
  cbn [assert bind]. intros [= <-].
  apply (moved_trans _ (advance 1 c)); [apply moved_advance; lia|].
  apply string_without_type_moved. cbn [advance len]. lia.
Qed.

Lemma strict_array_items_moved (n : nat) (c c' : cursor) :
  0 <= len c -> strict_array_items n c = Ret c' -> moved_forward c c'.
Proof.
  revert c. induction n as [|n IH]; intros c Hc; cbn [strict_array_items].
  - intros [= <-]. apply moved_refl, Hc.
  - destruct (parse_scriptdata_number c) as [r| | | |] eqn:E; try discriminate.
    cbn [bind]. intros H.
    apply (primitive_moved Number) in E; [|exact Hc].
    apply (moved_trans _ (snd r)); [exact E|].
    apply IH; [apply moved_len in E; lia|exact H].
Qed.

Lemma strict_array_moved (c : cursor) (r : Z * cursor) :
  0 <= len c -> parse_scriptdata_strict_array c = Ret r -> moved_forward c (snd r).
Proof.
  intros Hc. unfold parse_scriptdata_strict_array.
  destruct (Z.ltb_spec (len c) 1); [intros [= <-]; apply moved_refl, Hc|].
  destruct (SCRIPTDATA_STRICT_ARRAY =? peek c 0); [|discriminate].
  cbn [assert bind].
  destruct (Z.ltb_spec (len (advance 1 c)) 4) as [|H4];
    [intros [= <-]; apply moved_refl, Hc|].
  cbn [advance len] in H4.
  destruct (strict_array_items _ _) as [c2| | | |] eqn:E; try discriminate.
  cbn [bind]. intros [= <-]. cbn [snd].
  apply strict_array_items_moved in E; [|cbn [advance len]; lia].
  apply (moved_trans _ (advance 4 (advance 1 c))); [|exact E].
  apply (moved_trans _ (advance 1 c)); apply moved_advance; cbn [advance len]; lia.
Qed.

Lemma property_switch_moved self property_name property_type c ls c2 again :
  (forall c' r, 0 <= len c' -> self c' = Ret r -> moved_forward c' (snd r)) ->
  1 <= len c ->
  property_switch self property_name property_type c = Ret (ls, c2, again) ->
  moved_forward c c2.
Proof.
  intros Hself Hc. rewrite property_switch_cases.
  destruct (property_type =? SCRIPTDATA_NUMBER).
  { destruct (parse_scriptdata_number c) as [r| | | |] eqn:E; try discriminate.
    cbn [bind]. intros [= _ <- _]. apply (primitive_moved Number); [lia|exact E]. }
  destruct (property_type =? SCRIPTDATA_BOOLEAN).
  { destruct (parse_scriptdata_boolean c) as [r| | | |] eqn:E; try discriminate.
    cbn [bind]. intros [= _ <- _]. apply (primitive_moved Boolean); [lia|exact E]. }
  destruct (property_type =? SCRIPTDATA_STRING).
  { destruct (parse_scriptdata_string c) as [r| | | |] eqn:E; try discriminate.
    cbn [bind]. intros [= _ <- _]. apply string_moved; [lia|exact E]. }
  destruct (property_type =? SCRIPTDATA_OBJECT).
  { destruct (self (advance 1 c)) as [r| | | |] eqn:E; try discriminate.
    cbn [bind]. intros [= _ <- _].
    apply (moved_trans _ (advance 1 c)); [apply moved_advance; lia|].
    apply Hself; [cbn [advance len]; lia|exact E]. }
  destruct (property_type =? SCRIPTDATA_STRICT_ARRAY).
  { destruct (parse_scriptdata_strict_array c) as [r| | | |] eqn:E; try discriminate.
    cbn [bind]. intros [= _ <- _]. apply strict_array_moved; [lia|exact E]. }
  destruct (property_type =? SCRIPTDATA_DATE).
  { destruct (parse_scriptdata_date c) as [r| | | |] eqn:E; try discriminate.
    cbn [bind]. intros [= _ <- _]. apply (primitive_moved Date); [lia|exact E]. }
  unfold name_at. destruct (_ && _); [|discriminate].
  cbn [bind]. intros [= _ <- _]. apply moved_refl. lia.
Qed.

Lemma print_scriptdata_object_moved (fuel : nat) (c : cursor)
    (r : list line * cursor) :
  0 <= len c -> print_scriptdata_object fuel c = Ret r -> moved_forward c (snd r).
Proof.
  revert c r. induction fuel as [|fuel IH]; intros c r Hc; [discriminate|].
  rewrite print_scriptdata_object_step.
  destruct (len c >? 0); [|intros [= <-]; apply moved_refl, Hc].
  pose proof (string_without_type_moved c Hc) as Hname.
  destruct (parse_scriptdata_string_without_type c) as [[property_name|] c1];
    cbn [snd] in Hname; [|intros [= <-]; exact Hname].
  destruct (Z.ltb_spec (len c1) 1) as [|H1]; [intros [= <-]; exact Hname|].
  destruct (is_terminator property_name (peek c1 0)).
  { intros [= <-]. cbn [snd].
    apply (moved_trans _ c1); [exact Hname|]. apply moved_advance. lia. }
  destruct (property_switch _ _ _ _) as [[[lines c2] again]| | | |] eqn:E;
    try discriminate.
  apply property_switch_moved in E; [|exact IH|exact H1].
  cbn [bind].
  assert (H2 : moved_forward c c2) by (apply (moved_trans _ c1); assumption).
  destruct again; [|intros [= <-]; exact H2].
  destruct (print_scriptdata_object fuel c2) as [r'| | | |] eqn:E'; try discriminate.
  cbn [bind]. intros [= <-]. cbn [snd].
  apply (moved_trans _ c2); [exact H2|].
  apply IH; [apply moved_len in H2; lia|exact E'].
Qed.

(** X12.  [print_scriptdata_object] keeps pointer and length together and
    inside the buffer: when it returns, the remaining length is between 0
    and what it was, and the pointer has moved forward by exactly the bytes
    taken off the length. *)
Theorem object_cursor_stays_inside (fuel : nat) (c : cursor)
    (lines : list line) (c' : cursor) :
  0 <= len c ->
  print_scriptdata_object fuel c = Ret (lines, c') ->
  0 <= len c' <= len c
  /\ data c' = skipn (Z.to_nat (len c - len c')) (data c).
Proof.
  intros Hc H. apply print_scriptdata_object_moved in H; [|exact Hc].
  cbn [snd] in H. pose proof (moved_len _ _ H) as Hlen.
  split; [exact Hlen|].
  destruct H as (n & Hn & ->). cbn [advance len data]. f_equal. lia.
Qed.

Lemma object_cursor_stays_inside_witness :
  0 <= 1 <= 13
  /\ [x07] = skipn (Z.to_nat (13 - 1))
       [x00; x01; x61; x00; x40; x29; x00; x00; x00; x00; x00; x00; x07].
Proof.
  apply (object_cursor_stays_inside 3
           (mkCursor [x00; x01; x61; x00; x40; x29; x00; x00; x00; x00; x00; x00;
                      x07] 13)
           [Property_number [x61] (hex2double [x40; x29; x00; x00; x00; x00; x00; x00])]
           (mkCursor [x07] 1)).
  - cbn. lia.
  - reflexivity.
Defined.

(** X13.  [print_scriptdata_object] ends on every buffer: one step more than
    the remaining length is enough for the run.  It then returns with a
    remaining length not above what it was, stops on an assertion, or
    reaches the undefined print of the name of a type above 12; it does not
    leave by [exit], and more steps do not change the outcome. *)
Theorem object_loop_terminates (c : cursor) (extra : nat) :
  ends_within (len c) (print_scriptdata_object (object_fuel (len c)) c)
  /\ print_scriptdata_object (extra + object_fuel (len c)) c
     = print_scriptdata_object (object_fuel (len c)) c.
Proof.
  pose proof (print_scriptdata_object_fuel c) as H.
  split; [exact H|].
  apply print_scriptdata_object_more.
  destruct (print_scriptdata_object _ c) as [[ls c']| | | |];
    try discriminate; contradiction.
Qed.

(** ** The script-data tag *)

Lemma print_scriptdata_object_agree (f1 f2 : nat) (c : cursor) :
  print_scriptdata_object f1 c <> OutOfFuel ->
  print_scriptdata_object f2 c <> OutOfFuel ->
  print_scriptdata_object f1 c = print_scriptdata_object f2 c.
Proof.
  intros H1 H2. destruct (Nat.le_ge_cases f1 f2) as [H|H].
  - replace f2 with ((f2 - f1) + f1)%nat by lia.
    symmetry. apply print_scriptdata_object_more, H1.
  - replace f1 with ((f1 - f2) + f2)%nat by lia.
    apply print_scriptdata_object_more, H2.
Qed.

Lemma print_scriptdata_object_enough (fuel : nat) (c : cursor)
    (r : list line * cursor) :
  print_scriptdata_object fuel c = Ret r ->
  print_scriptdata_object (object_fuel (len c)) c = Ret r.
Proof.
  intros H. rewrite <- H. apply print_scriptdata_object_agree.
  - pose proof (print_scriptdata_object_fuel c) as F.
    destruct (print_scriptdata_object (object_fuel (len c)) c) as [[ls c']| | | |];
      try discriminate; intros _; exact F.
  - rewrite H. discriminate.
Qed.

Lemma length_encode_metadata (name : list byte) (count : Z) (props : amf_props) :
  Z.of_nat (length (encode_metadata name count props))
  = 3 + Z.of_nat (length name) + 5 + Z.of_nat (length (encode_props props)) + 3.
Proof.
  unfold encode_metadata. cbn [length].
  rewrite !length_app. cbn [length]. rewrite !length_app, length_encode_be.
  pose proof (length_encode_string name). cbn [object_end length]. lia.
Qed.

Lemma read_scriptdata_tag_body (u : byte) (tag : flv_tag_t) (name : list byte)
    (count : Z) (body rest : list byte) (e : bool) (out : list line) :
  data_size tag
    = 3 + Z.of_nat (length name) + 5 + Z.of_nat (length body) ->
  Z.of_nat (length name) < 65536 -> 0 <= count < 2 ^ 32 ->
  read_scriptdata_tag u tag
    (mkWorld (mkFILE ((x02 :: encode_string name ++ x08 :: encode_be 4 count
                       ++ body) ++ rest) e) out)
  = (o <- print_scriptdata_object (object_fuel (Z.of_nat (length body)))
            (mkCursor body (Z.of_nat (length body))) ;;
     _ <- assert (len (snd o) =? 0) ;;
     Ret (Some (mkScript (data_size tag)),
          mkWorld (mkFILE rest e)
            ((out ++ [Scriptdata_tag name SCRIPTDATA_ECMA_ARRAY count
                        (Z.of_nat (length body))]) ++ fst o))).
Proof.
  intros Hsize Hname Hcount. unfold read_scriptdata_tag.
  destruct (Z.leb_spec (data_size tag) 0); [lia|].
  assert (Hlen : Z.of_nat (length (x02 :: encode_string name
                                   ++ x08 :: encode_be 4 count ++ body))
                 = data_size tag).
  { cbn [length]. rewrite !length_app. cbn [length].
    rewrite length_app, length_encode_be.
    pose proof (length_encode_string name). lia. }
  cbn [g_infile]. rewrite fread_prefix by lia.
  rewrite stored_whole by exact Hlen.
  rewrite string_decodes by lia. cbn [bind fst snd].
  rewrite ecma_array_decodes by lia. cbn [bind fst snd len].
  replace (data_size tag - 3 - Z.of_nat (length name) - 5)
    with (Z.of_nat (length body)) by lia.
  reflexivity.
Qed.

(** A payload made of a name and an ECMA array with its properties and the
    terminator. *)
Lemma read_scriptdata_tag_metadata (u : byte) (tag : flv_tag_t)
    (name : list byte) (count : Z) (props : amf_props) (rest : list byte)
    (e : bool) (out : list line) :
  data_size tag = Z.of_nat (length (encode_metadata name count props)) ->
  Z.of_nat (length name) < 65536 -> 0 <= count < 2 ^ 32 ->
  representable_props props ->
  read_scriptdata_tag u tag
    (mkWorld (mkFILE (encode_metadata name count props ++ rest) e) out)
  = Ret (Some (mkScript (data_size tag)),
         mkWorld (mkFILE rest e)
           (out ++ Scriptdata_tag name SCRIPTDATA_ECMA_ARRAY count
                     (Z.of_nat (length (encode_props props)) + 3)
                :: props_lines props ++ [Property_end_marker])).
Proof.
  intros Hsize Hname Hcount Hrep.
  rewrite length_encode_metadata in Hsize. unfold encode_metadata.
  rewrite (read_scriptdata_tag_body u tag name count
             (encode_props props ++ object_end) rest e out);
    try assumption.
  2:{ rewrite length_app. cbn [object_end length]. lia. }
  assert (Hlen : Z.of_nat (length (encode_props props ++ object_end))
                 = Z.of_nat (length (encode_props props)) + 3).
  { rewrite length_app. cbn [object_end length]. lia. }
  rewrite Hlen.
  pose proof (object_decodes_mutual) as [_ Hdec].
  specialize (Hdec props (props_fuel props) []
                (Z.of_nat (length (encode_props props)) + 3)
                Hrep ltac:(lia) ltac:(lia)).
  rewrite app_nil_r in Hdec.
  apply print_scriptdata_object_enough in Hdec. cbn [len] in Hdec.
  rewrite Hdec. cbn [bind fst snd len].
  replace (_ - _ =? 0) with true by (symmetry; apply Z.eqb_eq; lia).
  cbn [assert bind]. rewrite <- app_assoc. reflexivity.
Qed.

(** X14.  Round trip of a script-data tag: a payload made of a name as a
    String and an ECMA array whose body holds properties and the terminator,
    of the declared size, is read whole from the stream; a tag with its
    buffer is returned, the stream is left behind the payload, and the
    report has the line of the tag, the lines of the properties and the
    end-marker line.  The declared count of the array is reported and has no
    other part in the decoding. *)
Theorem script_tag_round_trip (u : byte) (tag : flv_tag_t) (name : list byte)
    (count : Z) (props : amf_props) (rest : list byte) (e : bool)
    (out : list line) :
  data_size tag = Z.of_nat (length (encode_metadata name count props)) ->
  Z.of_nat (length name) < 65536 -> 0 <= count < 2 ^ 32 ->
  representable_props props ->
  exists s : scriptdata_tag_t,
    read_scriptdata_tag u tag
      (mkWorld (mkFILE (encode_metadata name count props ++ rest) e) out)
    = Ret (Some s,
           mkWorld (mkFILE rest e)
             (out ++ Scriptdata_tag name SCRIPTDATA_ECMA_ARRAY count
                       (Z.of_nat (length (encode_props props)) + 3)
                  :: props_lines props ++ [Property_end_marker])).
Proof.
  intros Hsize Hname Hcount Hrep. eexists.
  apply read_scriptdata_tag_metadata; assumption.
Qed.

Lemma script_tag_round_trip_witness :
  exists s : scriptdata_tag_t,
    read_scriptdata_tag x00 (mkTag 18 25 0 0 0 None)
      (mkWorld (mkFILE (encode_metadata [x6f; x6e] 7
                          (PCons [x64] (ANumber 5) PNil) ++ [x2a]) false) [])
    = Ret (Some s,
           mkWorld (mkFILE [x2a] false)
             [Scriptdata_tag [x6f; x6e] 8 7 15;
              Property_number [x64] 5; Property_end_marker]).
Proof.
  apply (script_tag_round_trip x00 (mkTag 18 25 0 0 0 None) [x6f; x6e] 7
           (PCons [x64] (ANumber 5) PNil) [x2a] false []).
  - reflexivity.
  - cbn. lia.
  - lia.
  - cbn. lia.
Defined.

Lemma fread_head (n : Z) (b : byte) (rest : list byte) (e : bool) :
  0 < n ->
  exists buf f', fst (fst (fread 1 n (mkFILE (b :: rest) e))) = b :: buf
                 /\ snd (fread 1 n (mkFILE (b :: rest) e)) = f'.
Proof.
  intros Hn. unfold fread. cbn [unread at_eof].
  destruct (1 * n <=? Z.of_nat (length (b :: rest))).
  - replace (Z.to_nat (1 * n)) with (S (Z.to_nat (n - 1))) by lia.
    cbn [firstn fst snd]. eauto.
  - cbn [fst snd]. eauto.
Qed.

(** X15.  A script-data tag must begin with a String: when the first byte
    of a payload that is not empty is not the type byte 2, the assertion of
    [parse_scriptdata_string] stops the program. *)
Theorem script_tag_name_must_be_string (u : byte) (tag : flv_tag_t) (b : byte)
    (rest : list byte) (e : bool) (out : list line) :
  0 < data_size tag ->
  u8 b <> SCRIPTDATA_STRING ->
  read_scriptdata_tag u tag (mkWorld (mkFILE (b :: rest) e) out) = AssertFailed.
Proof.
  intros Hsize Hb. unfold read_scriptdata_tag.
  destruct (Z.leb_spec (data_size tag) 0); [lia|]. cbn [g_infile].
  destruct (fread_head (data_size tag) b rest e Hsize) as (buf & f' & Hbuf & _).
  destruct (fread 1 (data_size tag) _) as [[got count] f1]. cbn [fst] in Hbuf.
  subst got. unfold parse_scriptdata_string, stored. cbn [len app].
  destruct (Z.ltb_spec (data_size tag) 1); [lia|].
  change (peek (mkCursor (b :: ?l) (data_size tag)) 0) with (u8 b).
  destruct (Z.eqb_spec SCRIPTDATA_STRING (u8 b)) as [E|_]; [congruence|].
  reflexivity.
Qed.

Lemma script_tag_name_must_be_string_witness :
  read_scriptdata_tag x00 (mkTag 18 3 0 0 0 None)
    (mkWorld (mkFILE [x08; x00; x00] false) []) = AssertFailed.
Proof. apply script_tag_name_must_be_string; [cbn; lia|discriminate]. Defined.

(** X16.  The value of a script-data tag must be an ECMA array: when the
    name is followed by another type byte, an Object (3) for one, the
    assertion of [parse_scriptdata_ECMA_array_raw] stops the program. *)
Theorem script_tag_value_must_be_ecma_array (u : byte) (tag : flv_tag_t)
    (name : list byte) (t : byte) (body rest : list byte) (e : bool)
    (out : list line) :
  data_size tag = 3 + Z.of_nat (length name) + 1 + Z.of_nat (length body) ->
  Z.of_nat (length name) < 65536 ->
  u8 t <> SCRIPTDATA_ECMA_ARRAY ->
  read_scriptdata_tag u tag
    (mkWorld (mkFILE ((x02 :: encode_string name ++ t :: body) ++ rest) e) out)
  = AssertFailed.
Proof.
  intros Hsize Hname Ht. unfold read_scriptdata_tag.
  destruct (Z.leb_spec (data_size tag) 0); [lia|].
  assert (Hlen : Z.of_nat (length (x02 :: encode_string name ++ t :: body))
                 = data_size tag).
  { cbn [length]. rewrite length_app. cbn [length].
    pose proof (length_encode_string name). lia. }
  cbn [g_infile]. rewrite fread_prefix by lia.
  rewrite stored_whole by exact Hlen.
  rewrite string_decodes by lia. cbn [bind fst snd].
  unfold parse_scriptdata_ECMA_array_raw. cbn [len].
  destruct (Z.ltb_spec (data_size tag - 3 - Z.of_nat (length name)) 1); [lia|].
  change (peek (mkCursor (t :: body) _) 0) with (u8 t).
  destruct (Z.eqb_spec SCRIPTDATA_ECMA_ARRAY (u8 t)) as [E|_]; [congruence|].
  reflexivity.
Qed.

Lemma script_tag_value_must_be_ecma_array_witness :
  read_scriptdata_tag x00 (mkTag 18 8 0 0 0 None)
    (mkWorld (mkFILE ((x02 :: encode_string [x6f] ++ x03 :: [x00; x00; x09]) ++ [])
                false) [])
  = AssertFailed.
Proof.
  apply script_tag_value_must_be_ecma_array; [reflexivity|cbn; lia|discriminate].
Defined.

(** X17.  Bytes of the payload that are left behind the terminator of the
    array stop the program: the assertion [value_length == 0] fails. *)
Theorem script_tag_bytes_after_terminator (u : byte) (tag : flv_tag_t)
    (name : list byte) (count : Z) (props : amf_props) (junk rest : list byte)
    (e : bool) (out : list line) :
  data_size tag
    = Z.of_nat (length (encode_metadata name count props ++ junk)) ->
  Z.of_nat (length name) < 65536 -> 0 <= count < 2 ^ 32 ->
  representable_props props ->
  junk <> [] ->
  read_scriptdata_tag u tag
    (mkWorld (mkFILE ((encode_metadata name count props ++ junk) ++ rest) e) out)
  = AssertFailed.
Proof.
  intros Hsize Hname Hcount Hrep Hjunk.
  rewrite length_app, Nat2Z.inj_add, length_encode_metadata in Hsize.
  unfold encode_metadata.
  replace ((x02 :: encode_string name ++ x08 :: encode_be 4 count
            ++ encode_props props ++ object_end) ++ junk)
    with (x02 :: encode_string name ++ x08 :: encode_be 4 count
          ++ (encode_props props ++ object_end ++ junk))
    by (cbn [app]; rewrite <- !app_assoc; cbn [app]; rewrite <- !app_assoc;
        reflexivity).
  assert (Hlen : Z.of_nat (length (encode_props props ++ object_end ++ junk))
                 = Z.of_nat (length (encode_props props)) + 3
                   + Z.of_nat (length junk)).
  { rewrite !length_app. cbn [object_end length]. lia. }
  rewrite (read_scriptdata_tag_body u tag name count
             (encode_props props ++ object_end ++ junk) rest e out);
    try assumption; [|lia].
  rewrite Hlen.
  pose proof (object_decodes_mutual) as [_ Hdec].
  specialize (Hdec props (props_fuel props) junk
                (Z.of_nat (length (encode_props props)) + 3
                 + Z.of_nat (length junk))
                Hrep ltac:(lia) ltac:(lia)).
  apply print_scriptdata_object_enough in Hdec. cbn [len] in Hdec.
  rewrite Hdec. cbn [bind fst snd len].
  destruct junk as [|j junk]; [contradiction|]. cbn [length].
  replace (_ - _ =? 0) with false by (symmetry; apply Z.eqb_neq; lia).
  reflexivity.
Qed.

Lemma script_tag_bytes_after_terminator_witness :
  read_scriptdata_tag x00 (mkTag 18 13 0 0 0 None)
    (mkWorld (mkFILE ((encode_metadata [x6f] 0 PNil ++ [x00]) ++ [x2a]) false) [])
  = AssertFailed.
Proof.
  apply script_tag_bytes_after_terminator;
    [reflexivity|cbn; lia|lia|exact I|discriminate].
Defined.

Lemma body_without_terminator (ps : amf_props) (fuel : nat) :
  representable_props ps ->
  (props_fuel ps <= fuel)%nat ->
  print_scriptdata_object fuel
    (mkCursor (encode_props ps) (Z.of_nat (length (encode_props ps))))
  = Ret (props_lines ps, mkCursor [] 0).
Proof.
  revert fuel. induction ps as [|name v rest IH]; intros fuel Hrep Hfuel.
  - cbn [props_fuel] in Hfuel. destruct fuel as [|fuel]; [lia|]. reflexivity.
  - cbn [representable_props props_fuel encode_props props_lines] in *.
    destruct Hrep as (Hname & Hv & Hrest).
    destruct fuel as [|fuel]; [lia|].
    rewrite !length_app, !Nat2Z.inj_add, length_encode_string.
    rewrite print_scriptdata_object_step. cbn [len].
    match goal with |- context [?l >? 0] => destruct (Z.gtb_spec l 0); [|lia] end.
    rewrite string_without_type_encode by lia.
    match goal with |- context [mkCursor _ ?l1] => set (l' := l1) end.
    cbn [len].
    destruct (encode_value_head v) as (t & body & E & Ht).
    destruct (Z.ltb_spec l' 1) as [Hlt|_].
    { subst l'. rewrite E in Hlt. cbn [length] in Hlt. lia. }
    assert (Hnt : is_terminator name
              (peek (mkCursor (encode_value v ++ encode_props rest) l') 0) = false).
    { rewrite E. unfold is_terminator.
      change (peek (mkCursor ((t :: body) ++ _) l') 0) with (u8 t).
      apply andb_false_intro2. apply Z.eqb_neq. exact Ht. }
    rewrite Hnt.
    pose proof (object_decodes_mutual) as [Hval _].
    rewrite Hval by (assumption || lia).
    cbn [bind fst snd].
    replace (l' - Z.of_nat (length (encode_value v)))
      with (Z.of_nat (length (encode_props rest))) by lia.
    rewrite IH by (assumption || lia).
    reflexivity.
Qed.

(** X18.  A body that ends with its last property and has no terminator is
    taken as it is: the loop ends when no byte is left, the assertion on the
    remaining length holds, and a tag with its buffer is returned; the
    stream is left behind the payload and the report has the line of the tag
    and the lines of the properties, with no end-marker line. *)
Theorem script_tag_without_terminator (u : byte) (tag : flv_tag_t)
    (name : list byte) (count : Z) (props : amf_props) (rest : list byte)
    (e : bool) (out : list line) :
  data_size tag
    = 3 + Z.of_nat (length name) + 5 + Z.of_nat (length (encode_props props)) ->
  Z.of_nat (length name) < 65536 -> 0 <= count < 2 ^ 32 ->
  representable_props props ->
  exists s : scriptdata_tag_t,
    read_scriptdata_tag u tag
      (mkWorld (mkFILE ((x02 :: encode_string name ++ x08 :: encode_be 4 count
                         ++ encode_props props) ++ rest) e) out)
    = Ret (Some s,
           mkWorld (mkFILE rest e)
             (out ++ Scriptdata_tag name SCRIPTDATA_ECMA_ARRAY count
                       (Z.of_nat (length (encode_props props)))
                  :: props_lines props)).
Proof.
  intros Hsize Hname Hcount Hrep. eexists.
  rewrite (read_scriptdata_tag_body u tag name count (encode_props props) rest e out)
    by assumption.
  pose proof (body_without_terminator props (props_fuel props) Hrep ltac:(lia))
    as Hdec.
  apply print_scriptdata_object_enough in Hdec. cbn [len] in Hdec.
  rewrite Hdec. cbn [bind fst snd len assert Z.eqb].
  rewrite <- app_assoc. reflexivity.
Qed.

Lemma script_tag_without_terminator_witness :
  exists s : scriptdata_tag_t,
    read_scriptdata_tag x00 (mkTag 18 14 0 0 0 None)
      (mkWorld (mkFILE ((x02 :: encode_string [x6f] ++ x08 :: encode_be 4 1
                         ++ encode_props (PCons [x62] (ABoolean x01) PNil))
                        ++ [x2a])
                  false) [])
    = Ret (Some s,
           mkWorld (mkFILE [x2a] false)
             [Scriptdata_tag [x6f] 8 1 5; Property_boolean [x62] 1]).
Proof.
  apply (script_tag_without_terminator x00 (mkTag 18 14 0 0 0 None) [x6f] 1
           (PCons [x62] (ABoolean x01) PNil) [x2a] false []).
  - reflexivity.
  - cbn. lia.
  - lia.
  - cbn. lia.
Defined.

(** ** The payload and the size its tag declares *)




(** ** The stream under [flv_read_tag] *)

(** X19.  A tag of type 8, 9 or 18 that declares no payload is returned with
    its header fields and a NULL [data], and nothing is read behind the
    fifteen bytes of the size before the tag and of the header. *)
Theorem empty_payload (u p0 p1 p2 p3 ty t0 t1 t2 ext i0 i1 i2 : byte)
    (rest : list byte) (out : list line) :
  u8 ty = TAGTYPE_AUDIODATA \/ u8 ty = TAGTYPE_VIDEODATA
    \/ u8 ty = TAGTYPE_SCRIPTDATAOBJECT ->
  exists w' : world,
    flv_read_tag u
      (mkWorld (mkFILE (p0 :: p1 :: p2 :: p3 :: ty :: x00 :: x00 :: x00 ::
                        t0 :: t1 :: t2 :: ext :: i0 :: i1 :: i2 :: rest) false)
               out)
    = Ret (Some (mkTag (u8 ty) 0 (be24 t0 t1 t2) (u8 ext) (be24 i0 i1 i2) None),
           w')
    /\ g_infile w' = mkFILE rest false.
Proof.
  intros Hty. rewrite flv_read_tag_header. unfold tag_switch. cbn [tag_type].
  destruct Hty as [ -> | [ -> | -> ] ]; eexists; split; reflexivity.
Qed.

Lemma empty_payload_witness :
  exists w' : world,
    flv_read_tag x00
      (mkWorld (mkFILE [x00; x00; x00; x00; x09; x00; x00; x00;
                        x00; x00; x21; x00; x00; x00; x00; x2a] false) [])
    = Ret (Some (mkTag 9 0 (be24 x00 x00 x21) 0 (be24 x00 x00 x00) None), w')
    /\ g_infile w' = mkFILE [x2a] false.
Proof.
  apply (empty_payload x00 x00 x00 x00 x00 x09). right. left. reflexivity.
Defined.

Lemma tag_switch_not_null (u : byte) (tag : flv_tag_t) (w w' : world) :
  tag_switch u tag w <> Ret (None, w').
Proof.
  unfold tag_switch.
  destruct (tag_type tag) as [|p|p]; try discriminate.
  do 5 (try destruct p as [p|p|]; try discriminate).
  all: cbv beta iota zeta;
    try match goal with
    | |- context [bind ?m _] =>
        destruct m as [[? ?]| | | |]; cbn [bind fst snd]; try discriminate
    end; discriminate.
Qed.

Lemma flv_read_tag_at_end (u : byte) (bytes : list byte) (out : list line) :
  (length bytes < 5)%nat ->
  flv_read_tag u (mkWorld (mkFILE bytes false) out)
  = Ret (None, mkWorld (mkFILE [] true) out).
Proof.
  intros Hlen.
  destruct bytes as [|p0 [|p1 [|p2 [|p3 [|ty rest]]]]]; try reflexivity.
  cbn [length] in Hlen. lia.
Qed.

(** X20.  [flv_read_tag] takes the stream to be at its end exactly when
    fewer than five bytes are left: it then returns NULL, with the bytes
    that were left consumed and the end-of-file indicator set; with five
    bytes or more it never returns NULL. *)
Theorem end_of_stream (u : byte) (f : FILE) (out : list line) :
  at_eof f = false ->
  ((length (unread f) < 5)%nat ->
   flv_read_tag u (mkWorld f out) = Ret (None, mkWorld (mkFILE [] true) out))
  /\
  ((5 <= length (unread f))%nat ->
   forall w', flv_read_tag u (mkWorld f out) <> Ret (None, w')).
Proof.
  intros He. destruct f as [bytes e]. cbn [at_eof unread] in *. subst e. split.
  - apply flv_read_tag_at_end.
  - intros Hlen w'.
    destruct bytes as [|p0 [|p1 [|p2 [|p3 [|ty rest]]]]];
      cbn [length] in Hlen; try lia.
    unfold flv_read_tag. cbn [g_infile].
    rewrite fread_4_cons, fread_1_cons. cbn [at_eof].
    destruct (fread_3 (mkFILE rest false)) as [[n1 size] f3].
    destruct (fread_3 f3) as [[n2 ts] f4].
    destruct (fread_1 u f4) as [[n3 ext] f5].
    destruct (fread_3 f5) as [[n4 sid] f6].
    apply tag_switch_not_null.
Qed.

Lemma end_of_stream_witness :
  flv_read_tag x00 (mkWorld (mkFILE [x00; x00; x01] false) [])
  = Ret (None, mkWorld (mkFILE [] true) []).
Proof.
  apply (end_of_stream x00 (mkFILE [x00; x00; x01] false) [] eq_refl).
  cbn. lia.
Defined.

(** What a reader leaves of the stream is what was there, less some bytes
    at the front. *)
Lemma suffix_refl (l : list byte) : suffix_of l l.
Proof. exists 0%nat. reflexivity. Qed.

Lemma suffix_trans (l l' l'' : list byte) :
  suffix_of l l' -> suffix_of l' l'' -> suffix_of l l''.
Proof.
  intros [n ->] [m ->]. exists (m + n)%nat. apply skipn_skipn.
Qed.

Lemma suffix_nil (l : list byte) : suffix_of l [].
Proof. exists (length l). symmetry. apply skipn_all. Qed.

Lemma fread_suffix (size nmemb : Z) (f : FILE) :
  suffix_of (unread f) (unread (snd (fread size nmemb f))).
Proof.
  unfold fread. destruct (_ <=? _); cbn [snd unread].
  - eexists. reflexivity.
  - apply suffix_nil.
Qed.

Lemma fread_1_suffix (old : byte) (f : FILE) :
  suffix_of (unread f) (unread (snd (fread_1 old f))).
Proof.
  unfold fread_1. pose proof (fread_suffix 1 1 f) as H.
  destruct (fread 1 1 f) as [[got count] f']. exact H.
Qed.

Lemma fread_3_suffix (f : FILE) :
  suffix_of (unread f) (unread (snd (fread_3 f))).
Proof.
  unfold fread_3. pose proof (fread_suffix 3 1 f) as H.
  destruct (fread 3 1 f) as [[got count] f']. exact H.
Qed.

Lemma fread_4_suffix (f : FILE) :
  suffix_of (unread f) (unread (snd (fread_4 f))).
Proof.
  unfold fread_4. pose proof (fread_suffix 4 1 f) as H.
  destruct (fread 4 1 f) as [[got count] f']. exact H.
Qed.

Lemma went_on_refl (w : world) : went_on w w.
Proof.
  split; [apply suffix_refl|]. exists []. symmetry. apply app_nil_r.
Qed.

Lemma went_on_trans (w w' w'' : world) :
  went_on w w' -> went_on w' w'' -> went_on w w''.
Proof.
  intros [S1 [m1 O1]] [S2 [m2 O2]]. split.
  - eapply suffix_trans; eassumption.
  - exists (m1 ++ m2). rewrite O2, O1, app_assoc. reflexivity.
Qed.

Lemma went_on_file (w : world) (f : FILE) :
  suffix_of (unread (g_infile w)) (unread f) -> went_on w (with_file f w).
Proof.
  intros H. split; [exact H|]. exists []. symmetry. apply app_nil_r.
Qed.

Lemma went_on_print (w : world) (l : line) : went_on w (print l w).
Proof. split; [apply suffix_refl|]. exists [l]. reflexivity. Qed.

Lemma went_on_print_all (w : world) (ls : list line) : went_on w (print_all ls w).
Proof. split; [apply suffix_refl|]. exists ls. reflexivity. Qed.

Lemma malloc_fread_suffix (n : Z) (f : FILE) (r : list byte * Z * FILE) :
  malloc_fread n f = Ret r -> suffix_of (unread f) (unread (snd r)).
Proof.
  unfold malloc_fread. destruct (_ >? _); [discriminate|].
  intros [= <-]. apply fread_suffix.
Qed.

Lemma read_audio_tag_went_on (tag : flv_tag_t) (w : world)
    (r : option audio_tag_t * world) :
  read_audio_tag tag w = Ret r -> went_on w (snd r).
Proof.
  unfold read_audio_tag.
  destruct (data_size tag =? 0); [intros [= <-]; apply went_on_refl|].
  pose proof (fread_1_suffix x00 (g_infile w)) as H1.
  destruct (fread_1 x00 (g_infile w)) as [[count byte] f1]. cbn [snd] in H1.
  assert (Hw1 : went_on w (with_file f1 w)) by (apply went_on_file, H1).
  destruct (flv_get_bits (u8 byte) 4 4 =? 10).
  - pose proof (fread_1_suffix byte f1) as H2.
    destruct (fread_1 byte f1) as [[n byte'] f2]. cbn [snd] in H2.
    set (w2 := print _ (with_file f2 w)).
    assert (Hw2 : went_on w w2).
    { apply (went_on_trans _ (with_file f2 w)); [|apply went_on_print].
      apply went_on_file. eapply suffix_trans; eassumption. }
    destruct (malloc_fread _ (g_infile w2)) as [[[buf count'] f3]| | | |] eqn:E;
      try discriminate.
    apply malloc_fread_suffix in E. cbn [snd bind] in *.
    assert (Hw3 : went_on w (with_file f3 w2)).
    { apply (went_on_trans _ w2); [exact Hw2|]. apply went_on_file, E. }
    destruct (_ && _); intros [= <-]; [|exact Hw3].
    apply (went_on_trans _ (with_file f3 w2)); [exact Hw3|apply went_on_print].
  - destruct (malloc_fread _ (g_infile (with_file f1 w)))
      as [[[buf count'] f3]| | | |] eqn:E; try discriminate.
    apply malloc_fread_suffix in E. cbn [snd bind] in *.
    assert (Hw3 : went_on w (with_file f3 (with_file f1 w))).
    { apply (went_on_trans _ (with_file f1 w)); [exact Hw1|].
      apply went_on_file, E. }
    destruct (_ && _); intros [= <-]; [|exact Hw3].
    apply (went_on_trans _ (with_file f3 (with_file f1 w)));
      [exact Hw3|apply went_on_print].
Qed.

Lemma read_avc_video_tag_went_on (u : byte) (frame size : Z) (w : world)
    (r : avc_video_tag_t * world) :
  read_avc_video_tag u frame size w = Ret r -> went_on w (snd r).
Proof.
  unfold read_avc_video_tag.
  pose proof (fread_1_suffix u (g_infile w)) as H1.
  destruct (fread_1 u (g_infile w)) as [[count b] f1]. cbn [snd] in H1.
  assert (H2 : exists n v f2,
             (if u8 b =? 1
              then let '(n, v, f) := fread_3 f1 in (count + n, v, f)
              else (count, 0, f1)) = (n, v, f2)
             /\ suffix_of (unread f1) (unread f2)).
  { destruct (u8 b =? 1).
    - pose proof (fread_3_suffix f1) as H. destruct (fread_3 f1) as [[n v] f].
      eauto.
    - eexists. eexists. eexists. split; [reflexivity|apply suffix_refl]. }
  destruct H2 as (n2 & ct & f2 & -> & S2).
  destruct (negb (frame =? 5)); [|discriminate]. cbn [assert bind].
  assert (H3 : exists n v f3,
             (if u8 b =? 0 then (n2, 0, f2)
              else if u8 b =? 1
                   then let '(n, v, f) := fread_4 f2 in (n2 + n, v, f)
                   else (n2, 0, f2)) = (n, v, f3)
             /\ suffix_of (unread f2) (unread f3)).
  { destruct (u8 b =? 0);
      [eexists; eexists; eexists; split; [reflexivity|apply suffix_refl]|].
    destruct (u8 b =? 1).
    - pose proof (fread_4_suffix f2) as H. destruct (fread_4 f2) as [[n v] f].
      eauto.
    - eexists. eexists. eexists. split; [reflexivity|apply suffix_refl]. }
  destruct H3 as (n3 & nalu & f3 & -> & S3).
  unfold name_at. destruct (_ && _); [|discriminate]. cbn [bind].
  destruct (malloc_fread _ f3) as [[[buf c] f4]| | | |] eqn:E; try discriminate.
  apply malloc_fread_suffix in E. cbn [snd bind] in *.
  intros [= <-]. cbn [snd]. apply went_on_file.
  eapply suffix_trans; [exact H1|].
  eapply suffix_trans; [exact S2|].
  eapply suffix_trans; eassumption.
Qed.

Lemma read_video_tag_went_on (u : byte) (tag : flv_tag_t) (w : world)
    (r : option video_tag_t * world) :
  read_video_tag u tag w = Ret r -> went_on w (snd r).
Proof.
  unfold read_video_tag.
  destruct (data_size tag =? 0); [intros [= <-]; apply went_on_refl|].
  pose proof (fread_1_suffix x00 (g_infile w)) as H1.
  destruct (fread_1 x00 (g_infile w)) as [[count byte] f1]. cbn [snd] in H1.
  unfold name_at.
  destruct (_ && _); [|discriminate]. cbn [bind].
  destruct (_ && _); [|discriminate]. cbn [bind].
  destruct (_ =? FLV_CODEC_ID_AVC).
  - destruct (read_avc_video_tag _ _ _ _) as [r'| | | |] eqn:E; try discriminate.
    cbn [bind]. intros [= <-]. cbn [snd].
    apply read_avc_video_tag_went_on in E.
    apply (went_on_trans _ (with_file f1 w)); [apply went_on_file, H1|exact E].
  - destruct (malloc_fread _ f1) as [[[buf c] f2]| | | |] eqn:E; try discriminate.
    apply malloc_fread_suffix in E. cbn [snd bind] in *.
    intros [= <-]. cbn [snd]. apply went_on_file.
    eapply suffix_trans; eassumption.
Qed.

Lemma read_scriptdata_tag_went_on (u : byte) (tag : flv_tag_t) (w : world)
    (r : option scriptdata_tag_t * world) :
  read_scriptdata_tag u tag w = Ret r -> went_on w (snd r).
Proof.
  unfold read_scriptdata_tag.
  destruct (data_size tag <=? 0); [intros [= <-]; apply went_on_refl|].
  pose proof (fread_suffix 1 (data_size tag) (g_infile w)) as H1.
  destruct (fread 1 (data_size tag) (g_infile w)) as [[buf count] f1].
  cbn [snd] in H1.
  assert (Hw1 : went_on w (with_file f1 w)) by (apply went_on_file, H1).
  destruct (parse_scriptdata_string _) as [[name c1]| | | |]; try discriminate.
  cbn [bind fst snd].
  destruct name as [name_str|]; [|intros [= <-]; exact Hw1].
  destruct (parse_scriptdata_ECMA_array_raw c1) as [[v c2]| | | |]; try discriminate.
  cbn [bind fst snd].
  destruct v as [[value_type items]|]; [|intros [= <-]; exact Hw1].
  destruct (print_scriptdata_object _ c2) as [[ls c3]| | | |]; try discriminate.
  cbn [bind fst snd].
  destruct (len c3 =? 0); [|discriminate].
  cbn [assert bind]. intros [= <-]. cbn [snd].
  apply (went_on_trans _ (with_file f1 w)); [exact Hw1|].
  eapply went_on_trans; [apply went_on_print|apply went_on_print_all].
Qed.

Lemma tag_switch_went_on (u : byte) (tag : flv_tag_t) (w : world)
    (r : option flv_tag_t * world) :
  tag_switch u tag w = Ret r -> went_on w (snd r).
Proof.
  unfold tag_switch.
  destruct (tag_type tag) as [|p|p]; try discriminate.
  do 5 (try destruct p as [p|p|]; try discriminate).
  all: cbv beta iota zeta;
    match goal with
    | |- context [bind ?m _] =>
        destruct m as [r'| | | |] eqn:E; cbn [bind]; try discriminate;
        intros H; injection H as <-; cbn [snd];
        first [apply read_scriptdata_tag_went_on in E
              |apply read_video_tag_went_on in E
              |apply read_audio_tag_went_on in E];
        exact E
    end.
Qed.

Lemma flv_read_tag_went_on (u : byte) (w : world)
    (r : option flv_tag_t * world) :
  flv_read_tag u w = Ret r -> went_on w (snd r).
Proof.
  unfold flv_read_tag.
  pose proof (fread_4_suffix (g_infile w)) as S1.
  destruct (fread_4 (g_infile w)) as [[n0 prev] f1]. cbn [snd] in S1.
  pose proof (fread_1_suffix u f1) as S2.
  destruct (fread_1 u f1) as [[n1 type] f2]. cbn [snd] in S2.
  assert (W2 : went_on w (with_file f2 w)).
  { apply went_on_file. eapply suffix_trans; eassumption. }
  destruct (at_eof f2); [intros [= <-]; exact W2|].
  pose proof (fread_3_suffix f2) as S3.
  destruct (fread_3 f2) as [[n2 size] f3]. cbn [snd] in S3.
  pose proof (fread_3_suffix f3) as S4.
  destruct (fread_3 f3) as [[n3 ts] f4]. cbn [snd] in S4.
  pose proof (fread_1_suffix u f4) as S5.
  destruct (fread_1 u f4) as [[n4 ext] f5]. cbn [snd] in S5.
  pose proof (fread_3_suffix f5) as S6.
  destruct (fread_3 f5) as [[n5 sid] f6]. cbn [snd] in S6.
  intros H. apply tag_switch_went_on in H.
  apply (went_on_trans _ (with_file f6 w)); [|exact H].
  apply went_on_file.
  eapply suffix_trans; [exact S1|]. eapply suffix_trans; [exact S2|].
  eapply suffix_trans; [exact S3|]. eapply suffix_trans; [exact S4|].
  eapply suffix_trans; eassumption.
Qed.

(** X21.  [flv_read_tag] only goes forward: whenever it returns, what is
    left of the stream is what was there less some bytes at the front, and
    the report is the old report with lines added at its end. *)
Theorem flv_read_tag_goes_forward (u : byte) (w w' : world)
    (tag : option flv_tag_t) :
  flv_read_tag u w = Ret (tag, w') ->
  (exists n : nat, unread (g_infile w') = skipn n (unread (g_infile w)))
  /\ (exists more, output w' = output w ++ more).
Proof.
  intros H. apply flv_read_tag_went_on in H. exact H.
Qed.

Lemma flv_read_tag_goes_forward_witness :
  (exists n : nat, [x2a] = skipn n [x00; x00; x00; x00; x08; x00; x00; x02;
                                    x00; x00; x00; x00; x00; x00; x00;
                                    xaf; x00; x2a])
  /\ (exists more, [AAC_packet_type 0 true] = [] ++ more).
Proof.
  apply (flv_read_tag_goes_forward x00
           (mkWorld (mkFILE [x00; x00; x00; x00; x08; x00; x00; x02;
                             x00; x00; x00; x00; x00; x00; x00;
                             xaf; x00; x2a] false) [])
           (mkWorld (mkFILE [x2a] false) [AAC_packet_type 0 true])
           (Some (mkTag 8 2 0 0 0
                    (Some (Audio_data (mkAudio 10 3 1 1 [])))))).
  reflexivity.
Defined.

(** ** The file header *)

(** X22.  [flv_read_header] takes nine bytes: after the signature "FLV" it
    accepts every version, every flags byte and every data offset, the
    offset being the number its four bytes make, most significant first. *)
Theorem header_round_trip (u v fl o0 o1 o2 o3 : byte) (rest : list byte)
    (e : bool) (out : list line) :
  flv_read_header u
    (mkWorld (mkFILE (x46 :: x4c :: x56 :: v :: fl :: o0 :: o1 :: o2 :: o3 :: rest)
                e) out)
  = Ret (mkHeader flv_signature (u8 v) (u8 fl) (be_value [o0; o1; o2; o3]),
         mkWorld (mkFILE rest e) out).
Proof.
  unfold flv_read_header. cbn [g_infile].
  change (x46 :: x4c :: x56 :: v :: fl :: o0 :: o1 :: o2 :: o3 :: rest)
    with ([x46; x4c; x56; v; fl; o0; o1; o2; o3] ++ rest).
  rewrite fread_prefix by reflexivity.
  cbn [stored app length skipn repeat Z.to_nat sizeof_flv_header_t firstn nth
       signature_asserts flv_signature tl].
  change (u8 x46 =? u8 x46) with true. change (u8 x4c =? u8 x4c) with true.
  change (u8 x56 =? u8 x56) with true. cbn [assert bind].
  unfold ntohl. fold (be32 o0 o1 o2 o3).
  rewrite to_uint32_be32, be32_value. reflexivity.
Qed.

Lemma u8_inj (a b : byte) : u8 a = u8 b -> a = b.
Proof.
  unfold u8. intros H. apply N2Z.inj in H.
  pose proof (Byte.of_to_N a) as Ha. pose proof (Byte.of_to_N b) as Hb.
  rewrite H in Ha. congruence.
Qed.

Lemma header_memory_head (u s0 s1 s2 : byte) (rest : list byte) (e : bool) :
  exists more,
    stored (fst (fst (fread 1 sizeof_flv_header_t (mkFILE (s0 :: s1 :: s2 :: rest) e))))
           (repeat u (Z.to_nat sizeof_flv_header_t))
    = s0 :: s1 :: s2 :: more.
Proof.
  unfold fread. cbn [unread].
  destruct (_ <=? _); cbn [fst].
  - cbn [Z.mul sizeof_flv_header_t Z.to_nat Pos.to_nat Pos.iter_op Init.Nat.add
         firstn stored app]. eexists. reflexivity.
  - unfold stored. cbn [app]. eexists. reflexivity.
Qed.

(** X23.  A stream that does not begin with the three bytes "FLV" stops the
    program on the assertion over the signature. *)
Theorem header_bad_signature (u s0 s1 s2 : byte) (rest : list byte)
    (e : bool) (out : list line) :
  [s0; s1; s2] <> flv_signature ->
  flv_read_header u (mkWorld (mkFILE (s0 :: s1 :: s2 :: rest) e) out)
  = AssertFailed.
Proof.
  intros Hsig. unfold flv_read_header. cbn [g_infile].
  destruct (header_memory_head u s0 s1 s2 rest e) as [more Hmem].
  destruct (fread 1 sizeof_flv_header_t _) as [[got count] f1].
  cbn [fst] in Hmem. rewrite Hmem.
  cbn [firstn signature_asserts flv_signature nth tl].
  destruct (Z.eqb_spec (u8 s0) (u8 x46)) as [E0|_]; [|reflexivity].
  destruct (Z.eqb_spec (u8 s1) (u8 x4c)) as [E1|_]; [|reflexivity].
  destruct (Z.eqb_spec (u8 s2) (u8 x56)) as [E2|_]; [|reflexivity].
  apply u8_inj in E0, E1, E2. subst. contradiction.
Qed.

Lemma header_bad_signature_witness :
  flv_read_header x00
    (mkWorld (mkFILE [x46; x4c; x41; x01; x05; x00; x00; x00; x09] false) [])
  = AssertFailed.
Proof. apply header_bad_signature. discriminate. Defined.

(** ** The run over the tags *)

Lemma suffix_length (l l' : list byte) :
  suffix_of l l' -> (length l' <= length l)%nat.
Proof. intros [n ->]. rewrite length_skipn. lia. Qed.

Lemma name_at_in_steps (table i : Z) : name_at table i <> OutOfFuel.
Proof. unfold name_at. destruct (_ && _); discriminate. Qed.

Lemma malloc_fread_in_steps (n : Z) (f : FILE) : malloc_fread n f <> OutOfFuel.
Proof. unfold malloc_fread. destruct (_ >? _); discriminate. Qed.

Lemma read_scriptdata_tag_finishes (u : byte) (tag : flv_tag_t) (w : world) :
  read_scriptdata_tag u tag w <> OutOfFuel.
Proof.
  unfold read_scriptdata_tag.
  destruct (data_size tag <=? 0); [discriminate|].
  destruct (fread 1 (data_size tag) (g_infile w)) as [[buf count] f1].
  match goal with |- context [parse_scriptdata_string ?c] =>
    pose proof (string_total c) as T;
    destruct (parse_scriptdata_string c) as [[name c1]| | | |] end;
    cbn [bind fst snd returns_or_asserts] in *; try discriminate;
    try contradiction.
  destruct name as [name_str|]; [|discriminate].
  pose proof (ecma_array_raw_total c1) as T'.
  destruct (parse_scriptdata_ECMA_array_raw c1) as [[v c2]| | | |];
    cbn [bind fst snd returns_or_asserts] in *; try discriminate;
    try contradiction.
  destruct v as [[value_type items]|]; [|discriminate].
  pose proof (print_scriptdata_object_fuel c2) as F.
  destruct (print_scriptdata_object _ c2) as [[ls c3]| | | |];
    cbn [bind fst snd ends_within] in *; try discriminate; try contradiction.
  destruct (len c3 =? 0); discriminate.
Qed.

Lemma read_avc_video_tag_finishes (u : byte) (frame size : Z) (w : world) :
  read_avc_video_tag u frame size w <> OutOfFuel.
Proof.
  unfold read_avc_video_tag.
  destruct (fread_1 u _) as [[c b] f2].
  destruct (if u8 b =? 1 then _ else _) as [[c2 ct] f3].
  destruct (negb _); [|discriminate]. cbn [assert bind].
  destruct (if u8 b =? 0 then _ else _) as [[c3 nalu] f4].
  pose proof (name_at_in_steps avc_packet_types (u8 b)) as N.
  destruct (name_at _ _) as [[]| | | |]; cbn [bind]; try discriminate;
    try contradiction.
  pose proof (malloc_fread_in_steps (size - c3) f4) as M.
  destruct (malloc_fread _ f4) as [[[buf c4] f5]| | | |]; cbn [bind];
    try discriminate; contradiction.
Qed.

Lemma read_video_tag_finishes (u : byte) (tag : flv_tag_t) (w : world) :
  read_video_tag u tag w <> OutOfFuel.
Proof.
  unfold read_video_tag.
  destruct (data_size tag =? 0); [discriminate|].
  destruct (fread_1 x00 (g_infile w)) as [[count byte] f1].
  unfold name_at.
  destruct (_ && _); cbn [bind]; [|discriminate].
  destruct (_ && _); cbn [bind]; [|discriminate].
  destruct (_ =? FLV_CODEC_ID_AVC).
  - match goal with |- context [read_avc_video_tag ?a ?b ?c ?d] =>
      pose proof (read_avc_video_tag_finishes a b c d) as T;
      destruct (read_avc_video_tag a b c d) as [[? ?]| | | |] end;
      cbn [bind]; try discriminate; contradiction.
  - pose proof (malloc_fread_in_steps (data_size tag - count) f1) as M.
    destruct (malloc_fread _ f1) as [[[buf c] f2]| | | |]; cbn [bind];
      try discriminate; contradiction.
Qed.

Lemma read_audio_tag_finishes (tag : flv_tag_t) (w : world) :
  read_audio_tag tag w <> OutOfFuel.
Proof.
  unfold read_audio_tag.
  destruct (data_size tag =? 0); [discriminate|].
  destruct (fread_1 x00 (g_infile w)) as [[count byte] f1].
  destruct (if _ =? 10 then _ else _) as [[c2 aac] w1].
  pose proof (malloc_fread_in_steps (data_size tag - c2) (g_infile w1)) as M.
  destruct (malloc_fread _ _) as [[[buf c] f2]| | | |]; cbn [bind];
    try discriminate; contradiction.
Qed.

Lemma flv_read_tag_not_out_of_fuel (u : byte) (w : world) :
  flv_read_tag u w <> OutOfFuel.
Proof.
  unfold flv_read_tag.
  destruct (fread_4 (g_infile w)) as [[n0 prev] f1].
  destruct (fread_1 u f1) as [[n1 type] f2].
  destruct (at_eof f2); [discriminate|].
  destruct (fread_3 f2) as [[n2 size] f3].
  destruct (fread_3 f3) as [[n3 ts] f4].
  destruct (fread_1 u f4) as [[n4 ext] f5].
  destruct (fread_3 f5) as [[n5 sid] f6].
  unfold tag_switch.
  match goal with |- context [tag_type ?t] => destruct (tag_type t) as [|p|p] end;
    try discriminate.
  do 5 (try destruct p as [p|p|]; try discriminate).
  all: cbv beta iota zeta;
    match goal with
    | |- context [read_scriptdata_tag ?u0 ?t ?w0] =>
        pose proof (read_scriptdata_tag_finishes u0 t w0) as T;
        destruct (read_scriptdata_tag u0 t w0) as [[? ?]| | | |]
    | |- context [read_video_tag ?u0 ?t ?w0] =>
        pose proof (read_video_tag_finishes u0 t w0) as T;
        destruct (read_video_tag u0 t w0) as [[? ?]| | | |]
    | |- context [read_audio_tag ?t ?w0] =>
        pose proof (read_audio_tag_finishes t w0) as T;
        destruct (read_audio_tag t w0) as [[? ?]| | | |]
    end;
    cbn [bind fst snd]; try discriminate; intros _; apply T; reflexivity.
Qed.

Lemma flv_read_tag_takes_five (u : byte) (w w' : world) (tag : flv_tag_t) :
  flv_read_tag u w = Ret (Some tag, w') ->
  (length (unread (g_infile w')) + 5 <= length (unread (g_infile w)))%nat.
Proof.
  destruct w as [[bytes e] out]. cbn [g_infile unread].
  destruct bytes as [|p0 [|p1 [|p2 [|p3 [|ty rest]]]]];
    try (destruct e; discriminate).
  unfold flv_read_tag. cbn [g_infile].
  rewrite fread_4_cons, fread_1_cons. cbn [at_eof].
  destruct e; [discriminate|].
  pose proof (fread_3_suffix (mkFILE rest false)) as S3.
  destruct (fread_3 (mkFILE rest false)) as [[n2 size] f3]. cbn [snd unread] in S3.
  pose proof (fread_3_suffix f3) as S4.
  destruct (fread_3 f3) as [[n3 ts] f4]. cbn [snd] in S4.
  pose proof (fread_1_suffix u f4) as S5.
  destruct (fread_1 u f4) as [[n4 ext] f5]. cbn [snd] in S5.
  pose proof (fread_3_suffix f5) as S6.
  destruct (fread_3 f5) as [[n5 sid] f6]. cbn [snd] in S6.
  intros H. apply tag_switch_went_on in H. destruct H as [S7 _].
  cbn [snd with_file g_infile] in S7.
  assert (S : suffix_of rest (unread (g_infile w'))).
  { eapply suffix_trans; [exact S3|]. eapply suffix_trans; [exact S4|].
    eapply suffix_trans; [exact S5|]. eapply suffix_trans; eassumption. }
  apply suffix_length in S. cbn [length]. lia.
Qed.

Lemma read_tags_ends (u : byte) (fuel : nat) (w : world) :
  (length (unread (g_infile w)) < fuel)%nat ->
  read_tags u fuel w <> OutOfFuel.
Proof.
  revert w. induction fuel as [|fuel IH]; intros w Hfuel; [lia|].
  cbn [read_tags].
  pose proof (flv_read_tag_not_out_of_fuel u w) as T.
  destruct (flv_read_tag u w) as [[[tag|] w']| | | |] eqn:E;
    cbn [bind fst snd]; try discriminate; try contradiction.
  apply flv_read_tag_takes_five in E.
  specialize (IH w' ltac:(lia)).
  destruct (read_tags u fuel w') as [r| | | |]; cbn [bind]; try discriminate.
  contradiction.
Qed.

Lemma read_tags_more_step (u : byte) (fuel : nat) (w : world) :
  read_tags u fuel w <> OutOfFuel ->
  read_tags u (S fuel) w = read_tags u fuel w.
Proof.
  revert w. induction fuel as [|fuel IH]; intros w H.
  - exfalso. apply H. reflexivity.
  - cbn [read_tags] in H |- *.
    destruct (flv_read_tag u w) as [[[tag|] w']| | | |]; cbn [bind fst snd] in *;
      try reflexivity.
    rewrite <- (IH w').
    + reflexivity.
    + intros E. apply H. rewrite E. reflexivity.
Qed.

Lemma read_tags_more (u : byte) (fuel extra : nat) (w : world) :
  read_tags u fuel w <> OutOfFuel ->
  read_tags u (extra + fuel) w = read_tags u fuel w.
Proof.
  intros H. induction extra as [|extra IH]; [reflexivity|].
  cbn [Nat.add]. rewrite read_tags_more_step; rewrite IH; auto.
Qed.

Lemma flv_read_header_went_on (u : byte) (w : world) (r : flv_header_t * world) :
  flv_read_header u w = Ret r -> went_on w (snd r).
Proof.
  unfold flv_read_header.
  pose proof (fread_suffix 1 sizeof_flv_header_t (g_infile w)) as S.
  destruct (fread 1 sizeof_flv_header_t (g_infile w)) as [[got count] f1].
  cbn [snd] in S.
  destruct (signature_asserts _ _); try discriminate.
  cbn [bind]. intros [= <-]. apply went_on_file, S.
Qed.

(** X24.  The loop of [flv_parser_run] needs no more rounds than the stream
    has bytes: with one round more the run has an outcome, which is that it
    returns, stops on an assertion or in [die], or reaches a step that is
    undefined (the print of a name outside its table, the read into the
    buffer of a size that wrapped around); more rounds do not change the
    outcome. *)
Theorem parser_run_terminates (u : byte) (w : world) (extra : nat) :
  flv_parser_run u (run_fuel (length (unread (g_infile w)))) w <> OutOfFuel
  /\ flv_parser_run u (extra + run_fuel (length (unread (g_infile w)))) w
     = flv_parser_run u (run_fuel (length (unread (g_infile w)))) w.
Proof.
  unfold flv_parser_run.
  destruct (flv_read_header u w) as [[h w1]| | | |] eqn:E; cbn [bind snd].
  - apply flv_read_header_went_on in E. destruct E as [S _]. cbn [snd] in S.
    apply suffix_length in S.
    assert (T : read_tags u (run_fuel (length (unread (g_infile w)))) w1
                <> OutOfFuel)
      by (apply read_tags_ends; unfold run_fuel; lia).
    rewrite read_tags_more by exact T.
    split; [|reflexivity].
    destruct (read_tags u _ w1); cbn [bind]; try discriminate. contradiction.
  - split; [discriminate|reflexivity].
  - split; [discriminate|reflexivity].
  - exfalso. revert E. unfold flv_read_header.
    destruct (fread 1 _ _) as [[got count] f1].
    match goal with |- context [signature_asserts ?a ?b] =>
      assert (T : signature_asserts a b <> OutOfFuel) end.
    { cbn [flv_signature signature_asserts].
      repeat (match goal with |- context [assert ?b] => destruct b end;
              cbn [assert bind]; try discriminate). }
    destruct (signature_asserts _ _); cbn [bind]; try discriminate.
    contradiction.
  - split; [discriminate|reflexivity].
Qed.

(** ** A file of audio tags *)

Lemma encode_be_3 (n : Z) :
  0 <= n < 2 ^ 24 ->
  exists b0 b1 b2, encode_be 3 n = [b0; b1; b2] /\ be24 b0 b1 b2 = n.
Proof.
  intros Hn.
  pose proof (length_encode_be 3 n) as Hlen.
  pose proof (be_value_encode_be 3 n ltac:(cbn; lia)) as Hval.
  destruct (encode_be 3 n) as [|b0 [|b1 [|b2 [|? ?]]]]; try discriminate.
  exists b0, b1, b2. split; [reflexivity|].
  rewrite be24_value. exact Hval.
Qed.

Lemma read_audio_tag_raw (tag : flv_tag_t) (first : byte)
    (data rest : list byte) (out : list line) :
  data_size tag = 1 + Z.of_nat (length data) ->
  data_size tag < 2 ^ 24 ->
  bits (u8 first) 7 4 <> 10 ->
  read_audio_tag tag (mkWorld (mkFILE (first :: data ++ rest) false) out)
  = Ret (Some (mkAudio (bits (u8 first) 7 4) (bits (u8 first) 3 2)
                       (bits (u8 first) 1 1) (bits (u8 first) 0 0) data),
         mkWorld (mkFILE rest false) out).
Proof.
  intros Hsize Hmax Hfmt. unfold read_audio_tag.
  destruct (Z.eqb_spec (data_size tag) 0); [lia|].
  cbn [g_infile]. rewrite fread_1_cons.
  rewrite flv_get_bits_7_4, flv_get_bits_3_2, flv_get_bits_1_1, flv_get_bits_0_0.
  destruct (Z.eqb_spec (bits (u8 first) 7 4) 10); [contradiction|].
  unfold with_file. cbn [g_infile output].
  rewrite (malloc_fread_exact (data_size tag - 1) data rest false) by lia.
  reflexivity.
Qed.

Lemma flv_read_tag_frame (u : byte) (fr : audio_frame) (rest : list byte)
    (out : list line) :
  frame_fits fr ->
  flv_read_tag u (mkWorld (mkFILE (frame_bytes fr ++ rest) false) out)
  = Ret (Some (frame_tag fr), mkWorld (mkFILE rest false) out).
Proof.
  intros (Hprev & Hts & Hext & Hsid & Hsize & Hfmt).
  unfold frame_bytes, encode_tag_header.
  destruct (encode_be_4 (frame_prev fr) Hprev) as (p0 & p1 & p2 & p3 & -> & _).
  destruct (encode_be_3 (1 + Z.of_nat (length (frame_data fr))) ltac:(lia))
    as (s0 & s1 & s2 & -> & Es).
  destruct (encode_be_3 (frame_ts fr) Hts) as (t0 & t1 & t2 & -> & Et).
  destruct (encode_be_3 (frame_sid fr) Hsid) as (i0 & i1 & i2 & -> & Ei).
  cbn [app]. rewrite flv_read_tag_header.
  rewrite Es, Et, Ei.
  rewrite !u8_byte_of by (assumption || (unfold TAGTYPE_AUDIODATA; lia)).
  unfold tag_switch. cbn [tag_type].
  change (match TAGTYPE_AUDIODATA with 8 => ?a | _ => _ end) with a.
  cbv beta zeta.
  rewrite read_audio_tag_raw by (cbn [data_size]; assumption || lia).
  reflexivity.
Qed.

Lemma read_tags_frames (u : byte) (frames : list audio_frame)
    (trailer : list byte) (fuel : nat) (out : list line) :
  Forall frame_fits frames ->
  (length trailer < 5)%nat ->
  (length frames < fuel)%nat ->
  read_tags u fuel
    (mkWorld (mkFILE (flat_map frame_bytes frames ++ trailer) false) out)
  = Ret (map frame_tag frames, mkWorld (mkFILE [] true) out).
Proof.
  revert fuel. induction frames as [|fr frames IH]; intros fuel Hfit Htr Hfuel.
  - destruct fuel as [|fuel]; [cbn in Hfuel; lia|].
    cbn [flat_map app read_tags map].
    rewrite flv_read_tag_at_end by exact Htr. reflexivity.
  - destruct fuel as [|fuel]; [cbn in Hfuel; lia|].
    inversion Hfit as [|? ? Hfr Hrest]; subst.
    cbn [flat_map read_tags map]. rewrite <- app_assoc.
    rewrite flv_read_tag_frame by exact Hfr.
    cbn [bind fst snd]. cbn [length] in Hfuel.
    rewrite IH by (assumption || lia). reflexivity.
Qed.

(** X25.  Round trip of a file: the nine bytes of a header, with any
    version, flags and data offset, followed by audio tags of a format other
    than AAC and by fewer than five more bytes, are read by [flv_parser_run]
    to the end of the stream; it returns 0, and the tags it reads are the
    tags written, in order, each with its fields and its data.  The first
    tag is read right behind the header, whatever the data offset says. *)
Theorem audio_file_round_trip (u v fl o0 o1 o2 o3 : byte)
    (frames : list audio_frame) (trailer : list byte) (fuel : nat)
    (out : list line) :
  Forall frame_fits frames ->
  (length trailer < 5)%nat ->
  (length frames < fuel)%nat ->
  flv_parser_run u fuel
    (mkWorld (mkFILE (x46 :: x4c :: x56 :: v :: fl :: o0 :: o1 :: o2 :: o3 ::
                      flat_map frame_bytes frames ++ trailer) false) out)
  = Ret (0, map frame_tag frames, mkWorld (mkFILE [] true) out).
Proof.
  intros Hfit Htr Hfuel. unfold flv_parser_run, flv_read_header.
  cbn [g_infile].
  change (x46 :: x4c :: x56 :: v :: fl :: o0 :: o1 :: o2 :: o3 :: ?l)
    with ([x46; x4c; x56; v; fl; o0; o1; o2; o3] ++ l).
  rewrite fread_prefix by reflexivity.
  cbn [stored app length skipn repeat Z.to_nat sizeof_flv_header_t firstn nth
       signature_asserts flv_signature tl].
  change (u8 x46 =? u8 x46) with true. change (u8 x4c =? u8 x4c) with true.
  change (u8 x56 =? u8 x56) with true. cbn [assert bind snd].
  unfold with_file. cbn [output].
  rewrite read_tags_frames by assumption. reflexivity.
Qed.

Lemma audio_file_round_trip_witness :
  flv_parser_run x00 2
    (mkWorld (mkFILE (x46 :: x4c :: x56 :: x01 :: x04 :: x00 :: x00 :: x00 :: x63 ::
                      flat_map frame_bytes [mkFrame 0 33 0 0 x2f [x11; x22]]
                      ++ [x00; x00; x00; x0e]) false) [])
  = Ret (0, map frame_tag [mkFrame 0 33 0 0 x2f [x11; x22]],
         mkWorld (mkFILE [] true) []).
Proof.
  apply audio_file_round_trip.
  - constructor; [|constructor]. unfold frame_fits. cbn.
    repeat split; try lia; try discriminate.
  - cbn. lia.
  - cbn. lia.
Defined.

(** ** Video payloads, properties that are not decoded, the end reached *)

(** X26.  Round trip of a video payload of the declared size whose frame
    type, codec id and packet type have a name in their tables.  With a
    codec id below 7 and a frame type below 6 the bytes behind the first are
    the data as they are.  With the codec id 7 and a frame type below 5, the
    packet type 0 or 2 leaves composition time and length 0 and the bytes
    behind it are the data; the packet type 1 is followed by the composition
    time and the length of the first NALU, and the data are the bytes behind
    these. *)
Theorem video_round_trip (u : byte) (tag : flv_tag_t) (first : byte)
    (rest : list byte) (out : list line) :
  1 <= data_size tag < 2 ^ 24 ->
  let frame := bits (u8 first) 7 4 in
  let codec := bits (u8 first) 3 0 in
  (codec < FLV_CODEC_ID_AVC -> frame < frame_types -> forall data,
   data_size tag = 1 + Z.of_nat (length data) ->
   read_video_tag u tag (mkWorld (mkFILE (first :: data ++ rest) false) out)
   = Ret (Some (mkVideo frame codec (Video_raw data)),
          mkWorld (mkFILE rest false) out))
  /\
  (codec = FLV_CODEC_ID_AVC -> frame < 5 -> forall pkt data,
   u8 pkt = 0 \/ u8 pkt = 2 ->
   data_size tag = 2 + Z.of_nat (length data) ->
   read_video_tag u tag (mkWorld (mkFILE (first :: pkt :: data ++ rest) false) out)
   = Ret (Some (mkVideo frame codec (Video_avc (mkAvc (u8 pkt) 0 0 data))),
          mkWorld (mkFILE rest false) out))
  /\
  (codec = FLV_CODEC_ID_AVC -> frame < 5 -> forall c0 c1 c2 n0 n1 n2 n3 data,
   data_size tag = 9 + Z.of_nat (length data) ->
   read_video_tag u tag
     (mkWorld (mkFILE (first :: x01 :: c0 :: c1 :: c2 :: n0 :: n1 :: n2 :: n3
                       :: data ++ rest) false) out)
   = Ret (Some (mkVideo frame codec
                  (Video_avc (mkAvc 1 (be_value [c0; c1; c2])
                                (be_value [n0; n1; n2; n3]) data))),
          mkWorld (mkFILE rest false) out)).
Proof.
  intros Hsize frame codec. subst frame codec.
  assert (Hs : to_uint32 (data_size tag - 1) = data_size tag - 1).
  { unfold to_uint32. apply Z.mod_small. lia. }
  pose proof (bits_range (u8 first) 7 4 ltac:(lia)) as Hf0.
  pose proof (bits_range (u8 first) 3 0 ltac:(lia)) as Hc0.
  unfold FLV_CODEC_ID_AVC, frame_types.
  repeat split.
  - intros Hc Hf data Hlen. unfold read_video_tag.
    destruct (Z.eqb_spec (data_size tag) 0); [lia|].
    cbn [g_infile]. rewrite fread_1_cons, flv_get_bits_7_4, flv_get_bits_3_0.
    rewrite !name_at_inside by (unfold frame_types, codec_ids; lia).
    cbn [bind].
    destruct (Z.eqb_spec (bits (u8 first) 3 0) FLV_CODEC_ID_AVC) as [E|_];
      [unfold FLV_CODEC_ID_AVC in E; lia|].
    rewrite (malloc_fread_exact (data_size tag - 1) data rest false) by lia.
    reflexivity.
  - intros Hc Hf pkt data Hpkt Hlen. unfold read_video_tag.
    destruct (Z.eqb_spec (data_size tag) 0); [lia|].
    cbn [g_infile]. rewrite fread_1_cons, flv_get_bits_7_4, flv_get_bits_3_0.
    rewrite !name_at_inside by (unfold frame_types, codec_ids; lia).
    cbn [bind].
    destruct (Z.eqb_spec (bits (u8 first) 3 0) FLV_CODEC_ID_AVC) as [_|E];
      [|unfold FLV_CODEC_ID_AVC in E; lia].
    rewrite Hs. unfold read_avc_video_tag, with_file. cbn [g_infile output].
    rewrite fread_1_cons.
    destruct (Z.eqb_spec (u8 pkt) 1); [lia|].
    destruct (Z.eqb_spec (bits (u8 first) 7 4) 5); [lia|].
    cbn [negb assert bind].
    rewrite name_at_inside by (unfold avc_packet_types; lia). cbn [bind].
    destruct (u8 pkt =? 0);
      rewrite (malloc_fread_exact (data_size tag - 1 - 1) data rest false) by lia;
      reflexivity.
  - intros Hc Hf c0 c1 c2 n0 n1 n2 n3 data Hlen. unfold read_video_tag.
    destruct (Z.eqb_spec (data_size tag) 0); [lia|].
    cbn [g_infile]. rewrite fread_1_cons, flv_get_bits_7_4, flv_get_bits_3_0.
    rewrite !name_at_inside by (unfold frame_types, codec_ids; lia).
    cbn [bind].
    destruct (Z.eqb_spec (bits (u8 first) 3 0) FLV_CODEC_ID_AVC) as [_|E];
      [|unfold FLV_CODEC_ID_AVC in E; lia].
    rewrite Hs. unfold read_avc_video_tag, with_file. cbn [g_infile output].
    rewrite fread_1_cons. change (u8 x01) with 1. cbn [Z.eqb Pos.eqb].
    rewrite fread_3_cons.
    destruct (Z.eqb_spec (bits (u8 first) 7 4) 5); [lia|].
    cbn [negb assert bind]. rewrite fread_4_cons.
    rewrite name_at_inside by (unfold avc_packet_types; lia). cbn [bind].
    rewrite (malloc_fread_exact (data_size tag - 1 - (1 + 3 + 4)) data rest false)
      by lia.
    rewrite be24_value, be32_value. reflexivity.
Qed.

Lemma video_round_trip_witness :
  read_video_tag x00 (mkTag 9 4 0 0 0 None)
    (mkWorld (mkFILE (x17 :: x00 :: [x01; x64] ++ [x2a]) false) [])
  = Ret (Some (mkVideo 1 7 (Video_avc (mkAvc 0 0 0 [x01; x64]))),
         mkWorld (mkFILE [x2a] false) []).
Proof.
  pose proof (video_round_trip x00 (mkTag 9 4 0 0 0 None) x17 [x2a] []
                ltac:(cbn; lia)) as H.
  cbv zeta in H. destruct H as (_ & H & _).
  exact (H eq_refl ltac:(cbn; lia) x00 [x01; x64] (or_introl eq_refl) eq_refl).
Defined.

Lemma body_with_unknown_type (ps : amf_props) (name : list byte) (t : byte)
    (more : list byte) (fuel : nat) :
  representable_props ps ->
  Z.of_nat (length name) < 65536 ->
  is_terminator name (u8 t) = false ->
  (forall self c, property_switch self name (u8 t) c
                  = Ret ([Unknown_property name (u8 t)], c, false)) ->
  (props_fuel ps <= fuel)%nat ->
  print_scriptdata_object fuel
    (mkCursor (encode_props ps ++ encode_string name ++ t :: more)
       (Z.of_nat (length (encode_props ps ++ encode_string name ++ t :: more))))
  = Ret (props_lines ps ++ [Unknown_property name (u8 t)],
         mkCursor (t :: more) (1 + Z.of_nat (length more))).
Proof.
  intros Hrep Hname Hnt Hsw. revert fuel.
  induction ps as [|pname v rest IH]; intros fuel Hfuel.
  - cbn [props_fuel encode_props app props_lines] in *.
    destruct fuel as [|fuel]; [lia|].
    rewrite length_app, Nat2Z.inj_add, length_encode_string. cbn [length].
    rewrite Nat2Z.inj_succ.
    rewrite print_scriptdata_object_step. cbn [len].
    match goal with |- context [?l >? 0] => destruct (Z.gtb_spec l 0); [|lia] end.
    rewrite string_without_type_encode by lia.
    cbn [len].
    match goal with |- context [?l <? 1] => destruct (Z.ltb_spec l 1); [lia|] end.
    change (peek (mkCursor (t :: more) _) 0) with (u8 t).
    rewrite Hnt, Hsw. cbn [bind]. same_result.
  - cbn [representable_props props_fuel encode_props props_lines] in *.
    destruct Hrep as (Hpname & Hv & Hrest).
    destruct fuel as [|fuel]; [lia|].
    rewrite <- !app_assoc.
    rewrite !length_app, !Nat2Z.inj_add, length_encode_string.
    rewrite print_scriptdata_object_step. cbn [len].
    match goal with |- context [?l >? 0] => destruct (Z.gtb_spec l 0); [|lia] end.
    rewrite string_without_type_encode by lia.
    match goal with |- context [mkCursor _ ?l1] => set (l' := l1) end.
    cbn [len].
    destruct (encode_value_head v) as (t' & body & E & Ht').
    destruct (Z.ltb_spec l' 1) as [Hlt|_].
    { subst l'. rewrite E in Hlt. cbn [length] in Hlt. lia. }
    assert (Hnt' : is_terminator pname
              (peek (mkCursor (encode_value v ++ encode_props rest
                               ++ encode_string name ++ t :: more) l') 0) = false).
    { rewrite E. unfold is_terminator.
      change (peek (mkCursor ((t' :: body) ++ _) l') 0) with (u8 t').
      apply andb_false_intro2. apply Z.eqb_neq. exact Ht'. }
    rewrite Hnt'.
    pose proof (object_decodes_mutual) as [Hval _].
    rewrite Hval by (assumption || lia).
    cbn [bind fst snd].
    replace (l' - Z.of_nat (length (encode_value v)))
      with (Z.of_nat (length (encode_props rest ++ encode_string name ++ t :: more)))
      by (subst l'; rewrite !length_app, !Nat2Z.inj_add, length_encode_string; lia).
    rewrite IH by (assumption || lia).
    cbn [bind fst snd]. same_result.
Qed.

Lemma property_switch_unknown self name (t : Z) (c : cursor) :
  t <> SCRIPTDATA_NUMBER -> t <> SCRIPTDATA_BOOLEAN -> t <> SCRIPTDATA_STRING ->
  t <> SCRIPTDATA_OBJECT -> t <> SCRIPTDATA_STRICT_ARRAY -> t <> SCRIPTDATA_DATE ->
  0 <= t < scriptdata_value_type_names ->
  property_switch self name t c = Ret ([Unknown_property name t], c, false).
Proof.
  intros H0 H1 H2 H3 H10 H11 Ht. rewrite property_switch_cases.
  repeat match goal with
  | |- context [?a =? ?b] => destruct (Z.eqb_spec a b); [contradiction|]
  end.
  rewrite name_at_inside by exact Ht. reflexivity.
Qed.

(** X27.  A property of a type that is not decoded (MovieClip, Null,
    Undefined, Reference, a nested ECMA array or a long string) ends the
    decoding of the body where the property stands: the line
    of the unknown property is the last one, its type byte is not consumed,
    and the script-data tag stops the program on the assertion
    [value_length == 0]. *)
Theorem script_tag_unknown_property (u : byte) (tag : flv_tag_t)
    (name : list byte) (count : Z) (props : amf_props) (pname : list byte)
    (t : byte) (more rest : list byte) (e : bool) (out : list line)
    (fuel : nat) :
  Z.of_nat (length name) < 65536 -> 0 <= count < 2 ^ 32 ->
  representable_props props ->
  Z.of_nat (length pname) < 65536 ->
  u8 t = SCRIPTDATA_MOVIE_CLIP \/ u8 t = SCRIPTDATA_NULL
    \/ u8 t = SCRIPTDATA_UNDEFINED \/ u8 t = SCRIPTDATA_REFERENCE
    \/ u8 t = SCRIPTDATA_ECMA_ARRAY \/ u8 t = SCRIPTDATA_LONG_STRING ->
  data_size tag
    = 3 + Z.of_nat (length name) + 5
      + Z.of_nat (length (encode_props props ++ encode_string pname ++ t :: more)) ->
  (props_fuel props <= fuel)%nat ->
  print_scriptdata_object fuel
    (mkCursor (encode_props props ++ encode_string pname ++ t :: more)
       (Z.of_nat (length (encode_props props ++ encode_string pname ++ t :: more))))
  = Ret (props_lines props ++ [Unknown_property pname (u8 t)],
         mkCursor (t :: more) (1 + Z.of_nat (length more)))
  /\
  read_scriptdata_tag u tag
    (mkWorld (mkFILE ((x02 :: encode_string name ++ x08 :: encode_be 4 count
                       ++ encode_props props ++ encode_string pname ++ t :: more)
                      ++ rest) e) out)
  = AssertFailed.
Proof.
  intros Hname Hcount Hrep Hpname Ht Hsize Hfuel.
  assert (Hnt : is_terminator pname (u8 t) = false).
  { unfold is_terminator. apply andb_false_intro2. apply Z.eqb_neq.
    unfold SCRIPTDATA_MOVIE_CLIP, SCRIPTDATA_NULL, SCRIPTDATA_UNDEFINED,
      SCRIPTDATA_REFERENCE, SCRIPTDATA_ECMA_ARRAY, SCRIPTDATA_LONG_STRING,
      SCRIPTDATA_OBJECT_END_MARKER in *.
    lia. }
  assert (Hsw : forall self c, property_switch self pname (u8 t) c
                  = Ret ([Unknown_property pname (u8 t)], c, false)).
  { intros self c.
    apply property_switch_unknown;
      unfold SCRIPTDATA_MOVIE_CLIP, SCRIPTDATA_NULL, SCRIPTDATA_UNDEFINED,
        SCRIPTDATA_REFERENCE, SCRIPTDATA_ECMA_ARRAY, SCRIPTDATA_LONG_STRING,
        SCRIPTDATA_NUMBER,
        SCRIPTDATA_BOOLEAN, SCRIPTDATA_STRING, SCRIPTDATA_OBJECT,
        SCRIPTDATA_STRICT_ARRAY, SCRIPTDATA_DATE,
        scriptdata_value_type_names in *; lia. }
  split.
  - apply body_with_unknown_type; assumption.
  - rewrite (read_scriptdata_tag_body u tag name count
               (encode_props props ++ encode_string pname ++ t :: more) rest e out)
      by assumption.
    pose proof (body_with_unknown_type props pname t more (props_fuel props)
                  Hrep Hpname Hnt Hsw ltac:(lia)) as Hdec.
    apply print_scriptdata_object_enough in Hdec. cbn [len] in Hdec.
    rewrite Hdec. cbn [bind fst snd len].
    replace (1 + Z.of_nat (length more) =? 0) with false
      by (symmetry; apply Z.eqb_neq; lia).
    reflexivity.
Qed.

Lemma script_tag_unknown_property_witness :
  print_scriptdata_object 1
    (mkCursor (encode_props PNil ++ encode_string [x61] ++ x05 :: [x00; x00; x09])
       (Z.of_nat 7))
  = Ret (props_lines PNil ++ [Unknown_property [x61] 5],
         mkCursor (x05 :: [x00; x00; x09]) (1 + Z.of_nat 3))
  /\
  read_scriptdata_tag x00 (mkTag 18 16 0 0 0 None)
    (mkWorld (mkFILE ((x02 :: encode_string [x6f] ++ x08 :: encode_be 4 1
                       ++ encode_props PNil ++ encode_string [x61]
                       ++ x05 :: [x00; x00; x09]) ++ [x2a]) false) [])
  = AssertFailed.
Proof.
  apply (script_tag_unknown_property x00 (mkTag 18 16 0 0 0 None) [x6f] 1 PNil
           [x61] x05 [x00; x00; x09] [x2a] false [] 1).
  - cbn. lia.
  - lia.
  - exact I.
  - cbn. lia.
  - right. left. reflexivity.
  - reflexivity.
  - cbn. lia.
Defined.

(** X28.  The end of the stream is final: once [flv_read_tag] has returned
    NULL on a stream whose end-of-file indicator was not set, the stream is
    empty with the indicator set, and a further call, whatever has been
    printed in between, returns NULL again and leaves the stream as it
    is. *)
Theorem end_of_stream_is_final (u : byte) (f : FILE) (out : list line) (w' : world) :
  at_eof f = false ->
  flv_read_tag u (mkWorld f out) = Ret (None, w') ->
  g_infile w' = mkFILE [] true
  /\ forall out' : list line,
       exists w'' : world,
         flv_read_tag u (mkWorld (g_infile w') out') = Ret (None, w'')
         /\ g_infile w'' = g_infile w'.
Proof.
  intros He H. destruct f as [bytes e]. cbn [at_eof] in He. subst e.
  destruct (Nat.lt_ge_cases (length bytes) 5) as [Hlt|Hge].
  - rewrite flv_read_tag_at_end in H by exact Hlt.
    injection H as <-. split; [reflexivity|].
    intros out'. eexists. split; reflexivity.
  - exfalso. revert H.
    destruct bytes as [|p0 [|p1 [|p2 [|p3 [|ty rest]]]]];
      cbn [length] in Hge; try lia.
    unfold flv_read_tag. cbn [g_infile].
    rewrite fread_4_cons, fread_1_cons. cbn [at_eof].
    destruct (fread_3 (mkFILE rest false)) as [[n1 size] f3].
    destruct (fread_3 f3) as [[n2 ts] f4].
    destruct (fread_1 u f4) as [[n3 ext] f5].
    destruct (fread_3 f5) as [[n4 sid] f6].
    apply tag_switch_not_null.
Qed.

Lemma end_of_stream_is_final_witness :
  mkFILE [] true = mkFILE [] true
  /\ forall out' : list line,
       exists w'' : world,
         flv_read_tag x00 (mkWorld (mkFILE [] true) out') = Ret (None, w'')
         /\ g_infile w'' = mkFILE [] true.
Proof.
  apply (end_of_stream_is_final x00 (mkFILE [x00; x00; x00; x09] false) []
           (mkWorld (mkFILE [] true) []));
    reflexivity.
Defined.
